(** * File-system MCP server: classification, scan, search and mutation tools

    A shallow embedding of [fs_server.py].

    Modelling conventions.
    - Python [str] values are [string]s; [str.lower] is the ASCII case
      mapping, [in] on strings is substring containment, [str.find] returns
      [-1] when there is no occurrence.
    - The host is a POSIX system ([SYSTEM <> "Windows"], so the
      [os.path.normpath] branches of the tools are not taken), the current
      working directory is the root directory, and there are neither
      symbolic nor hard links.
    - The file system is a tree of directories and regular files; a regular
      file stores its text (the utf-8 encoder and decoder are inverse on
      it).  Text-mode reads apply Python's universal-newline translation.
      Time stamps are not part of the model.
    - [mimetypes.guess_type] and the size [os.stat] reports for a
      directory are parameters.
    - A Python exception is a value of [exn]; an [{"error": ...}] payload
      is a value of [error]. *)

From Stdlib Require Import String Ascii List ZArith Lia Bool Arith.
From Stdlib Require Import Numbers.DecimalString.
Import ListNotations.

Local Open Scope list_scope.
Local Open Scope string_scope.
Local Open Scope Z_scope.

(** ** Python strings *)

Module PyStr.

Definition LF : ascii := ascii_of_nat 10.
Definition CR : ascii := ascii_of_nat 13.

Definition len (s : string) : Z := Z.of_nat (String.length s).

Definition lower_char (c : ascii) : ascii :=
  let n := nat_of_ascii c in
  if (65 <=? n)%nat && (n <=? 90)%nat then ascii_of_nat (n + 32) else c.

(** [s.lower()] *)
Fixpoint lower (s : string) : string :=
  match s with
  | EmptyString => EmptyString
  | String c s' => String (lower_char c) (lower s')
  end.

(** [s.startswith(p)] *)
Definition startswith (s p : string) : bool := String.prefix p s.

(** [x in l] for a list of strings *)
Definition mem (x : string) (l : list string) : bool :=
  existsb (String.eqb x) l.

(** [q in s] for strings *)
Definition contains (q s : string) : bool :=
  match String.index 0 q s with Some _ => true | None => false end.

(** [s.find(q)] *)
Definition find (s q : string) : Z :=
  match String.index 0 q s with Some i => Z.of_nat i | None => -1 end.

(** [s.rfind(c)] for a one-character [c] *)
Fixpoint rfind_from (i : Z) (c : ascii) (s : string) : Z :=
  match s with
  | EmptyString => -1
  | String a s' =>
      let r := rfind_from (i + 1) c s' in
      if 0 <=? r then r else if Ascii.eqb a c then i else -1
  end.

Definition rfind (s : string) (c : ascii) : Z := rfind_from 0 c s.

(** Slice index normalisation: negative indices count from the end and the
    result is clipped to [0, len]. *)
Definition clip (n i : Z) : Z :=
  let j := if i <? 0 then i + n else i in
  Z.max 0 (Z.min n j).

(** [s[a:b]] *)
Definition slice (s : string) (a b : Z) : string :=
  let a' := clip (len s) a in
  let b' := clip (len s) b in
  String.substring (Z.to_nat a') (Z.to_nat (b' - a')) s.

(** [s[a:]] and [s[:b]] *)
Definition slice_from (s : string) (a : Z) : string := slice s a (len s).
Definition slice_to (s : string) (b : Z) : string := slice s 0 b.

(** [s.count(c)] for a one-character [c] *)
Fixpoint count (s : string) (c : ascii) : Z :=
  match s with
  | EmptyString => 0
  | String a s' => (if Ascii.eqb a c then 1 else 0) + count s' c
  end.

(** [s.split(c)] for a one-character separator *)
Fixpoint split (c : ascii) (s : string) : list string :=
  match s with
  | EmptyString => [EmptyString]
  | String a s' =>
      if Ascii.eqb a c then EmptyString :: split c s'
      else match split c s' with
           | [] => [String a EmptyString]
           | w :: ws => String a w :: ws
           end
  end.

(** [str(n)] for an integer *)
Definition of_int (n : Z) : string := NilEmpty.string_of_int (Z.to_int n).

(** [s.endswith(c)] for a one-character [c] *)
Fixpoint endswith_char (s : string) (c : ascii) : bool :=
  match s with
  | EmptyString => false
  | String a EmptyString => Ascii.eqb a c
  | String _ s' => endswith_char s' c
  end.

End PyStr.

(** ** [os.path] on a POSIX host *)

Module OsPath.
Import PyStr.

Definition sep : ascii := "/"%char.
Definition extsep : ascii := "."%char.

(** The [while] loop of [genericpath._splitext]: is there a character other
    than a dot at one of the [n] positions starting at [i]? *)
Fixpoint has_non_dot (p : string) (i : Z) (n : nat) : bool :=
  match n with
  | O => false
  | S n' =>
      if negb (String.eqb (slice p i (i + 1)) (String extsep EmptyString))
      then true
      else has_non_dot p (i + 1) n'
  end.

(** [os.path.splitext(p)] *)
Definition splitext (p : string) : string * string :=
  let sepIndex := rfind p sep in
  let dotIndex := rfind p extsep in
  if dotIndex >? sepIndex then
    let filenameIndex := sepIndex + 1 in
    if has_non_dot p filenameIndex (Z.to_nat (dotIndex - filenameIndex))
    then (slice_to p dotIndex, slice_from p dotIndex)
    else (p, EmptyString)
  else (p, EmptyString).

(** [os.path.basename(p)] *)
Definition basename (p : string) : string :=
  slice_from p (rfind p sep + 1).

(** [os.path.join(a, b)] *)
Definition join (a b : string) : string :=
  if startswith b "/" then b
  else if String.eqb a "" || endswith_char a sep then a ++ b
  else a ++ "/" ++ b.

End OsPath.

(** ** The type classifier *)

Module Classifier.
Import PyStr OsPath.

Definition image_exts := [".jpg"; ".jpeg"; ".png"; ".gif"; ".bmp"; ".tiff"; ".webp"].
Definition video_exts := [".mp4"; ".avi"; ".mov"; ".wmv"; ".mkv"; ".flv"; ".webm"].
Definition audio_exts := [".mp3"; ".wav"; ".ogg"; ".flac"; ".aac"; ".m4a"].
Definition document_exts := [".pdf"; ".txt"; ".md"; ".rtf"].
Definition code_exts :=
  [".py"; ".js"; ".html"; ".css"; ".java"; ".cpp"; ".c"; ".h"; ".cs"; ".php";
   ".rb"; ".go"; ".rs"; ".ts"].
Definition data_exts := [".csv"; ".json"; ".xml"; ".yaml"; ".yml"; ".sql"; ".db"; ".sqlite"].
Definition archive_exts := [".zip"; ".rar"; ".7z"; ".tar"; ".gz"; ".bz2"].
Definition executable_exts := [".exe"; ".msi"; ".bat"; ".sh"; ".app"; ".dmg"].
Definition word_exts := [".doc"; ".docx"].
Definition excel_exts := [".xls"; ".xlsx"].
Definition powerpoint_exts := [".ppt"; ".pptx"].

(** The extension fallback of [get_file_type]; [None] when the chain of
    [elif]s falls through. *)
Definition ext_type (ext : string) : option string :=
  if mem ext image_exts then Some "image"
  else if mem ext video_exts then Some "video"
  else if mem ext audio_exts then Some "audio"
  else if mem ext document_exts then Some "document"
  else if mem ext code_exts then Some "code"
  else if mem ext data_exts then Some "data"
  else if mem ext archive_exts then Some "archive"
  else if mem ext executable_exts then Some "executable"
  else if mem ext word_exts then Some "document"
  else if mem ext excel_exts then Some "spreadsheet"
  else if mem ext powerpoint_exts then Some "presentation"
  else None.

(** The media-type branch of [get_file_type]; [None] when the chain of
    [elif]s falls through. *)
Definition mime_type_type (mime_type : string) : option string :=
  if startswith mime_type "image/" then Some "image"
  else if startswith mime_type "video/" then Some "video"
  else if startswith mime_type "audio/" then Some "audio"
  else if startswith mime_type "text/" then Some "text"
  else if startswith mime_type "application/pdf" then Some "pdf"
  else if startswith mime_type "application/msword"
       || startswith mime_type "application/vnd.openxmlformats-officedocument.wordprocessingml"
       then Some "document"
  else if startswith mime_type "application/vnd.ms-excel"
       || startswith mime_type "application/vnd.openxmlformats-officedocument.spreadsheetml"
       then Some "spreadsheet"
  else if startswith mime_type "application/vnd.ms-powerpoint"
       || startswith mime_type "application/vnd.openxmlformats-officedocument.presentationml"
       then Some "presentation"
  else None.

Section GetFileType.

(** [mimetypes.guess_type(path)[0]]; an empty media type is falsy like
    [None]. *)
Variable guess_type : string -> option string.

Definition get_file_type (file_path : string) : string :=
  let by_ext :=
    let ext := lower (snd (splitext file_path)) in
    match ext_type ext with
    | Some t => t
    | None => "unknown"
    end in
  match guess_type file_path with
  | Some mime_type =>
      if String.eqb mime_type "" then by_ext
      else match mime_type_type mime_type with
           | Some t => t
           | None => by_ext
           end
  | None => by_ext
  end.

End GetFileType.

(** The closed enumeration of categories of the data model. *)
Definition Category : list string :=
  ["image"; "video"; "audio"; "text"; "code"; "document"; "spreadsheet";
   "presentation"; "data"; "archive"; "executable"; "unknown"].

(** All extensions the fallback table knows. *)
Definition known_exts : list string :=
  (image_exts ++ video_exts ++ audio_exts ++ document_exts ++ code_exts
   ++ data_exts ++ archive_exts ++ executable_exts ++ word_exts ++ excel_exts
   ++ powerpoint_exts)%list.

(** All media-type prefixes the first table knows. *)
Definition known_mime_prefixes : list string :=
  ["image/"; "video/"; "audio/"; "text/"; "application/pdf";
   "application/msword";
   "application/vnd.openxmlformats-officedocument.wordprocessingml";
   "application/vnd.ms-excel";
   "application/vnd.openxmlformats-officedocument.spreadsheetml";
   "application/vnd.ms-powerpoint";
   "application/vnd.openxmlformats-officedocument.presentationml"].

(** An excerpt of the default table of Python's [mimetypes] module, looked
    up by the lower-cased extension. *)
Definition mimetypes_excerpt (path : string) : option string :=
  let ext := lower (snd (splitext path)) in
  if String.eqb ext ".pdf" then Some "application/pdf"
  else if String.eqb ext ".txt" then Some "text/plain"
  else if String.eqb ext ".py" then Some "text/x-python"
  else if String.eqb ext ".html" then Some "text/html"
  else if String.eqb ext ".csv" then Some "text/csv"
  else if String.eqb ext ".jpg" then Some "image/jpeg"
  else if String.eqb ext ".png" then Some "image/png"
  else if String.eqb ext ".mp3" then Some "audio/mpeg"
  else if String.eqb ext ".mp4" then Some "video/mp4"
  else if String.eqb ext ".json" then Some "application/json"
  else if String.eqb ext ".zip" then Some "application/zip"
  else None.

End Classifier.

(** ** The file system and the [os] / [shutil] primitives *)

Module Fs.
Import PyStr OsPath.

Inductive exn : Type :=
| FileNotFoundError
| NotADirectoryError
| IsADirectoryError
| FileExistsError
| SameFileError
| UnboundLocalError.

(** An [{"error": ...}] payload: a message built by the server, or the text
    of a caught exception ([str(e)]). *)
Inductive error : Type :=
| Message (msg : string)
| Raised (e : exn).

#[local] Unset Elimination Schemes.
Inductive node : Type :=
| File (content : string)
| Dir (entries : list (string * node)).
#[local] Set Elimination Schemes.

Definition entries := list (string * node).

Fixpoint assoc (x : string) (es : entries) : option node :=
  match es with
  | [] => None
  | (y, n) :: es' => if String.eqb x y then Some n else assoc x es'
  end.

(** Replace the node bound to [x], or bind [x] at the end. *)
Fixpoint bind (x : string) (new : node) (es : entries) : entries :=
  match es with
  | [] => [(x, new)]
  | (y, n) :: es' =>
      if String.eqb x y then (y, new) :: es' else (y, n) :: bind x new es'
  end.

Fixpoint unbind (x : string) (es : entries) : entries :=
  match es with
  | [] => []
  | (y, n) :: es' =>
      if String.eqb x y then es' else (y, n) :: unbind x es'
  end.

(** The node at a canonical path (a list of entry names from the root). *)
Fixpoint node_at (n : node) (names : list string) : option node :=
  match names with
  | [] => Some n
  | x :: rest =>
      match n with
      | Dir es =>
          match assoc x es with
          | Some c => node_at c rest
          | None => None
          end
      | File _ => None
      end
  end.

(** Put [new] at a canonical path whose parent is a directory; any other
    path leaves the tree as it is. *)
Fixpoint put (n : node) (names : list string) (new : node) : node :=
  match names with
  | [] => new
  | x :: rest =>
      match n with
      | Dir es =>
          match rest, assoc x es with
          | [], _ => Dir (bind x new es)
          | _ :: _, Some c => Dir (bind x (put c rest new) es)
          | _ :: _, None => n
          end
      | File _ => n
      end
  end.

(** Drop the entry at a canonical path. *)
Fixpoint drop (n : node) (names : list string) : node :=
  match names with
  | [] => n
  | x :: rest =>
      match n with
      | Dir es =>
          match rest, assoc x es with
          | [], _ => Dir (unbind x es)
          | _ :: _, Some c => Dir (bind x (drop c rest) es)
          | _ :: _, None => n
          end
      | File _ => n
      end
  end.

(** Path resolution: every component is looked up in a directory; empty
    components and [.] stay, [..] moves to the parent (the root is its own
    parent).  The last component need not exist. *)
Fixpoint canon (fs : node) (cur : list string) (comps : list string)
  : exn + list string :=
  match comps with
  | [] => inr cur
  | c :: comps' =>
      match node_at fs cur with
      | Some (Dir _) =>
          if String.eqb c "" || String.eqb c "." then canon fs cur comps'
          else if String.eqb c ".." then canon fs (removelast cur) comps'
          else canon fs (cur ++ [c])%list comps'
      | Some (File _) => inl NotADirectoryError
      | None => inl FileNotFoundError
      end
  end.

Definition resolve (fs : node) (path : string) : exn + list string :=
  if String.eqb path "" then inl FileNotFoundError
  else canon fs [] (split sep path).

(** [os.stat(path)], as the node found. *)
Definition stat (fs : node) (path : string) : exn + node :=
  match resolve fs path with
  | inl e => inl e
  | inr names =>
      match node_at fs names with
      | Some n => inr n
      | None => inl FileNotFoundError
      end
  end.

Definition isfile (fs : node) (path : string) : bool :=
  match stat fs path with inr (File _) => true | _ => false end.

Definition isdir (fs : node) (path : string) : bool :=
  match stat fs path with inr (Dir _) => true | _ => false end.

Definition exists_ (fs : node) (path : string) : bool :=
  match stat fs path with inr _ => true | inl _ => false end.

(** [st_size]; [dir_size] is what the host reports for a directory. *)
Definition st_size (dir_size : Z) (n : node) : Z :=
  match n with
  | File c => len c
  | Dir _ => dir_size
  end.

Definition getsize (dir_size : Z) (fs : node) (path : string) : exn + Z :=
  match stat fs path with
  | inl e => inl e
  | inr n => inr (st_size dir_size n)
  end.

(** [os.listdir(path)] *)
Definition listdir (fs : node) (path : string) : exn + list string :=
  match stat fs path with
  | inl e => inl e
  | inr (File _) => inl NotADirectoryError
  | inr (Dir es) => inr (map fst es)
  end.

Definition is_dir_node (n : node) : bool :=
  match n with Dir _ => true | File _ => false end.

Definition dirnames (es : entries) : list string :=
  map fst (filter (fun e => is_dir_node (snd e)) es).

Definition filenames (es : entries) : list string :=
  map fst (filter (fun e => negb (is_dir_node (snd e))) es).

(** [os.walk(top)] below a node: one triple per directory, top-down. *)
Fixpoint walk_node (top : string) (n : node)
  : list (string * list string * list string) :=
  match n with
  | File _ => []
  | Dir es =>
      (top, dirnames es, filenames es)
      :: (fix below (l : entries) :=
            match l with
            | [] => []
            | (x, c) :: l' => (walk_node (join top x) c ++ below l')%list
            end) es
  end.

(** [os.walk(top)]: errors of the directory scan are ignored, so a path
    that is not a directory yields nothing. *)
Definition walk (fs : node) (top : string)
  : list (string * list string * list string) :=
  match stat fs top with
  | inr n => walk_node top n
  | inl _ => []
  end.

(** Universal newlines: a text-mode read turns CR LF and CR into LF. *)
Fixpoint universal_newlines (s : string) : string :=
  match s with
  | EmptyString => EmptyString
  | String c s' =>
      if Ascii.eqb c CR then
        String LF
          match s' with
          | String d s'' =>
              if Ascii.eqb d LF then universal_newlines s''
              else universal_newlines s'
          | EmptyString => EmptyString
          end
      else String c (universal_newlines s')
  end.

(** [open(path, 'r').read()] *)
Definition read_text (fs : node) (path : string) : exn + string :=
  match stat fs path with
  | inl e => inl e
  | inr (Dir _) => inl IsADirectoryError
  | inr (File c) => inr (universal_newlines c)
  end.

(** The lines a text file object iterates over, line ends kept. *)
Fixpoint readlines (s : string) : list string :=
  match s with
  | EmptyString => []
  | String c s' =>
      if Ascii.eqb c LF then String c EmptyString :: readlines s'
      else match readlines s' with
           | [] => [String c EmptyString]
           | l :: ls => String c l :: ls
           end
  end.

(** [open(path, 'w' or 'a').write(content)]; on a POSIX host a written
    LF stays an LF. *)
Definition write_text (fs : node) (path : string) (append : bool)
    (content : string) : exn + node :=
  match resolve fs path with
  | inl e => inl e
  | inr names =>
      match node_at fs names with
      | Some (Dir _) => inl IsADirectoryError
      | Some (File old) =>
          inr (put fs names (File (if append then old ++ content else content)))
      | None => inr (put fs names (File content))
      end
  end.

(** [os.remove(path)] *)
Definition remove (fs : node) (path : string) : exn + node :=
  match resolve fs path with
  | inl e => inl e
  | inr names =>
      match node_at fs names with
      | Some (Dir _) => inl IsADirectoryError
      | Some (File _) => inr (drop fs names)
      | None => inl FileNotFoundError
      end
  end.

(** The components of [os.path.abspath(path)]: the lexical normalisation
    of [path] joined to the working directory. *)
Fixpoint normcomps (acc : list string) (comps : list string) : list string :=
  match comps with
  | [] => acc
  | c :: comps' =>
      if String.eqb c "" || String.eqb c "." then normcomps acc comps'
      else if String.eqb c ".." then normcomps (removelast acc) comps'
      else normcomps (acc ++ [c])%list comps'
  end.

Definition abspath (path : string) : list string :=
  normcomps [] (split sep path).

(** [os.path.dirname] of an absolute normalised path. *)
Definition dirname (comps : list string) : list string := removelast comps.

(** [os.makedirs(name, exist_ok=True)] on an absolute normalised path:
    missing directories are created; a regular file on the way is an
    error. *)
Fixpoint makedirs (n : node) (comps : list string) : exn + node :=
  match comps with
  | [] =>
      match n with
      | Dir _ => inr n
      | File _ => inl FileExistsError
      end
  | c :: rest =>
      match n with
      | File _ => inl NotADirectoryError
      | Dir es =>
          match makedirs (match assoc c es with
                          | Some child => child
                          | None => Dir []
                          end) rest with
          | inr child' => inr (Dir (bind c child' es))
          | inl e => inl e
          end
      end
  end.

(** [os.path.samefile], with a failing [stat] read as "not the same". *)
Definition samefile (fs : node) (a b : string) : bool :=
  match resolve fs a, resolve fs b with
  | inr na, inr nb =>
      match node_at fs na with
      | Some _ => if list_eq_dec string_dec na nb then true else false
      | None => false
      end
  | _, _ => false
  end.

(** [shutil.copy2(src, dst)]: the bytes of [src] are written to [dst], or
    into [dst] under the base name of [src] when [dst] is a directory. *)
Definition copy2 (fs : node) (src dst : string) : exn + node :=
  let dst := if isdir fs dst then join dst (basename src) else dst in
  if samefile fs src dst then inl SameFileError
  else
    match stat fs src with
    | inl e => inl e
    | inr (Dir _) => inl IsADirectoryError
    | inr (File c) => write_text fs dst false c
    end.

End Fs.

(** ** The server: helper functions and tools of [fs_server.py] *)

Module Server.
Import PyStr OsPath Classifier Fs.

Record match_record : Type := mkMatch {
  context : string;
  line : Z
}.

(** The keys of a metadata dictionary other than ["error"] and ["match"]
    (time stamps left out). *)
Record file_info : Type := mkInfo {
  path : string;
  name : string;
  size : Z;
  type : string;
  preview : option string;
  line_count : option Z;
  preview_error : option exn
}.

(** The dictionary [get_file_metadata] returns: the error payload or the
    file's keys, and the ["match"] key content search adds to it. *)
Record metadata : Type := mkMetadata {
  info : error + file_info;
  match_ : option match_record
}.

Record read_result : Type := mkRead {
  read_path : string;
  read_name : string;
  content : string;
  read_size : Z
}.

Record write_result : Type := mkWrite {
  write_path : string;
  write_name : string;
  write_size : Z;
  mode : string
}.

Record copy_result : Type := mkCopy {
  source : string;
  destination : string;
  copy_size : Z
}.

Record deleted_file : Type := mkDeleted {
  deleted_path : string;
  deleted_name : string;
  deleted_size : Z
}.

(** The payload of the scan tool; [files] is whatever [scan_directory]
    returned, a list or an error payload. *)
Record scan_payload : Type := mkScan {
  directory : string;
  file_count : Z;
  files : error + list metadata
}.

Record search_payload : Type := mkSearch {
  search_directory : string;
  search_query : string;
  match_count : Z;
  matches : error + list metadata
}.

Definition textual_types : list string := ["text"; "code"; "document"].

Definition searchable_extensions : list string :=
  [".txt"; ".md"; ".csv"; ".json"; ".xml"; ".html"; ".css"; ".js"; ".py";
   ".java"; ".c"; ".cpp"; ".h"; ".cs"; ".php"; ".rb"; ".go"; ".rs"; ".ts"].

(** The extensions [get_file_metadata] previews. *)
Definition preview_extensions : list string :=
  [".txt"; ".md"; ".csv"; ".json"; ".xml"; ".html"; ".css"; ".js"; ".py";
   ".java"; ".c"; ".cpp"; ".h"; ".cs"; ".php"; ".rb"; ".go"; ".rs"; ".ts"].

(** [file_types is None or file_type in file_types] *)
Definition passes (file_types : option (list string)) (file_type : string)
  : bool :=
  match file_types with
  | None => true
  | Some l => mem file_type l
  end.

(** [if max_lines:] is taken for an integer other than zero. *)
Definition truthy (max_lines : option Z) : option Z :=
  match max_lines with
  | Some n => if n =? 0 then None else Some n
  | None => None
  end.

(** The loop [for i, line in enumerate(f)] of [read_text_file]: [i] is the
    loop variable, unbound ([None]) until the first iteration. *)
Fixpoint read_loop (max_lines : Z) (f : list string) (next : Z)
    (i : option Z) (lines : list string) : option Z * list string :=
  match f with
  | [] => (i, lines)
  | l :: f' =>
      if next >=? max_lines then (Some next, lines)
      else read_loop max_lines f' (next + 1) (Some next) (lines ++ [l])%list
  end.

(** The state of the loops of [search_file_contents]; [opened] is the log
    of the paths handed to [open]. *)
Record search_state : Type := mkState {
  results : list metadata;
  count : Z;
  opened : list string
}.

Definition initial : search_state := mkState [] 0 [].

(** The context window and line number of the first occurrence of [query]
    (already lower-cased) in [content]. *)
Definition match_of (content query : string) : match_record :=
  let index := find (lower content) query in
  let start := Z.max 0 (index - 50) in
  let end_ := Z.min (len content) (index + len query + 50) in
  let line_number := PyStr.count (slice_to content index) LF + 1 in
  mkMatch (slice content start end_) line_number.

Section Tools.

Variable guess_type : string -> option string.
Variable dir_size : Z.

Definition get_file_metadata (fs : node) (file_path : string) : metadata :=
  match stat fs file_path with
  | inl e => mkMetadata (inl (Raised e)) None
  | inr n =>
      let file_size := st_size dir_size n in
      let file_type := get_file_type guess_type file_path in
      let plain preview line_count preview_error :=
        mkMetadata
          (inr (mkInfo file_path (basename file_path) file_size file_type
                  preview line_count preview_error)) None in
      if mem file_type textual_types
         && mem (lower (snd (splitext file_path))) preview_extensions
      then
        match read_text fs file_path with
        | inr text =>
            let preview := slice_to text 1000 in
            let preview :=
              if len preview =? 1000 then preview ++ "... (truncated)"
              else preview in
            plain (Some preview)
                  (Some (Z.of_nat (List.length (readlines text)))) None
        | inl e => plain None None (Some e)
        end
      else plain None None None
  end.

(** The body of both loops of [scan_directory], from the path on. *)
Definition scan_step (fs : node) (file_types : option (list string))
    (results : list metadata) (file_path : string) : list metadata :=
  let file_type := get_file_type guess_type file_path in
  if passes file_types file_type
  then (results ++ [get_file_metadata fs file_path])%list
  else results.

Definition scan_directory (fs : node) (directory_path : string)
    (recursive : bool) (file_types : option (list string))
  : error + list metadata :=
  if recursive then
    inr (fold_left
           (fun results '(root, _, files) =>
              fold_left
                (fun results file =>
                   scan_step fs file_types results (join root file))
                files results)
           (walk fs directory_path) [])
  else
    match listdir fs directory_path with
    | inl e => inl (Raised e)
    | inr items =>
        inr (fold_left
               (fun results item =>
                  let item_path := join directory_path item in
                  if isfile fs item_path
                  then scan_step fs file_types results item_path
                  else results)
               items [])
    end.

Definition read_text_file (fs : node) (file_path : string)
    (max_lines : option Z) : error + read_result :=
  if negb (isfile fs file_path)
  then inl (Message ("File not found: " ++ file_path))
  else
    let file_type := get_file_type guess_type file_path in
    if negb (mem file_type textual_types)
    then inl (Message ("Not a text file: " ++ file_path))
    else
      match read_text fs file_path with
      | inl e => inl (Raised e)
      | inr text =>
          let content :=
            match truthy max_lines with
            | Some max_lines =>
                let '(i, lines) :=
                  read_loop max_lines (readlines text) 0 None [] in
                let content := String.concat "" lines in
                match i with
                | None => inl UnboundLocalError
                | Some i =>
                    if i >=? max_lines then
                      inr (content
                           ++ String LF "... (truncated, showing "
                           ++ of_int max_lines ++ " of " ++ of_int (i + 1)
                           ++ "+ lines)")
                    else inr content
                end
            | None => inr text
            end in
          match content with
          | inl e => inl (Raised e)
          | inr content =>
              match getsize dir_size fs file_path with
              | inl e => inl (Raised e)
              | inr sz =>
                  inr (mkRead file_path (basename file_path) content sz)
              end
          end
      end.

Definition write_text_file (fs : node) (file_path content : string)
    (append : bool) : (error + write_result) * node :=
  match write_text fs file_path append content with
  | inl e => (inl (Raised e), fs)
  | inr fs' =>
      match getsize dir_size fs' file_path with
      | inl e => (inl (Raised e), fs')
      | inr sz =>
          (inr (mkWrite file_path (basename file_path) sz
                  (if append then "append" else "write")), fs')
      end
  end.

(** Name search: the loops of [scan_directory] with the test
    [query in file.lower()] in front. *)
Definition search_files (fs : node) (directory_path query : string)
    (recursive : bool) (file_types : option (list string))
  : error + list metadata :=
  let query := lower query in
  if recursive then
    inr (fold_left
           (fun results '(root, _, files) =>
              fold_left
                (fun results file =>
                   if contains query (lower file)
                   then scan_step fs file_types results (join root file)
                   else results)
                files results)
           (walk fs directory_path) [])
  else
    match listdir fs directory_path with
    | inl e => inl (Raised e)
    | inr items =>
        inr (fold_left
               (fun results item =>
                  if contains query (lower item)
                     && isfile fs (join directory_path item)
                  then scan_step fs file_types results
                         (join directory_path item)
                  else results)
               items [])
    end.

(** The body of both loops of [search_file_contents], from the path on;
    [query] is already lower-cased.  A file that cannot be opened is
    skipped. *)
Definition search_step (fs : node) (query : string)
    (file_types : option (list string)) (st : search_state)
    (file_path : string) : search_state :=
  let file_type := get_file_type guess_type file_path in
  let ext := lower (snd (splitext file_path)) in
  if passes file_types file_type
     && (mem file_type textual_types || mem ext searchable_extensions)
  then
    let log := (opened st ++ [file_path])%list in
    match read_text fs file_path with
    | inr content =>
        if contains query (lower content) then
          let metadata := get_file_metadata fs file_path in
          let metadata :=
            mkMetadata (info metadata) (Some (match_of content query)) in
          mkState (results st ++ [metadata])%list (count st + 1) log
        else mkState (results st) (count st) log
    | inl _ => mkState (results st) (count st) log
    end
  else st.

(** [for file in files: if count >= max_results: break; ...] *)
Fixpoint search_inner (fs : node) (query : string)
    (file_types : option (list string)) (max_results : Z) (root : string)
    (files : list string) (st : search_state) : search_state :=
  match files with
  | [] => st
  | file :: files' =>
      if count st >=? max_results then st
      else search_inner fs query file_types max_results root files'
             (search_step fs query file_types st (join root file))
  end.

(** The outer loop over the triples of [os.walk]; the [break] leaves the
    inner loop only. *)
Definition search_outer (fs : node) (query : string)
    (file_types : option (list string)) (max_results : Z)
    (triples : list (string * list string * list string))
    (st : search_state) : search_state :=
  fold_left
    (fun st '(root, _, files) =>
       search_inner fs query file_types max_results root files st)
    triples st.

(** The loop over [os.listdir] of the non-recursive branch. *)
Fixpoint search_flat (fs : node) (query : string)
    (file_types : option (list string)) (max_results : Z)
    (directory_path : string) (items : list string) (st : search_state)
  : search_state :=
  match items with
  | [] => st
  | item :: items' =>
      if count st >=? max_results then st
      else
        let file_path := join directory_path item in
        search_flat fs query file_types max_results directory_path items'
          (if isfile fs file_path
           then search_step fs query file_types st file_path
           else st)
  end.

(** [search_file_contents] together with the log of opened paths. *)
Definition search_file_contents_run (fs : node)
    (directory_path query : string) (recursive : bool)
    (file_types : option (list string)) (max_results : Z)
  : error + search_state :=
  let query := lower query in
  if recursive then
    inr (search_outer fs query file_types max_results
           (walk fs directory_path) initial)
  else
    match listdir fs directory_path with
    | inl e => inl (Raised e)
    | inr items =>
        inr (search_flat fs query file_types max_results directory_path
               items initial)
    end.

Definition search_file_contents (fs : node)
    (directory_path query : string) (recursive : bool)
    (file_types : option (list string)) (max_results : Z)
  : error + list metadata :=
  match search_file_contents_run fs directory_path query recursive
          file_types max_results with
  | inl e => inl e
  | inr st => inr (results st)
  end.

(** [len(results) if isinstance(results, list) else 0] *)
Definition count_of (r : error + list metadata) : Z :=
  match r with
  | inr l => Z.of_nat (List.length l)
  | inl _ => 0
  end.

Definition scan_directory_tool (fs : node) (directory_path : string)
    (recursive : bool) (file_types : option (list string))
  : error + scan_payload :=
  if negb (isdir fs directory_path)
  then inl (Message ("Directory not found: " ++ directory_path))
  else
    let results := scan_directory fs directory_path recursive file_types in
    inr (mkScan directory_path (count_of results) results).

Definition search_files_tool (fs : node) (directory_path query : string)
    (recursive : bool) (file_types : option (list string))
  : error + search_payload :=
  if negb (isdir fs directory_path)
  then inl (Message ("Directory not found: " ++ directory_path))
  else
    let results :=
      search_files fs directory_path query recursive file_types in
    inr (mkSearch directory_path query (count_of results) results).

Definition search_file_contents_tool (fs : node)
    (directory_path query : string) (recursive : bool)
    (file_types : option (list string)) (max_results : Z)
  : error + search_payload :=
  if negb (isdir fs directory_path)
  then inl (Message ("Directory not found: " ++ directory_path))
  else
    let results :=
      search_file_contents fs directory_path query recursive file_types
        max_results in
    inr (mkSearch directory_path query (count_of results) results).

Definition copy_file (fs : node) (source_path destination_path : string)
    (overwrite : bool) : (error + copy_result) * node :=
  if negb (isfile fs source_path)
  then (inl (Message ("Source file not found: " ++ source_path)), fs)
  else if exists_ fs destination_path && negb overwrite
  then (inl (Message ("Destination file already exists: "
                      ++ destination_path)), fs)
  else
    match makedirs fs (dirname (abspath destination_path)) with
    | inl e => (inl (Raised e), fs)
    | inr fs1 =>
        match copy2 fs1 source_path destination_path with
        | inl e => (inl (Raised e), fs1)
        | inr fs2 =>
            match getsize dir_size fs2 destination_path with
            | inl e => (inl (Raised e), fs2)
            | inr sz =>
                (inr (mkCopy source_path destination_path sz), fs2)
            end
        end
    end.

Definition delete_file (fs : node) (file_path : string)
  : (error + deleted_file) * node :=
  if negb (isfile fs file_path)
  then (inl (Message ("File not found: " ++ file_path)), fs)
  else
    match getsize dir_size fs file_path with
    | inl e => (inl (Raised e), fs)
    | inr sz =>
        let file_info := mkDeleted file_path (basename file_path) sz in
        match remove fs file_path with
        | inl e => (inl (Raised e), fs)
        | inr fs' => (inr file_info, fs')
        end
    end.

End Tools.

End Server.

(** ** More primitives: [os.rename], [shutil.move], [os.path.split],
    [os.mkdir] and [os.makedirs] on a path string *)

Module FsMore.
Import PyStr OsPath Fs.

(** [s.rstrip(c)] for a one-character [c] *)
Fixpoint rstrip (c : ascii) (s : string) : string :=
  match s with
  | EmptyString => EmptyString
  | String a s' =>
      match rstrip c s' with
      | EmptyString =>
          if Ascii.eqb a c then EmptyString else String a EmptyString
      | r => String a r
      end
  end.

(** [os.rename(src, dst)] for a source that is a regular file, within one
    file system: an existing regular file at [dst] is replaced, a rename
    onto the same file does nothing.  (Directory sources, which the tools
    rule out with [os.path.isfile], are not modelled.) *)
Definition rename (fs : node) (src dst : string) : exn + node :=
  match resolve fs src with
  | inl e => inl e
  | inr ns =>
      match node_at fs ns with
      | None => inl FileNotFoundError
      | Some (Dir _) => inl IsADirectoryError
      | Some (File c) =>
          match resolve fs dst with
          | inl e => inl e
          | inr nd =>
              if list_eq_dec string_dec ns nd then inr fs
              else
                match node_at fs nd with
                | Some (Dir _) => inl IsADirectoryError
                | _ => inr (put (drop fs ns) nd (File c))
                end
          end
      end
  end.

(** What [shutil.move] raises: an [OSError] of a primitive, or its own
    [Error("Destination path '...' already exists")]. *)
Inductive move_exn : Type :=
| OsError (e : exn)
| DestinationExists (real_dst : string).

(** [os.rename], and when it fails the copy and unlink of the regular-file
    branch of [shutil.move]. *)
Definition rename_or_copy (fs : node) (src real_dst : string)
  : move_exn + node :=
  match rename fs src real_dst with
  | inr fs' => inr fs'
  | inl _ =>
      match copy2 fs src real_dst with
      | inl e => inl (OsError e)
      | inr fs1 =>
          match remove fs1 src with
          | inl e => inl (OsError e)
          | inr fs2 => inr fs2
          end
      end
  end.

(** [shutil.move(src, dst)] for a source that is a regular file. *)
Definition move (fs : node) (src dst : string) : move_exn + node :=
  if isdir fs dst then
    if samefile fs src dst then
      match rename fs src dst with
      | inl e => inl (OsError e)
      | inr fs' => inr fs'
      end
    else
      let real_dst := join dst (basename (rstrip sep src)) in
      if exists_ fs real_dst then inl (DestinationExists real_dst)
      else rename_or_copy fs src real_dst
  else rename_or_copy fs src dst.

(** [c * n] for a one-character string [c] *)
Fixpoint times (c : ascii) (n : nat) : string :=
  match n with
  | O => EmptyString
  | S n' => String c (times c n')
  end.

(** [os.path.split(p)] *)
Definition path_split (p : string) : string * string :=
  let i := rfind p sep + 1 in
  let head := slice_to p i in
  let tail := slice_from p i in
  (if negb (String.eqb head "")
      && negb (String.eqb head (times sep (String.length head)))
   then rstrip sep head
   else head,
   tail).

(** [os.mkdir(path)]: every component before the last is looked up, the
    last one must not exist.  Slashes at the end of [path] do not count,
    as in [mkdir(2)]; a path of slashes only is the root. *)
Definition mkdir (fs : node) (path : string) : exn + node :=
  let p := rstrip sep path in
  match resolve fs (if String.eqb p "" then path else p) with
  | inl e => inl e
  | inr names =>
      match node_at fs names with
      | Some _ => inl FileExistsError
      | None => inr (put fs names (Dir []))
      end
  end.

(** The head and tail [os.makedirs] works with: [path.split(name)], split
    once more when the tail is empty. *)
Definition makedirs_split (name : string) : string * string :=
  let (head, tail) := path_split name in
  if String.eqb tail "" then path_split head else (head, tail).

(** The last statement of [os.makedirs(name, exist_ok=True)]: [mkdir], whose
    error is dropped when [name] is a directory. *)
Definition mkdir_exist_ok (fs : node) (name : string)
  : (exn + unit) * node :=
  match mkdir fs name with
  | inr fs' => (inr tt, fs')
  | inl e => if isdir fs name then (inr tt, fs) else (inl e, fs)
  end.

(** The body of [os.makedirs(name, exist_ok=True)], with [rec] for the
    call of itself on the head.  The tree is returned with the result, as
    directories made before an error stay. *)
Definition makedirs_body (rec : node -> string -> (exn + unit) * node)
    (fs : node) (name : string) : (exn + unit) * node :=
  let (head, tail) := makedirs_split name in
  if negb (String.eqb head "") && negb (String.eqb tail "")
     && negb (exists_ fs head)
  then
    let (r, fs1) := rec fs head in
    match r with
    | inl FileExistsError | inr _ =>
        if String.eqb tail "." then (inr tt, fs1)
        else mkdir_exist_ok fs1 name
    | inl e => (inl e, fs1)
    end
  else mkdir_exist_ok fs name.

(** [os.makedirs(name, exist_ok=True)] on a path string.  The head of a
    recursive call is shorter than the name, so that the length of the
    name bounds the depth. *)
Fixpoint makedirs_depth (depth : nat) (fs : node) (name : string)
  : (exn + unit) * node :=
  match depth with
  | O => makedirs_body (fun fs' _ => (inr tt, fs')) fs name
  | S depth' => makedirs_body (makedirs_depth depth') fs name
  end.

Definition makedirs_str (fs : node) (name : string)
  : (exn + unit) * node :=
  makedirs_depth (String.length name) fs name.

End FsMore.

(** ** More tools of [fs_server.py] *)

Module ServerMore.
Import PyStr OsPath Classifier Fs FsMore Server.

(** An element of ["files"] in the payload of [list_directory]. *)
Record file_entry : Type := mkFileEntry {
  entry_name : string;
  entry_path : string;
  entry_size : Z;
  entry_type : string
}.

(** An element of ["directories"]. *)
Record dir_entry : Type := mkDirEntry {
  dir_name : string;
  dir_path : string
}.

Record listing : Type := mkListing {
  listing_path : string;
  listing_files : list file_entry;
  listing_directories : list dir_entry;
  listing_file_count : Z;
  listing_directory_count : Z
}.

(** The text of a [shutil.move] exception in an error payload. *)
Definition move_error (e : move_exn) : error :=
  match e with
  | OsError e => Raised e
  | DestinationExists real_dst =>
      Message ("Destination path '" ++ real_dst ++ "' already exists")
  end.

(** [create_directory]: the path on success, the exception otherwise; the
    tree is returned as well. *)
Definition create_directory (fs : node) (directory_path : string)
  : (error + string) * node :=
  match makedirs_str fs directory_path with
  | (inl e, fs') => (inl (Raised e), fs')
  | (inr _, fs') => (inr directory_path, fs')
  end.

Section MoreTools.

Variable guess_type : string -> option string.
Variable dir_size : Z.

Definition get_file_metadata_tool (fs : node) (file_path : string)
  : metadata :=
  if negb (isfile fs file_path)
  then mkMetadata (inl (Message ("File not found: " ++ file_path))) None
  else get_file_metadata guess_type dir_size fs file_path.

Definition move_file (fs : node) (source_path destination_path : string)
    (overwrite : bool) : (error + copy_result) * node :=
  if negb (isfile fs source_path)
  then (inl (Message ("Source file not found: " ++ source_path)), fs)
  else if exists_ fs destination_path && negb overwrite
  then (inl (Message ("Destination file already exists: "
                      ++ destination_path)), fs)
  else
    match makedirs fs (dirname (abspath destination_path)) with
    | inl e => (inl (Raised e), fs)
    | inr fs1 =>
        match move fs1 source_path destination_path with
        | inl e => (inl (move_error e), fs1)
        | inr fs2 =>
            match getsize dir_size fs2 destination_path with
            | inl e => (inl (Raised e), fs2)
            | inr sz =>
                (inr (mkCopy source_path destination_path sz), fs2)
            end
        end
    end.

(** The loop of [list_directory] over the items of [os.listdir]. *)
Fixpoint list_loop (fs : node) (directory_path : string)
    (items : list string) (files : list file_entry)
    (directories : list dir_entry)
  : exn + (list file_entry * list dir_entry) :=
  match items with
  | [] => inr (files, directories)
  | item :: items' =>
      let item_path := join directory_path item in
      if isfile fs item_path then
        match getsize dir_size fs item_path with
        | inl e => inl e
        | inr sz =>
            list_loop fs directory_path items'
              (files ++ [mkFileEntry item item_path sz
                           (get_file_type guess_type item_path)])%list
              directories
        end
      else if isdir fs item_path then
        list_loop fs directory_path items' files
          (directories ++ [mkDirEntry item item_path])%list
      else list_loop fs directory_path items' files directories
  end.

Definition list_directory (fs : node) (directory_path : string)
  : error + listing :=
  if negb (isdir fs directory_path)
  then inl (Message ("Directory not found: " ++ directory_path))
  else
    match listdir fs directory_path with
    | inl e => inl (Raised e)
    | inr items =>
        match list_loop fs directory_path items [] [] with
        | inl e => inl (Raised e)
        | inr (files, directories) =>
            inr (mkListing directory_path files directories
                   (Z.of_nat (List.length files))
                   (Z.of_nat (List.length directories)))
        end
    end.

End MoreTools.

End ServerMore.

Import PyStr OsPath Classifier Fs Server.
Import FsMore ServerMore.

(** ** Vocabulary of the properties *)

Definition newline : string := String LF EmptyString.

(** A directory with a text file, a script, a sub-directory and a file of
    unknown type. *)
Definition sample_fs : node :=
  Dir [("a.txt", File "hello world");
       ("b.py", File ("import os" ++ newline ++ "print('world')" ++ newline));
       ("sub", Dir [("empty.txt", File ""); ("report.pdf", File "%PDF-1.4")]);
       ("e.bin", File "world")].

(** The media-type table does not match. *)
Definition mime_miss (mime_type : option string) : Prop :=
  match mime_type with
  | None => True
  | Some m => forall p, In p known_mime_prefixes -> startswith m p = false
  end.

(** The extension table does not match. *)
Definition ext_miss (file_path : string) : Prop :=
  ~ In (lower (snd (splitext file_path))) known_exts.

(** The Directory Walker: the (directory, file name) pairs a scan or a
    search visits, in order. *)
Definition walked (fs : node) (directory_path : string) (recursive : bool)
  : list (string * string) :=
  if recursive then
    flat_map (fun '(root, _, files) => map (pair root) files)
      (walk fs directory_path)
  else
    match listdir fs directory_path with
    | inr items =>
        filter (fun e => isfile fs (join (fst e) (snd e)))
          (map (pair directory_path) items)
    | inl _ => []
    end.

Definition path_of (e : string * string) : string := join (fst e) (snd e).

(** The category of a record; an error payload has none. *)
Definition category (m : metadata) : option string :=
  match info m with
  | inr i => Some (type i)
  | inl _ => None
  end.

(** A usable entry name: not empty, not [.] or [..], without a slash. *)
Definition valid_name (x : string) : bool :=
  negb (String.eqb x "") && negb (String.eqb x ".")
  && negb (String.eqb x "..") && (rfind x sep <? 0).

Fixpoint distinct (l : list string) : bool :=
  match l with
  | [] => true
  | x :: l' => negb (mem x l') && distinct l'
  end.

(** A well-formed tree: in every directory the names are usable and
    pairwise different. *)
Fixpoint wf (n : node) : bool :=
  match n with
  | File _ => true
  | Dir es =>
      forallb valid_name (map fst es) && distinct (map fst es)
      && (fix all (l : entries) : bool :=
            match l with
            | [] => true
            | (_, c) :: l' => wf c && all l'
            end) es
  end.

Definition is_upper (c : ascii) : bool :=
  let n := nat_of_ascii c in (65 <=? n)%nat && (n <=? 90)%nat.

(** Two characters that are equal or the two cases of one letter. *)
Definition same_letter (c d : ascii) : bool :=
  Ascii.eqb c d
  || (is_upper c && (nat_of_ascii d =? nat_of_ascii c + 32)%nat)
  || (is_upper d && (nat_of_ascii c =? nat_of_ascii d + 32)%nat).

(** Two strings that differ in letter case only. *)
Fixpoint case_variant (s t : string) : bool :=
  match s, t with
  | EmptyString, EmptyString => true
  | String c s', String d t' => same_letter c d && case_variant s' t'
  | _, _ => false
  end.

(** What a scan or a name search appends for one selected entry. *)
Definition record_of (guess_type : string -> option string) (dir_size : Z)
    (fs : node) (e : string * string) : metadata :=
  get_file_metadata guess_type dir_size fs (path_of e).

(** The category of the entry passes the filter. *)
Definition type_passes (guess_type : string -> option string)
    (file_types : option (list string)) (e : string * string) : bool :=
  passes file_types (get_file_type guess_type (path_of e)).

(** The name of the entry contains the query, case ignored. *)
Definition name_matches (query : string) (e : string * string) : bool :=
  contains (lower query) (lower (snd e)).

(** No walked file passes the category filter. *)
Definition no_scan_match (guess_type : string -> option string) (fs : node)
    (directory_path : string) (recursive : bool)
    (file_types : option (list string)) : bool :=
  forallb (fun e => negb (type_passes guess_type file_types e))
    (walked fs directory_path recursive).

(** No walked file has [query] in its name and passes the filter. *)
Definition no_search_match (guess_type : string -> option string)
    (fs : node) (directory_path query : string) (recursive : bool)
    (file_types : option (list string)) : bool :=
  forallb
    (fun e =>
       negb (name_matches query e && type_passes guess_type file_types e))
    (walked fs directory_path recursive).

Definition last_opt {A : Type} (l : list A) : option A :=
  match rev l with
  | [] => None
  | x :: _ => Some x
  end.

(** The path recorded in a metadata dictionary, if any. *)
Definition recorded_path (m : metadata) : option string :=
  match info m with
  | inr i => Some (path i)
  | inl _ => None
  end.

(** The path of the last record, if it has one. *)
Definition last_recorded (l : list metadata) : option string :=
  match last_opt l with
  | Some m => recorded_path m
  | None => None
  end.

(** [i] is the index of the first occurrence of [q] in [s]. *)
Definition first_occurrence (q s : string) (i : nat) : Prop :=
  String.substring i (String.length q) s = q
  /\ forall j, (j < i)%nat -> String.substring j (String.length q) s <> q.

(** The text of at most 50 characters before position [i], the [n]
    characters from [i] on, and at most 50 characters after them. *)
Definition window (content : string) (i n : nat) : string :=
  String.substring (i - 50) (Nat.min 50 i) content
  ++ String.substring i n content
  ++ String.substring (i + n) 50 content.

(** One plus the number of line feeds before position [i]. *)
Definition line_of (content : string) (i : nat) : Z :=
  1 + PyStr.count (String.substring 0 i content) LF.

(** Content search as one loop over the walked entries that stops at the
    cap; [query] is already lower-cased. *)
Fixpoint search_visits (guess_type : string -> option string) (dir_size : Z)
    (fs : node) (query : string) (file_types : option (list string))
    (max_results : Z) (visits : list (string * string)) (st : search_state)
  : search_state :=
  match visits with
  | [] => st
  | e :: visits' =>
      if count st >=? max_results then st
      else search_visits guess_type dir_size fs query file_types max_results
             visits'
             (search_step guess_type dir_size fs query file_types st
                (path_of e))
  end.

(** Not a directory: absent or a regular file. *)
Definition not_dir (o : option node) : Prop :=
  match o with
  | Some (Dir _) => False
  | _ => True
  end.

(** A text without carriage returns. *)
Fixpoint no_cr (s : string) : bool :=
  match s with
  | EmptyString => true
  | String c s' => negb (Ascii.eqb c CR) && no_cr s'
  end.

(** Two lookups agree: both absent, both a directory, or both a regular
    file with the same text. *)
Definition same_kind (a b : option node) : Prop :=
  match a, b with
  | None, None => True
  | Some (File x), Some (File y) => x = y
  | Some (Dir _), Some (Dir _) => True
  | _, _ => False
  end.

(** The entry [list_directory] reports for a regular file of a directory. *)
Definition file_entry_of (guess_type : string -> option string)
    (dir_size : Z) (directory_path : string) (e : string * node)
  : file_entry :=
  mkFileEntry (fst e) (join directory_path (fst e))
    (st_size dir_size (snd e))
    (get_file_type guess_type (join directory_path (fst e))).

(** The entry it reports for a sub-directory. *)
Definition dir_entry_of (directory_path : string) (e : string * node)
  : dir_entry :=
  mkDirEntry (fst e) (join directory_path (fst e)).

(** Every regular file of [fs] is one of [fs'] with the same text, and
    every directory of [fs] is a directory of [fs']. *)
Definition grows (fs fs' : node) : Prop :=
  (forall q t, node_at fs q = Some (File t) -> node_at fs' q = Some (File t))
  /\ (forall q es, node_at fs q = Some (Dir es) ->
        exists es', node_at fs' q = Some (Dir es')).

(** ** Properties *)

Lemma mem_In x l : mem x l = true <-> In x l.
Proof.
  unfold mem. rewrite existsb_exists. split.
  - intros [y [Hy Heq]]. apply String.eqb_eq in Heq. now subst.
  - intros H. exists x. split; [assumption | apply String.eqb_refl].
Qed.

Lemma mem_false_not_In x l : mem x l = false <-> ~ In x l.
Proof.
  rewrite <- mem_In. destruct (mem x l); split; congruence.
Qed.

Lemma ext_type_in_Category ext t :
  ext_type ext = Some t -> In t Category.
Proof.
  unfold ext_type.
  repeat match goal with
         | |- context [if ?b then _ else _] => destruct b
         end;
    intros H; inversion H; subst; simpl; tauto.
Qed.

Lemma mime_type_type_in_Category m t :
  mime_type_type m = Some t -> In t ("pdf" :: Category).
Proof.
  unfold mime_type_type.
  repeat match goal with
         | |- context [if ?b then _ else _] => destruct b
         end;
    intros H; inversion H; subst; simpl; tauto.
Qed.

Lemma ext_type_miss ext :
  ~ In ext known_exts -> ext_type ext = None.
Proof.
  intros H. unfold known_exts in H.
  repeat rewrite in_app_iff in H.
  unfold ext_type.
  repeat match goal with
         | |- context [if mem ext ?l then _ else _] =>
             destruct (mem ext l) eqn:?;
             [ exfalso; apply H; rewrite <- !mem_In; tauto | ]
         end.
  reflexivity.
Qed.

Lemma mime_type_type_miss m :
  (forall p, In p known_mime_prefixes -> startswith m p = false) ->
  mime_type_type m = None.
Proof.
  intros H. unfold mime_type_type.
  repeat rewrite H by (simpl; tauto).
  reflexivity.
Qed.

(** C1, as the code has it: the classifier returns one of the twelve
    categories of the data model or the thirteenth value ["pdf"] (the
    branch of the [application/pdf] media type), and it returns
    ["unknown"] when neither the media-type table nor the extension table
    matches. *)
Theorem get_file_type_closed (guess_type : string -> option string)
    (file_path : string) :
  In (get_file_type guess_type file_path) ("pdf" :: Category)
  /\ (mime_miss (guess_type file_path) -> ext_miss file_path ->
      get_file_type guess_type file_path = "unknown").
Proof.
  split.
  - assert (Hext : In (match ext_type (lower (snd (splitext file_path))) with
                       | Some t => t
                       | None => "unknown"
                       end) ("pdf" :: Category)).
    { destruct (ext_type _) eqn:E.
      - right. now apply ext_type_in_Category in E.
      - simpl; tauto. }
    unfold get_file_type.
    destruct (guess_type file_path) as [m|]; [|exact Hext].
    destruct (String.eqb m ""); [exact Hext|].
    destruct (mime_type_type m) eqn:E; [|exact Hext].
    now apply mime_type_type_in_Category in E.
  - intros Hm He. unfold get_file_type.
    rewrite (ext_type_miss _ He).
    destruct (guess_type file_path) as [m|]; [|reflexivity].
    simpl in Hm. rewrite (mime_type_type_miss _ Hm).
    now destruct (String.eqb m "").
Qed.

Lemma get_file_type_closed_witness :
  get_file_type mimetypes_excerpt "notes.xyz" = "unknown".
Proof.
  apply (get_file_type_closed mimetypes_excerpt "notes.xyz").
  - exact I.
  - unfold ext_miss. rewrite <- mem_false_not_In. reflexivity.
Defined.

(** C1, as stated, fails: a path with the [application/pdf] media type is
    classified ["pdf"], which is not in the enumeration. *)
Lemma get_file_type_pdf_outside_Category :
  get_file_type mimetypes_excerpt "report.pdf" = "pdf"
  /\ ~ In (get_file_type mimetypes_excerpt "report.pdf") Category.
Proof.
  split; [reflexivity|].
  rewrite <- mem_false_not_In. reflexivity.
Qed.

(** ** Files and directories *)

Lemma isdir_stat fs p :
  isdir fs p = true -> exists es, stat fs p = inr (Dir es).
Proof.
  unfold isdir. destruct (stat fs p) as [e|[c|es]]; try discriminate.
  intros _. now exists es.
Qed.

Lemma isfile_stat fs p :
  isfile fs p = true -> exists c, stat fs p = inr (File c).
Proof.
  unfold isfile. destruct (stat fs p) as [e|[c|es]]; try discriminate.
  intros _. now exists c.
Qed.

Lemma isdir_not_isfile fs p : isdir fs p = true -> isfile fs p = false.
Proof.
  intros H. destruct (isdir_stat _ _ H) as [es Hs].
  unfold isfile. now rewrite Hs.
Qed.

(** C10: [delete_file] on a path that is a directory answers
    "File not found" and leaves the file system as it was. *)
Theorem delete_file_directory (dir_size : Z) (fs : node) (file_path : string) :
  isdir fs file_path = true ->
  delete_file dir_size fs file_path
  = (inl (Message ("File not found: " ++ file_path)), fs).
Proof.
  intros H. unfold delete_file.
  now rewrite (isdir_not_isfile _ _ H).
Qed.

Lemma delete_file_directory_witness :
  delete_file 4096 sample_fs "/sub"
  = (inl (Message "File not found: /sub"), sample_fs).
Proof.
  apply (delete_file_directory 4096 sample_fs "/sub").
  reflexivity.
Defined.

(** ** Reading *)

(** C9: on an existing empty file of a textual category a positive
    [max_lines] makes [read_text_file] return an error payload, the text
    of the exception raised when the unbound loop variable is read. *)
Theorem read_text_file_empty_max_lines
    (guess_type : string -> option string) (dir_size : Z) (fs : node)
    (file_path : string) (max_lines : Z) :
  stat fs file_path = inr (File "") ->
  mem (get_file_type guess_type file_path) textual_types = true ->
  0 < max_lines ->
  read_text_file guess_type dir_size fs file_path (Some max_lines)
  = inl (Raised UnboundLocalError).
Proof.
  intros Hs Ht Hm. unfold read_text_file, isfile, read_text.
  rewrite Hs, Ht. simpl.
  destruct (Z.eqb_spec max_lines 0) as [->|_]; [lia|].
  reflexivity.
Qed.

Lemma read_text_file_empty_max_lines_witness :
  read_text_file mimetypes_excerpt 4096 sample_fs "/sub/empty.txt" (Some 5)
  = inl (Raised UnboundLocalError).
Proof.
  apply (read_text_file_empty_max_lines mimetypes_excerpt 4096 sample_fs
           "/sub/empty.txt" 5).
  - reflexivity.
  - reflexivity.
  - lia.
Defined.

(** ** Letter case *)

Lemma lower_char_same_letter c d :
  same_letter c d = true -> lower_char c = lower_char d.
Proof.
  unfold same_letter, is_upper, lower_char.
  rewrite !orb_true_iff, !andb_true_iff.
  intros [[H | [[H1 H2] H3]] | [[H1 H2] H3]].
  - apply Ascii.eqb_eq in H. now subst.
  - apply Nat.leb_le in H1, H2. apply Nat.eqb_eq in H3.
    rewrite H3.
    replace (65 <=? nat_of_ascii c)%nat with true
      by (symmetry; now apply Nat.leb_le).
    replace (nat_of_ascii c <=? 90)%nat with true
      by (symmetry; now apply Nat.leb_le).
    replace (nat_of_ascii c + 32 <=? 90)%nat with false
      by (symmetry; apply Nat.leb_gt; lia).
    rewrite andb_false_r. simpl.
    rewrite <- H3. now rewrite ascii_nat_embedding.
  - apply Nat.leb_le in H1, H2. apply Nat.eqb_eq in H3.
    rewrite H3.
    replace (65 <=? nat_of_ascii d)%nat with true
      by (symmetry; now apply Nat.leb_le).
    replace (nat_of_ascii d <=? 90)%nat with true
      by (symmetry; now apply Nat.leb_le).
    replace (nat_of_ascii d + 32 <=? 90)%nat with false
      by (symmetry; apply Nat.leb_gt; lia).
    rewrite andb_false_r. simpl.
    rewrite <- H3. now rewrite ascii_nat_embedding.
Qed.

Lemma lower_case_variant s : forall t,
  case_variant s t = true -> lower s = lower t.
Proof.
  induction s as [|c s IH]; intros [|d t]; simpl; try discriminate.
  - reflexivity.
  - rewrite andb_true_iff. intros [Hc Hs].
    now rewrite (lower_char_same_letter _ _ Hc), (IH _ Hs).
Qed.

(** ** Loops that append *)

Lemma fold_left_ext {A B : Type} (f g : A -> B -> A) (l : list B) :
  (forall a x, f a x = g a x) ->
  forall a, fold_left f l a = fold_left g l a.
Proof.
  intros H. induction l as [|x l IH]; intros a; simpl.
  - reflexivity.
  - now rewrite H, IH.
Qed.

Lemma fold_left_append {A B : Type} (h : B -> list A) (l : list B) :
  forall acc,
    fold_left (fun acc x => (acc ++ h x)%list) l acc
    = (acc ++ flat_map h l)%list.
Proof.
  induction l as [|x l IH]; intros acc; simpl.
  - now rewrite app_nil_r.
  - now rewrite IH, app_assoc.
Qed.

Lemma flat_map_select {A B : Type} (c : B -> bool) (f : B -> A)
    (l : list B) :
  flat_map (fun x => if c x then [f x] else []) l = map f (filter c l).
Proof.
  induction l as [|x l IH]; simpl.
  - reflexivity.
  - destruct (c x); simpl; now rewrite IH.
Qed.

Lemma flat_map_nested {A B C : Type} (k : C -> list B) (h : B -> list A)
    (l : list C) :
  flat_map (fun x => flat_map h (k x)) l = flat_map h (flat_map k l).
Proof.
  induction l as [|x l IH]; simpl.
  - reflexivity.
  - now rewrite IH, flat_map_app.
Qed.

Lemma flat_map_map {A B C : Type} (f : C -> B) (h : B -> list A)
    (l : list C) :
  flat_map h (map f l) = flat_map (fun x => h (f x)) l.
Proof.
  induction l as [|x l IH]; simpl.
  - reflexivity.
  - now rewrite IH.
Qed.

Lemma filter_filter {A : Type} (c d : A -> bool) (l : list A) :
  filter c (filter d l) = filter (fun x => d x && c x) l.
Proof.
  induction l as [|x l IH]; simpl.
  - reflexivity.
  - destruct (d x); simpl; [destruct (c x)|]; now rewrite IH.
Qed.

Lemma filter_map_comm {A B : Type} (c : A -> bool) (f : B -> A)
    (l : list B) :
  filter c (map f l) = map f (filter (fun x => c (f x)) l).
Proof.
  induction l as [|x l IH]; simpl.
  - reflexivity.
  - destruct (c (f x)); simpl; now rewrite IH.
Qed.

Lemma isdir_listdir fs p :
  isdir fs p = true -> exists items, listdir fs p = inr items.
Proof.
  intros H. destruct (isdir_stat _ _ H) as [es Hs].
  unfold listdir. rewrite Hs. now exists (map fst es).
Qed.

Section Scans.

Variable guess_type : string -> option string.
Variable dir_size : Z.
Variable fs : node.

Lemma scan_step_append file_types results file_path :
  scan_step guess_type dir_size fs file_types results file_path
  = (results
     ++ (if passes file_types (get_file_type guess_type file_path)
         then [get_file_metadata guess_type dir_size fs file_path]
         else []))%list.
Proof.
  unfold scan_step.
  destruct (passes _ _); [reflexivity | now rewrite app_nil_r].
Qed.

(** The loops of [scan_directory] select, in walk order, the entries whose
    category passes the filter. *)
Lemma scan_directory_walked directory_path recursive file_types :
  isdir fs directory_path = true ->
  scan_directory guess_type dir_size fs directory_path recursive file_types
  = inr (map (record_of guess_type dir_size fs)
           (filter (type_passes guess_type file_types)
              (walked fs directory_path recursive))).
Proof.
  intros Hd. unfold scan_directory, walked.
  destruct recursive.
  - f_equal.
    rewrite (fold_left_ext _
               (fun acc t =>
                  (acc ++ flat_map
                     (fun e => if type_passes guess_type file_types e
                               then [record_of guess_type dir_size fs e] else [])
                     ((fun '(root, _, files) => map (pair root) files) t))%list)).
    + rewrite fold_left_append. simpl.
      now rewrite flat_map_nested, flat_map_select.
    + intros a [[root dirs] fls].
      rewrite (fold_left_ext _
                 (fun acc file =>
                    (acc ++ (fun file =>
                               if type_passes guess_type file_types (root, file)
                               then [record_of guess_type dir_size fs (root, file)] else []) file)%list)).
      * rewrite fold_left_append. f_equal.
        now rewrite flat_map_map.
      * intros acc file. now rewrite scan_step_append.
  - destruct (isdir_listdir _ _ Hd) as [items Hl]. rewrite Hl. f_equal.
    rewrite (fold_left_ext _
               (fun acc item =>
                  (acc ++ (fun item =>
                             if isfile fs (join directory_path item)
                                && type_passes guess_type file_types
                                     (directory_path, item)
                             then [record_of guess_type dir_size fs (directory_path, item)]
                             else []) item)%list)).
    + rewrite fold_left_append. simpl.
      rewrite filter_filter.
      rewrite <- (flat_map_select _ (record_of guess_type dir_size fs)).
      now rewrite flat_map_map.
    + intros acc item. simpl.
      destruct (isfile fs (join directory_path item)); simpl.
      * now rewrite scan_step_append.
      * now rewrite app_nil_r.
Qed.

(** The loops of [search_files] select, in walk order, the entries whose
    name contains the query, case ignored, and whose category passes the
    filter. *)
Lemma search_files_walked directory_path query recursive file_types :
  isdir fs directory_path = true ->
  search_files guess_type dir_size fs directory_path query recursive
    file_types
  = inr (map (record_of guess_type dir_size fs)
           (filter (fun e => name_matches query e && type_passes guess_type file_types e)
              (walked fs directory_path recursive))).
Proof.
  intros Hd. unfold search_files, walked.
  destruct recursive.
  - f_equal.
    rewrite (fold_left_ext _
               (fun acc t =>
                  (acc ++ flat_map
                     (fun e => if name_matches query e
                                  && type_passes guess_type file_types e
                               then [record_of guess_type dir_size fs e] else [])
                     ((fun '(root, _, files) => map (pair root) files) t))%list)).
    + rewrite fold_left_append. simpl.
      now rewrite flat_map_nested, flat_map_select.
    + intros a [[root dirs] fls].
      rewrite (fold_left_ext _
                 (fun acc file =>
                    (acc ++ (fun file =>
                               if name_matches query (root, file)
                                  && type_passes guess_type file_types (root, file)
                               then [record_of guess_type dir_size fs (root, file)] else []) file)%list)).
      * rewrite fold_left_append. f_equal.
        now rewrite flat_map_map.
      * intros acc file. unfold name_matches. simpl.
        destruct (contains (lower query) (lower file)); simpl.
        -- now rewrite scan_step_append.
        -- now rewrite app_nil_r.
  - destruct (isdir_listdir _ _ Hd) as [items Hl]. rewrite Hl. f_equal.
    rewrite (fold_left_ext _
               (fun acc item =>
                  (acc ++ (fun item =>
                             if isfile fs (join directory_path item)
                                && (name_matches query (directory_path, item)
                                    && type_passes guess_type file_types
                                         (directory_path, item))
                             then [record_of guess_type dir_size fs (directory_path, item)]
                             else []) item)%list)).
    + rewrite fold_left_append. simpl.
      rewrite filter_filter.
      rewrite <- (flat_map_select _ (record_of guess_type dir_size fs)).
      now rewrite flat_map_map.
    + intros acc item. unfold name_matches. simpl.
      destruct (contains (lower query) (lower item)); simpl.
      * destruct (isfile fs (join directory_path item)); simpl.
        -- now rewrite scan_step_append.
        -- now rewrite app_nil_r.
      * rewrite andb_false_r. now rewrite app_nil_r.
Qed.

End Scans.

(** ** Name search *)

(** C7: name search selects, in walk order, the files whose base name
    contains the query as a substring, letter case ignored on both sides;
    so two queries that differ in letter case only return the same
    files. *)
Theorem search_files_case_insensitive
    (guess_type : string -> option string) (dir_size : Z) (fs : node)
    (directory_path query query' : string) (recursive : bool)
    (file_types : option (list string)) :
  (case_variant query query' = true ->
   search_files guess_type dir_size fs directory_path query recursive
     file_types
   = search_files guess_type dir_size fs directory_path query' recursive
       file_types)
  /\ (isdir fs directory_path = true ->
      search_files guess_type dir_size fs directory_path query recursive
        file_types
      = inr (map (record_of guess_type dir_size fs)
               (filter
                  (fun e =>
                     name_matches query e
                     && type_passes guess_type file_types e)
                  (walked fs directory_path recursive)))).
Proof.
  split.
  - intros H. unfold search_files.
    now rewrite (lower_case_variant _ _ H).
  - apply search_files_walked.
Qed.

Lemma search_files_case_insensitive_witness :
  search_files mimetypes_excerpt 4096 sample_fs "/" "TXT" true None
  = search_files mimetypes_excerpt 4096 sample_fs "/" "txt" true None
  /\ search_files mimetypes_excerpt 4096 sample_fs "/" "TXT" true None
     = inr (map (record_of mimetypes_excerpt 4096 sample_fs)
              (filter
                 (fun e =>
                    name_matches "TXT" e
                    && type_passes mimetypes_excerpt None e)
                 (walked sample_fs "/" true))).
Proof.
  split.
  - apply (search_files_case_insensitive mimetypes_excerpt 4096 sample_fs
             "/" "TXT" "txt" true None).
    reflexivity.
  - apply (search_files_case_insensitive mimetypes_excerpt 4096 sample_fs
             "/" "TXT" "txt" true None).
    reflexivity.
Defined.

Lemma forallb_negb_filter {A : Type} (c : A -> bool) (l : list A) :
  forallb (fun x => negb (c x)) l = true -> filter c l = [].
Proof.
  induction l as [|x l IH]; simpl.
  - reflexivity.
  - rewrite andb_true_iff. intros [Hx Hl].
    destruct (c x); [discriminate | now apply IH].
Qed.

(** C8: the scan tool and the name-search tool answer "Directory not
    found" when the root is not a directory, and an empty sequence, not an
    error, when the root is a directory in which no file matches. *)
Theorem scan_and_search_roots
    (guess_type : string -> option string) (dir_size : Z) (fs : node)
    (directory_path query : string) (recursive : bool)
    (file_types : option (list string)) :
  (isdir fs directory_path = false ->
   scan_directory_tool guess_type dir_size fs directory_path recursive
     file_types
   = inl (Message ("Directory not found: " ++ directory_path))
   /\ search_files_tool guess_type dir_size fs directory_path query
        recursive file_types
      = inl (Message ("Directory not found: " ++ directory_path)))
  /\ (isdir fs directory_path = true ->
      no_scan_match guess_type fs directory_path recursive file_types
      = true ->
      scan_directory_tool guess_type dir_size fs directory_path recursive
        file_types
      = inr (mkScan directory_path 0 (inr [])))
  /\ (isdir fs directory_path = true ->
      no_search_match guess_type fs directory_path query recursive
        file_types = true ->
      search_files_tool guess_type dir_size fs directory_path query
        recursive file_types
      = inr (mkSearch directory_path query 0 (inr []))).
Proof.
  split; [|split].
  - intros Hd. split.
    + unfold scan_directory_tool. now rewrite Hd.
    + unfold search_files_tool. now rewrite Hd.
  - intros Hd Hn. unfold scan_directory_tool. rewrite Hd. simpl.
    rewrite (scan_directory_walked _ _ _ _ _ _ Hd).
    unfold no_scan_match in Hn.
    now rewrite (forallb_negb_filter _ _ Hn).
  - intros Hd Hn. unfold search_files_tool. rewrite Hd. simpl.
    rewrite (search_files_walked _ _ _ _ _ _ _ Hd).
    unfold no_search_match in Hn.
    now rewrite (forallb_negb_filter _ _ Hn).
Qed.

Lemma scan_and_search_roots_witness :
  (scan_directory_tool mimetypes_excerpt 4096 sample_fs "/a.txt" true None
   = inl (Message "Directory not found: /a.txt")
   /\ search_files_tool mimetypes_excerpt 4096 sample_fs "/a.txt" "a" true
        None
      = inl (Message "Directory not found: /a.txt"))
  /\ scan_directory_tool mimetypes_excerpt 4096 sample_fs "/sub" true
       (Some ["image"])
     = inr (mkScan "/sub" 0 (inr []))
  /\ search_files_tool mimetypes_excerpt 4096 sample_fs "/sub" "zzz" false
       None
     = inr (mkSearch "/sub" "zzz" 0 (inr [])).
Proof.
  split; [|split].
  - apply (scan_and_search_roots mimetypes_excerpt 4096 sample_fs "/a.txt"
             "a" true None).
    reflexivity.
  - apply (scan_and_search_roots mimetypes_excerpt 4096 sample_fs "/sub"
             "zzz" true (Some ["image"])); reflexivity.
  - apply (scan_and_search_roots mimetypes_excerpt 4096 sample_fs "/sub"
             "zzz" false None); reflexivity.
Defined.

(** ** Path resolution along a walk *)

Lemma split_not_nil c s : split c s <> [].
Proof.
  destruct s as [|a s]; simpl; [discriminate|].
  destruct (Ascii.eqb a c); [discriminate|].
  destruct (split c s); discriminate.
Qed.

Lemma split_app_sep c s t :
  split c (s ++ String c t) = (split c s ++ split c t)%list.
Proof.
  induction s as [|a s IH]; simpl.
  - now rewrite Ascii.eqb_refl.
  - destruct (Ascii.eqb a c).
    + now rewrite IH.
    + rewrite IH.
      destruct (split c s) as [|w ws] eqn:E; [|reflexivity].
      now apply split_not_nil in E.
Qed.

Lemma rfind_from_range c s : forall i,
  0 <= i -> rfind_from i c s = -1 \/ i <= rfind_from i c s.
Proof.
  induction s as [|a s IH]; intros i Hi; simpl.
  - now left.
  - destruct (IH (i + 1) ltac:(lia)) as [H|H].
    + rewrite H. simpl. destruct (Ascii.eqb a c); [right; lia | now left].
    + destruct (Z.leb_spec 0 (rfind_from (i + 1) c s)); [right; lia | lia].
Qed.

Lemma split_without_sep c s : forall i,
  0 <= i -> rfind_from i c s < 0 -> split c s = [s].
Proof.
  induction s as [|a s IH]; intros i Hi; simpl.
  - reflexivity.
  - destruct (Z.leb_spec 0 (rfind_from (i + 1) c s)) as [H|H]; [lia|].
    destruct (Ascii.eqb a c); [lia|].
    intros _. now rewrite (IH (i + 1) ltac:(lia) H).
Qed.

Lemma startswith_without_sep s :
  rfind s sep < 0 -> startswith s "/" = false.
Proof.
  unfold rfind, startswith. destruct s as [|a s]; [reflexivity|].
  cbn [rfind_from]. intros H.
  change (prefix "/" (String a s))
    with (if ascii_dec "/" a then prefix "" s else false).
  destruct (ascii_dec "/"%char a) as [<-|_]; [|reflexivity].
  exfalso. revert H.
  match goal with
  | |- context [0 <=? ?r] => destruct (Z.leb_spec 0 r)
  end; [lia|].
  change (Ascii.eqb "/" sep) with true. cbv iota. lia.
Qed.

Lemma endswith_char_app s c :
  endswith_char s c = true -> exists t, s = t ++ String c "".
Proof.
  induction s as [|a s IH]; simpl; [discriminate|].
  destruct s as [|b s'].
  - intros H. apply Ascii.eqb_eq in H. subst. now exists "".
  - intros H. destruct (IH H) as [t Ht]. exists (String a t).
    simpl. now rewrite <- Ht.
Qed.

Lemma append_assoc (s t u : string) : (s ++ t) ++ u = s ++ (t ++ u).
Proof.
  induction s as [|a s IH]; simpl; [reflexivity | now rewrite IH].
Qed.

Lemma canon_app fs cs1 : forall cur cs2,
  canon fs cur (cs1 ++ cs2)
  = match canon fs cur cs1 with
    | inr cur' => canon fs cur' cs2
    | inl e => inl e
    end.
Proof.
  induction cs1 as [|c cs1 IH]; intros cur cs2; simpl.
  - reflexivity.
  - destruct (node_at fs cur) as [[?|?]|]; try reflexivity.
    destruct (_ || _); [apply IH|].
    destruct (String.eqb c ".."); apply IH.
Qed.

Lemma canon_stay fs cur :
  canon fs cur [""] = inr cur \/ exists e, canon fs cur [""] = inl e.
Proof.
  simpl. destruct (node_at fs cur) as [[?|?]|]; eauto.
Qed.

Lemma canon_name fs cur es x :
  node_at fs cur = Some (Dir es) -> valid_name x = true ->
  canon fs cur [x] = inr (cur ++ [x])%list.
Proof.
  intros Hn Hv. unfold valid_name in Hv.
  rewrite !andb_true_iff, !negb_true_iff in Hv.
  destruct Hv as [[[H1 H2] H3] _].
  simpl. now rewrite Hn, H1, H2, H3.
Qed.

Lemma resolve_join fs top names es x :
  resolve fs top = inr names ->
  node_at fs names = Some (Dir es) ->
  valid_name x = true ->
  resolve fs (join top x) = inr (names ++ [x])%list.
Proof.
  unfold resolve. intros Hr Hn Hv.
  assert (Hsep : rfind x sep < 0).
  { unfold valid_name in Hv. rewrite !andb_true_iff in Hv.
    now apply Z.ltb_lt. }
  assert (Hx : x <> "").
  { unfold valid_name in Hv. rewrite !andb_true_iff, !negb_true_iff in Hv.
    destruct Hv as [[[H1 _] _] _]. now apply String.eqb_neq in H1. }
  destruct (String.eqb_spec top "") as [|Htop]; [discriminate|].
  unfold join. rewrite (startswith_without_sep _ Hsep).
  destruct (endswith_char top sep) eqn:He.
  - destruct (endswith_char_app _ _ He) as [t Ht]. subst top.
    rewrite orb_true_r, append_assoc.
    change (String sep "" ++ x) with (String sep x).
    rewrite split_app_sep in Hr.
    change (split sep "") with [""] in Hr.
    rewrite canon_app in Hr.
    destruct (String.eqb_spec (t ++ String sep x) "") as [E|_].
    { destruct t; discriminate. }
    rewrite split_app_sep, canon_app.
    rewrite (split_without_sep _ _ 0 ltac:(lia) Hsep).
    destruct (canon fs [] (split sep t)) as [e|cur]; [discriminate|].
    destruct (canon_stay fs cur) as [E|[e E]];
      rewrite E in Hr; [|discriminate].
    injection Hr as ->.
    now apply (canon_name _ _ es).
  - rewrite orb_false_r.
    destruct (String.eqb_spec top "") as [E|_]; [now elim Htop|].
    change ("/" ++ x) with (String sep x).
    destruct (String.eqb_spec (top ++ String sep x) "") as [E|_].
    { destruct top; [now elim Htop | discriminate]. }
    rewrite split_app_sep, canon_app, Hr.
    rewrite (split_without_sep _ _ 0 ltac:(lia) Hsep).
    now apply (canon_name _ _ es).
Qed.

Lemma node_at_app n names : forall rest,
  node_at n (names ++ rest)
  = match node_at n names with
    | Some m => node_at m rest
    | None => None
    end.
Proof.
  revert n. induction names as [|x names IH]; intros n rest; simpl.
  - reflexivity.
  - destruct n as [c|es]; [reflexivity|].
    destruct (assoc x es); [apply IH | reflexivity].
Qed.

Lemma assoc_distinct x c es :
  distinct (map fst es) = true -> In (x, c) es -> assoc x es = Some c.
Proof.
  induction es as [|[y n] es IH]; simpl; [contradiction|].
  rewrite andb_true_iff, negb_true_iff. intros [Hy Hd] [H|H].
  - injection H as -> ->. now rewrite String.eqb_refl.
  - destruct (String.eqb_spec x y) as [->|_].
    + apply mem_false_not_In in Hy. elim Hy.
      apply in_map_iff. now exists (y, c).
    + now apply IH.
Qed.

Lemma wf_Dir es :
  wf (Dir es) = true ->
  forallb valid_name (map fst es) = true
  /\ distinct (map fst es) = true
  /\ forall x c, In (x, c) es -> wf c = true.
Proof.
  simpl. rewrite !andb_true_iff. intros [[Hv Hd] Ha].
  repeat split; try assumption.
  induction es as [|[y n] es IH]; simpl; [contradiction|].
  rewrite andb_true_iff in Ha. destruct Ha as [Hn Ha].
  simpl in Hv, Hd. rewrite andb_true_iff in Hv, Hd.
  intros x c [H|H].
  - now injection H as -> ->.
  - apply (IH (proj2 Hv) (proj2 Hd) Ha x c H).
Qed.

Lemma assoc_In x c es : assoc x es = Some c -> In (x, c) es.
Proof.
  induction es as [|[y n] es IH]; simpl; [discriminate|].
  destruct (String.eqb_spec x y) as [->|_].
  - intros H. injection H as ->. now left.
  - intros H. right. now apply IH.
Qed.

Lemma wf_node_at names : forall n m,
  wf n = true -> node_at n names = Some m -> wf m = true.
Proof.
  induction names as [|x names IH]; intros n m Hw; simpl.
  - intros H. now injection H as <-.
  - destruct n as [c|es]; [discriminate|].
    destruct (assoc x es) as [c|] eqn:E; [|discriminate].
    apply IH. apply wf_Dir in Hw. destruct Hw as [_ [_ Hw]].
    apply (Hw x c). now apply assoc_In.
Qed.

Lemma node_ind' (P : node -> Prop) :
  (forall c, P (File c)) ->
  (forall es, (forall x c, In (x, c) es -> P c) -> P (Dir es)) ->
  forall n, P n.
Proof.
  intros HF HD.
  fix IH 1. intros [c|es].
  - apply HF.
  - apply HD. induction es as [|[y n] es IHes]; simpl.
    + contradiction.
    + intros x c [H|H].
      * injection H as _ <-. apply IH.
      * apply (IHes x c H).
Qed.

Lemma In_filenames f es :
  In f (filenames es) -> exists c, In (f, File c) es.
Proof.
  unfold filenames. rewrite in_map_iff.
  intros [[y [c|es']] [Hf Hin]]; apply filter_In in Hin;
    destruct Hin as [Hin Hc]; simpl in *; try discriminate.
  subst. now exists c.
Qed.

(** Every file name a walk lists resolves to a regular file. *)
Lemma walk_node_files fs n : forall top names,
  wf n = true ->
  resolve fs top = inr names ->
  node_at fs names = Some n ->
  forall root dirs files f,
    In (root, dirs, files) (walk_node top n) -> In f files ->
    exists c, stat fs (join root f) = inr (File c).
Proof.
  induction n as [c|es IH] using node_ind';
    intros top names Hw Hr Hn root dirs files f; simpl; [contradiction|].
  destruct (wf_Dir _ Hw) as [Hv [Hd Hc]].
  assert (Hchild : forall x c, In (x, c) es ->
            resolve fs (join top x) = inr (names ++ [x])%list
            /\ node_at fs (names ++ [x]) = Some c).
  { intros x c Hin. split.
    - apply (resolve_join _ _ _ es); try assumption.
      rewrite forallb_forall in Hv. apply Hv.
      apply in_map_iff. now exists (x, c).
    - rewrite node_at_app, Hn. simpl.
      now rewrite (assoc_distinct _ _ _ Hd Hin). }
  intros [H|H] Hf.
  - injection H as <- <- <-.
    destruct (In_filenames _ _ Hf) as [c Hin].
    destruct (Hchild _ _ Hin) as [H1 H2].
    exists c. unfold stat. now rewrite H1, H2.
  - assert (Hsub : forall l, (forall x c, In (x, c) l -> In (x, c) es) ->
              In (root, dirs, files)
                ((fix below (l : entries) :=
                    match l with
                    | [] => []
                    | (x, c) :: l' => (walk_node (join top x) c ++ below l')%list
                    end) l) ->
              exists c, stat fs (join root f) = inr (File c)).
    { induction l as [|[x c] l IHl]; intros Hl; [contradiction|].
      rewrite in_app_iff. intros [Hin|Hin].
      - assert (Hxc : In (x, c) es) by (apply Hl; now left).
        destruct (Hchild _ _ Hxc) as [H1 H2].
        apply (IH x c Hxc (join top x) (names ++ [x])%list
                 (Hc _ _ Hxc) H1 H2 root dirs files f Hin Hf).
      - apply IHl; [|assumption].
        intros y d Hyd. apply Hl. now right. }
    apply (Hsub es); auto.
Qed.

Lemma walked_isfile fs directory_path recursive e :
  wf fs = true ->
  In e (walked fs directory_path recursive) ->
  isfile fs (path_of e) = true.
Proof.
  intros Hw. unfold walked. destruct recursive.
  - rewrite in_flat_map. intros [[[root dirs] files] [Ht He]].
    apply in_map_iff in He. destruct He as [f [<- Hf]].
    unfold walk in Ht.
    destruct (stat fs directory_path) as [?|n] eqn:Hs; [contradiction|].
    unfold stat in Hs.
    destruct (resolve fs directory_path) as [?|names] eqn:Hr; [discriminate|].
    destruct (node_at fs names) as [m|] eqn:Hn; [|discriminate].
    injection Hs as ->.
    destruct (walk_node_files fs n directory_path names
                (wf_node_at _ _ _ Hw Hn) Hr Hn root dirs files f Ht Hf)
      as [c Hc].
    unfold isfile, path_of. simpl. now rewrite Hc.
  - destruct (listdir fs directory_path) as [?|items]; [contradiction|].
    rewrite filter_In. now intros [_ H].
Qed.

(** ** Category-filtered scans *)

Lemma category_record_of guess_type dir_size fs e :
  isfile fs (path_of e) = true ->
  category (record_of guess_type dir_size fs e)
  = Some (get_file_type guess_type (path_of e)).
Proof.
  intros H. destruct (isfile_stat _ _ H) as [c Hs].
  unfold record_of, get_file_metadata, category, read_text. rewrite Hs.
  destruct (_ && _); reflexivity.
Qed.

Lemma filter_all {A : Type} (c : A -> bool) (l : list A) :
  (forall x, c x = true) -> filter c l = l.
Proof.
  intros H. induction l as [|x l IH]; simpl.
  - reflexivity.
  - now rewrite H, IH.
Qed.

Lemma filter_none {A : Type} (c : A -> bool) (l : list A) :
  (forall x, c x = false) -> filter c l = [].
Proof.
  intros H. induction l as [|x l IH]; simpl.
  - reflexivity.
  - now rewrite H.
Qed.

(** C2, as the code has it: over an existing directory of a well-formed
    tree every record of a category-filtered scan has a category in the
    filter set; with the filter omitted the scan returns one record for
    every walked file, whatever its category; an empty filter list selects
    nothing. *)
Theorem scan_directory_filter
    (guess_type : string -> option string) (dir_size : Z) (fs : node)
    (directory_path : string) (recursive : bool) :
  wf fs = true ->
  isdir fs directory_path = true ->
  (forall file_types, exists results,
      scan_directory guess_type dir_size fs directory_path recursive
        (Some file_types) = inr results
      /\ forall m, In m results ->
           exists t, category m = Some t /\ In t file_types)
  /\ (scan_directory guess_type dir_size fs directory_path recursive None
      = inr (map (record_of guess_type dir_size fs)
               (walked fs directory_path recursive))
      /\ forall e, In e (walked fs directory_path recursive) ->
           category (record_of guess_type dir_size fs e)
           = Some (get_file_type guess_type (path_of e)))
  /\ scan_directory guess_type dir_size fs directory_path recursive
       (Some []) = inr [].
Proof.
  intros Hw Hd.
  assert (Hcat : forall e, In e (walked fs directory_path recursive) ->
            category (record_of guess_type dir_size fs e)
            = Some (get_file_type guess_type (path_of e))).
  { intros e He. apply category_record_of.
    now apply (walked_isfile _ _ _ _ Hw He). }
  split; [|split; [split|]].
  - intros file_types. eexists. split.
    + now apply scan_directory_walked.
    + intros m Hm. apply in_map_iff in Hm. destruct Hm as [e [<- He]].
      apply filter_In in He. destruct He as [He Hp].
      exists (get_file_type guess_type (path_of e)). split.
      * now apply Hcat.
      * now apply mem_In.
  - rewrite (scan_directory_walked _ _ _ _ _ _ Hd).
    now rewrite filter_all.
  - exact Hcat.
  - rewrite (scan_directory_walked _ _ _ _ _ _ Hd).
    now rewrite filter_none.
Qed.

Lemma scan_directory_filter_witness :
  scan_directory mimetypes_excerpt 4096 sample_fs "/" true (Some [])
  = inr [].
Proof.
  apply (scan_directory_filter mimetypes_excerpt 4096 sample_fs "/" true);
    reflexivity.
Defined.

(** C2, as stated, fails: an empty filter set does not behave as an
    omitted one. *)
Lemma scan_directory_empty_filter_differs :
  scan_directory mimetypes_excerpt 4096 sample_fs "/sub" true (Some [])
  = inr []
  /\ scan_directory mimetypes_excerpt 4096 sample_fs "/sub" true (Some [])
     <> scan_directory mimetypes_excerpt 4096 sample_fs "/sub" true None.
Proof.
  split; [reflexivity|].
  vm_compute. discriminate.
Qed.

(** ** Content search: the cap on the number of matches *)

Section ContentSearch.

Variable guess_type : string -> option string.
Variable dir_size : Z.
Variable fs : node.
Variable query : string.
Variable file_types : option (list string).
Variable max_results : Z.

(** A property of the search state that every visit below the cap keeps
    is kept by the three loops. *)
Variable Q : search_state -> Prop.
Hypothesis Q_step : forall st file_path,
  count st < max_results -> Q st ->
  Q (search_step guess_type dir_size fs query file_types st file_path).

Lemma search_inner_keeps root files : forall st,
  Q st ->
  Q (search_inner guess_type dir_size fs query file_types max_results root
       files st).
Proof.
  induction files as [|f files IH]; intros st H; simpl.
  - exact H.
  - destruct (Z.geb_spec (count st) max_results); [exact H|].
    apply IH. now apply Q_step.
Qed.

Lemma search_outer_keeps triples : forall st,
  Q st ->
  Q (search_outer guess_type dir_size fs query file_types max_results
       triples st).
Proof.
  unfold search_outer.
  induction triples as [|[[root dirs] files] triples IH]; intros st H; simpl.
  - exact H.
  - apply IH. now apply search_inner_keeps.
Qed.

Lemma search_flat_keeps directory_path items : forall st,
  Q st ->
  Q (search_flat guess_type dir_size fs query file_types max_results
       directory_path items st).
Proof.
  induction items as [|item items IH]; intros st H; simpl.
  - exact H.
  - destruct (Z.geb_spec (count st) max_results); [exact H|].
    apply IH. destruct (isfile fs (join directory_path item)).
    + now apply Q_step.
    + exact H.
Qed.

End ContentSearch.

Lemma search_run_keeps guess_type dir_size fs directory_path query recursive
    file_types max_results (Q : search_state -> Prop) st :
  (forall st file_path,
      count st < max_results -> Q st ->
      Q (search_step guess_type dir_size fs (lower query) file_types st
           file_path)) ->
  Q initial ->
  search_file_contents_run guess_type dir_size fs directory_path query
    recursive file_types max_results = inr st ->
  Q st.
Proof.
  intros Hstep H0. unfold search_file_contents_run.
  destruct recursive.
  - intros H. injection H as <-. now apply search_outer_keeps.
  - destruct (listdir fs directory_path) as [e|items]; [discriminate|].
    intros H. injection H as <-. now apply search_flat_keeps.
Qed.

Lemma last_opt_app {A : Type} (l : list A) (x : A) :
  last_opt (l ++ [x]) = Some x.
Proof.
  unfold last_opt. now rewrite rev_app_distr.
Qed.

Lemma read_text_stat fs file_path content :
  read_text fs file_path = inr content ->
  exists c, stat fs file_path = inr (File c)
            /\ content = universal_newlines c.
Proof.
  unfold read_text. destruct (stat fs file_path) as [e|[c|es]];
    try discriminate.
  intros H. injection H as <-. now exists c.
Qed.

Lemma recorded_path_read guess_type dir_size fs file_path content mr :
  read_text fs file_path = inr content ->
  recorded_path
    (mkMetadata (info (get_file_metadata guess_type dir_size fs file_path))
       mr) = Some file_path.
Proof.
  intros H. destruct (read_text_stat _ _ _ H) as [c [Hs _]].
  unfold recorded_path, get_file_metadata, read_text. rewrite Hs. simpl.
  destruct (_ && _); reflexivity.
Qed.

Section OneLoop.

Variable guess_type : string -> option string.
Variable dir_size : Z.
Variable fs : node.
Variable query : string.
Variable file_types : option (list string).
Variable max_results : Z.

Lemma search_visits_at_cap visits st :
  max_results <= count st ->
  search_visits guess_type dir_size fs query file_types max_results visits st
  = st.
Proof.
  intros H. destruct visits as [|e visits]; simpl; [reflexivity|].
  destruct (Z.geb_spec (count st) max_results); [reflexivity | lia].
Qed.

Lemma search_visits_app visits1 : forall visits2 st,
  search_visits guess_type dir_size fs query file_types max_results
    (visits1 ++ visits2) st
  = search_visits guess_type dir_size fs query file_types max_results
      visits2
      (search_visits guess_type dir_size fs query file_types max_results
         visits1 st).
Proof.
  induction visits1 as [|e visits1 IH]; intros visits2 st; simpl.
  - reflexivity.
  - destruct (Z.geb_spec (count st) max_results) as [H|H].
    + symmetry. apply search_visits_at_cap. lia.
    + apply IH.
Qed.

Lemma search_inner_visits root files : forall st,
  search_inner guess_type dir_size fs query file_types max_results root
    files st
  = search_visits guess_type dir_size fs query file_types max_results
      (map (pair root) files) st.
Proof.
  induction files as [|f files IH]; intros st; simpl.
  - reflexivity.
  - destruct (count st >=? max_results); [reflexivity | apply IH].
Qed.

Lemma search_outer_visits triples : forall st,
  search_outer guess_type dir_size fs query file_types max_results triples
    st
  = search_visits guess_type dir_size fs query file_types max_results
      (flat_map (fun '(root, _, files) => map (pair root) files) triples) st.
Proof.
  unfold search_outer.
  induction triples as [|[[root dirs] files] triples IH]; intros st; simpl.
  - reflexivity.
  - now rewrite IH, search_visits_app, search_inner_visits.
Qed.

Lemma search_flat_visits directory_path items : forall st,
  search_flat guess_type dir_size fs query file_types max_results
    directory_path items st
  = search_visits guess_type dir_size fs query file_types max_results
      (filter (fun e => isfile fs (join (fst e) (snd e)))
         (map (pair directory_path) items)) st.
Proof.
  induction items as [|item items IH]; intros st; simpl.
  - reflexivity.
  - destruct (Z.geb_spec (count st) max_results) as [H|H].
    + symmetry. apply search_visits_at_cap. lia.
    + rewrite IH. destruct (isfile fs (join directory_path item)); simpl.
      * destruct (Z.geb_spec (count st) max_results); [lia | reflexivity].
      * reflexivity.
Qed.

End OneLoop.

(** The two branches of [search_file_contents] are one loop over the
    walked entries. *)
Lemma search_run_visits guess_type dir_size fs directory_path query
    recursive file_types max_results st :
  search_file_contents_run guess_type dir_size fs directory_path query
    recursive file_types max_results = inr st ->
  st = search_visits guess_type dir_size fs (lower query) file_types
         max_results (walked fs directory_path recursive) initial.
Proof.
  unfold search_file_contents_run, walked. destruct recursive.
  - intros H. injection H as <-. apply search_outer_visits.
  - destruct (listdir fs directory_path) as [e|items]; [discriminate|].
    intros H. injection H as <-. apply search_flat_visits.
Qed.

(** What the loops keep: the counter is the number of results, it never
    passes the cap, and when it has reached the cap the last path opened
    is the path of the last result. *)
Lemma search_step_cap guess_type dir_size fs query file_types max_results
    st file_path :
  count st < max_results ->
  (count st = Z.of_nat (List.length (results st))
   /\ count st <= Z.max 0 max_results
   /\ (max_results <= count st ->
       last_opt (opened st) = last_recorded (results st))) ->
  let st' :=
    search_step guess_type dir_size fs query file_types st file_path in
  count st' = Z.of_nat (List.length (results st'))
  /\ count st' <= Z.max 0 max_results
  /\ (max_results <= count st' ->
      last_opt (opened st') = last_recorded (results st')).
Proof.
  intros Hlt [Hc [Hb Hl]]. unfold search_step.
  destruct (_ && _); [|repeat split; auto].
  destruct (read_text fs file_path) as [e|content] eqn:Hr;
    [simpl; repeat split; auto; lia|].
  destruct (contains query (lower content));
    [|simpl; repeat split; auto; lia].
  simpl. repeat split.
  - rewrite length_app. simpl. lia.
  - lia.
  - intros _. unfold last_recorded. rewrite !last_opt_app.
    symmetry. now apply (recorded_path_read _ _ _ _ content).
Qed.

(** C3, as the code has it: the sequence returned by
    [search_file_contents] has at most [max_results] entries, none when
    [max_results] is negative; and once the cap has been reached no
    further candidate is opened: the run ends in the state, log of opened
    paths included, that it had after the visits that reached the cap, and
    the last path handed to [open] is the path of the last match. *)
Theorem search_file_contents_cap
    (guess_type : string -> option string) (dir_size : Z) (fs : node)
    (directory_path query : string) (recursive : bool)
    (file_types : option (list string)) (max_results : Z)
    (st : search_state) :
  search_file_contents_run guess_type dir_size fs directory_path query
    recursive file_types max_results = inr st ->
  search_file_contents guess_type dir_size fs directory_path query recursive
    file_types max_results = inr (results st)
  /\ Z.of_nat (List.length (results st)) <= Z.max 0 max_results
  /\ (forall before after,
        walked fs directory_path recursive = (before ++ after)%list ->
        max_results
        <= count (search_visits guess_type dir_size fs (lower query)
                    file_types max_results before initial) ->
        st = search_visits guess_type dir_size fs (lower query) file_types
               max_results before initial)
  /\ (max_results <= Z.of_nat (List.length (results st)) ->
      last_opt (opened st) = last_recorded (results st)).
Proof.
  intros Hrun. split; [|split; [|split]].
  - unfold search_file_contents. now rewrite Hrun.
  - assert (H : count st = Z.of_nat (List.length (results st))
                /\ count st <= Z.max 0 max_results
                /\ (max_results <= count st ->
                    last_opt (opened st) = last_recorded (results st))).
    { apply (search_run_keeps _ _ _ _ _ _ _ _ _ _
               (fun st file_path Hlt Hq =>
                  search_step_cap guess_type dir_size fs (lower query)
                    file_types max_results st file_path Hlt Hq)
               ltac:(simpl; repeat split; lia) Hrun). }
    destruct H as [Hc [Hb Hl]]. now rewrite <- Hc.
  - intros before after Hw Hcap.
    rewrite (search_run_visits _ _ _ _ _ _ _ _ _ Hrun), Hw.
    rewrite search_visits_app. now apply search_visits_at_cap.
  - assert (H : count st = Z.of_nat (List.length (results st))
                /\ count st <= Z.max 0 max_results
                /\ (max_results <= count st ->
                    last_opt (opened st) = last_recorded (results st))).
    { apply (search_run_keeps _ _ _ _ _ _ _ _ _ _
               (fun st file_path Hlt Hq =>
                  search_step_cap guess_type dir_size fs (lower query)
                    file_types max_results st file_path Hlt Hq)
               ltac:(simpl; repeat split; lia) Hrun). }
    destruct H as [Hc [Hb Hl]]. now rewrite <- Hc.
Qed.

Lemma search_file_contents_cap_witness :
  search_file_contents mimetypes_excerpt 4096 sample_fs "/" "WORLD" true
    None 1
  = inr [mkMetadata
           (inr (mkInfo "/a.txt" "a.txt" 11 "text" (Some "hello world")
                   (Some 1) None))
           (Some (mkMatch "hello world" 1))].
Proof.
  apply (search_file_contents_cap mimetypes_excerpt 4096 sample_fs "/"
           "WORLD" true None 1
           (mkState
              [mkMetadata
                 (inr (mkInfo "/a.txt" "a.txt" 11 "text" (Some "hello world")
                         (Some 1) None))
                 (Some (mkMatch "hello world" 1))]
              1 ["/a.txt"])).
  reflexivity.
Defined.

(** C3, as stated, fails for a negative [max_results]: the empty result
    has more than [max_results] entries. *)
Lemma search_file_contents_negative_cap :
  search_file_contents mimetypes_excerpt 4096 sample_fs "/" "world" true
    None (-1) = inr []
  /\ ~ (Z.of_nat (List.length (@nil metadata)) <= -1).
Proof.
  split; [reflexivity | simpl; lia].
Qed.

(** ** Content search: the match record *)

Lemma length_lower s : String.length (lower s) = String.length s.
Proof.
  induction s as [|c s IH]; simpl; [reflexivity | now rewrite IH].
Qed.

Lemma substring_length s : forall i n,
  String.length (String.substring i n s)
  = Nat.min n (String.length s - i).
Proof.
  induction s as [|c s IH]; intros i n.
  - destruct i, n; reflexivity.
  - destruct i as [|i].
    + destruct n as [|n]; [reflexivity|].
      simpl. now rewrite IH, Nat.sub_0_r.
    + simpl. apply IH.
Qed.

Lemma substring_split s : forall a m k,
  String.substring a (m + k) s
  = String.substring a m s ++ String.substring (a + m) k s.
Proof.
  induction s as [|c s IH]; intros a m k.
  - destruct a, m, k; reflexivity.
  - destruct a as [|a].
    + destruct m as [|m]; [reflexivity|].
      simpl. f_equal. apply (IH 0%nat m k).
    + simpl. apply IH.
Qed.

Lemma substring_clip s : forall a n,
  (String.length s - a <= n)%nat ->
  String.substring a n s = String.substring a (String.length s - a) s.
Proof.
  induction s as [|c s IH]; intros a n H.
  - destruct a, n; reflexivity.
  - destruct a as [|a].
    + destruct n as [|n]; [simpl in H; lia|].
      simpl. f_equal. rewrite (IH 0%nat n) by (simpl in H; lia).
      now rewrite Nat.sub_0_r.
    + simpl. apply IH. simpl in H. lia.
Qed.

Lemma index_first q s i :
  String.index 0 q s = Some i -> first_occurrence q s i.
Proof.
  intros H. split.
  - now apply (String.index_correct1 0 i).
  - intros j Hj. apply (String.index_correct2 0 i q s H); lia.
Qed.

Lemma index_bound q s i :
  String.index 0 q s = Some i ->
  (i + String.length q <= String.length s)%nat.
Proof.
  intros H. destruct (index_first _ _ _ H) as [H1 H2].
  apply (f_equal String.length) in H1. rewrite substring_length in H1.
  destruct q as [|c q].
  - destruct i as [|i]; [simpl; lia|].
    elim (H2 0%nat ltac:(lia)). simpl. now destruct s.
  - change (String.length (String c q)) with (S (String.length q)) in *.
    lia.
Qed.

Lemma slice_substring s (a b : nat) :
  (a <= b)%nat -> (b <= String.length s)%nat ->
  slice s (Z.of_nat a) (Z.of_nat b) = String.substring a (b - a) s.
Proof.
  intros Hab Hb. unfold slice, clip, len.
  destruct (Z.ltb_spec (Z.of_nat a) 0); [lia|].
  destruct (Z.ltb_spec (Z.of_nat b) 0); [lia|].
  f_equal; lia.
Qed.

(** The record [match_of] computes, in terms of the first occurrence. *)
Lemma match_of_first content query i :
  String.index 0 query (lower content) = Some i ->
  match_of content query
  = mkMatch (window content i (String.length query)) (line_of content i).
Proof.
  intros H. pose proof (index_bound _ _ _ H) as Hb.
  rewrite length_lower in Hb.
  unfold match_of, find, slice_to, window, line_of. rewrite H.
  set (n := String.length query) in *.
  set (L := String.length content) in *.
  f_equal.
  - replace (Z.max 0 (Z.of_nat i - 50)) with (Z.of_nat (i - 50)) by lia.
    replace (Z.min (len content) (Z.of_nat i + len query + 50))
      with (Z.of_nat (Nat.min L (i + n + 50))) by (unfold len; lia).
    rewrite slice_substring by (fold L; lia).
    replace (Nat.min L (i + n + 50) - (i - 50))%nat
      with (Nat.min 50 i + (n + Nat.min 50 (L - (i + n))))%nat by lia.
    rewrite !substring_split.
    replace (i - 50 + Nat.min 50 i)%nat with i by lia.
    do 2 f_equal.
    destruct (Nat.le_ge_cases 50 (L - (i + n))) as [Hc|Hc].
    + now rewrite Nat.min_l.
    + rewrite Nat.min_r by assumption. symmetry. now apply substring_clip.
  - change 0 with (Z.of_nat 0).
    rewrite slice_substring by (fold L; lia).
    rewrite Nat.sub_0_r. lia.
Qed.

(** C4: every record [search_file_contents] returns belongs to a file
    whose lower-cased text contains the lower-cased query, and its match
    is computed from the index of the first occurrence: the context is the
    text from at most 50 characters before the match to at most 50
    characters after it, and the line is one plus the number of line feeds
    before that index. *)
Theorem search_file_contents_match
    (guess_type : string -> option string) (dir_size : Z) (fs : node)
    (directory_path query : string) (recursive : bool)
    (file_types : option (list string)) (max_results : Z)
    (l : list metadata) (m : metadata) :
  search_file_contents guess_type dir_size fs directory_path query recursive
    file_types max_results = inr l ->
  In m l ->
  exists file_path content i,
    recorded_path m = Some file_path
    /\ read_text fs file_path = inr content
    /\ contains (lower query) (lower content) = true
    /\ first_occurrence (lower query) (lower content) i
    /\ match_ m
       = Some (mkMatch (window content i (String.length (lower query)))
                 (line_of content i)).
Proof.
  unfold search_file_contents.
  destruct (search_file_contents_run _ _ _ _ _ _ _ _) as [e|st] eqn:Hrun;
    [discriminate|].
  intros H. injection H as <-. revert m. pattern st.
  eapply search_run_keeps; [| |exact Hrun].
  - clear. intros st file_path _ IH m. unfold search_step.
    destruct (_ && _); [|apply IH].
    destruct (read_text fs file_path) as [e|content] eqn:Hr; [apply IH|].
    destruct (contains (lower query) (lower content)) eqn:Hc; [|apply IH].
    simpl. rewrite in_app_iff. intros [Hm|[<-|[]]]; [now apply IH|].
    unfold contains in Hc.
    destruct (String.index 0 (lower query) (lower content)) as [i|] eqn:Hi;
      [|discriminate].
    exists file_path, content, i. repeat split.
    + now apply (recorded_path_read _ _ _ _ content).
    + exact Hr.
    + unfold contains. now rewrite Hi.
    + now apply (String.index_correct1 0 i).
    + intros j Hj. apply (String.index_correct2 0 i _ _ Hi); lia.
    + simpl. f_equal. now apply match_of_first.
  - intros m [].
Qed.

Lemma search_file_contents_match_witness :
  exists file_path content i,
    Some "/b.py" = Some file_path
    /\ read_text sample_fs file_path = inr content
    /\ contains (lower "WORLD") (lower content) = true
    /\ first_occurrence (lower "WORLD") (lower content) i
    /\ Some (mkMatch ("import os" ++ newline ++ "print('world')" ++ newline) 2)
       = Some (mkMatch (window content i (String.length (lower "WORLD")))
                 (line_of content i)).
Proof.
  apply (search_file_contents_match mimetypes_excerpt 4096 sample_fs "/"
           "WORLD" false (Some ["text"]) 5
           [mkMetadata
              (inr (mkInfo "/a.txt" "a.txt" 11 "text" (Some "hello world")
                      (Some 1) None))
              (Some (mkMatch "hello world" 1));
            mkMetadata
              (inr (mkInfo "/b.py" "b.py" 25 "text"
                      (Some ("import os" ++ newline ++ "print('world')"
                             ++ newline))
                      (Some 2) None))
              (Some (mkMatch
                       ("import os" ++ newline ++ "print('world')" ++ newline)
                       2))]
           (mkMetadata
              (inr (mkInfo "/b.py" "b.py" 25 "text"
                      (Some ("import os" ++ newline ++ "print('world')"
                             ++ newline))
                      (Some 2) None))
              (Some (mkMatch
                       ("import os" ++ newline ++ "print('world')" ++ newline)
                       2)))).
  - reflexivity.
  - simpl. right. left. reflexivity.
Defined.

(** ** Writing into the tree *)

Lemma assoc_bind_same x new es : assoc x (bind x new es) = Some new.
Proof.
  induction es as [|[y n] es IH]; simpl.
  - now rewrite String.eqb_refl.
  - destruct (String.eqb x y) eqn:E; simpl; rewrite E; [reflexivity | exact IH].
Qed.

Lemma assoc_bind_other x y new es :
  x <> y -> assoc y (bind x new es) = assoc y es.
Proof.
  intros Hne. induction es as [|[z n] es IH]; simpl.
  - destruct (String.eqb_spec y x); [now subst | reflexivity].
  - destruct (String.eqb_spec x z) as [->|Hxz]; simpl.
    + destruct (String.eqb_spec y z); [now subst | reflexivity].
    + now rewrite IH.
Qed.

Lemma removelast_cons_cons {A : Type} (x y : A) l :
  removelast (x :: y :: l) = x :: removelast (y :: l).
Proof. reflexivity. Qed.

(** A node that exists below a directory has a directory as parent. *)
Lemma node_at_parent names : forall n m,
  node_at n names = Some m -> names <> [] ->
  exists es, node_at n (removelast names) = Some (Dir es).
Proof.
  induction names as [|x names IH]; intros n m H Hne; [now elim Hne|].
  destruct n as [c|es]; [discriminate|].
  destruct names as [|y names].
  - now exists es.
  - rewrite removelast_cons_cons. simpl in *.
    destruct (assoc x es) as [c|]; [|discriminate].
    now apply (IH c m).
Qed.

Lemma dir_at_parent names n es :
  node_at n names = Some (Dir es) ->
  exists es', node_at n (removelast names) = Some (Dir es').
Proof.
  intros H. destruct names as [|x names].
  - now exists es.
  - apply (node_at_parent _ _ _ H). discriminate.
Qed.

(** What path resolution returns is a directory or lies in one. *)
Lemma canon_result fs comps : forall cur names,
  comps <> [] ->
  canon fs cur comps = inr names ->
  (exists es, node_at fs names = Some (Dir es))
  \/ (names <> []
      /\ exists es, node_at fs (removelast names) = Some (Dir es)).
Proof.
  induction comps as [|c comps IH]; intros cur names Hne; [now elim Hne|].
  simpl. destruct (node_at fs cur) as [[?|es]|] eqn:Hcur; try discriminate.
  destruct comps as [|c' comps].
  - destruct (_ || _); simpl.
    + intros H. injection H as <-. left. now exists es.
    + destruct (String.eqb c "..").
      * intros H. injection H as <-. left. now apply (dir_at_parent _ _ es).
      * intros H. injection H as <-. right. split.
        -- now destruct cur.
        -- rewrite removelast_last. now exists es.
  - destruct (_ || _); [apply IH; discriminate|].
    destruct (String.eqb c ".."); apply IH; discriminate.
Qed.

Lemma node_at_put_same names : forall n new,
  (names = [] \/ exists es, node_at n (removelast names) = Some (Dir es)) ->
  node_at (put n names new) names = Some new.
Proof.
  induction names as [|x names IH]; intros n new H; [reflexivity|].
  destruct H as [H|[es H]]; [discriminate|].
  destruct names as [|y names].
  - simpl in H. injection H as ->. simpl. now rewrite assoc_bind_same.
  - rewrite removelast_cons_cons in H.
    destruct n as [c|es0]; [discriminate|].
    cbn [node_at] in H. cbn [put].
    destruct (assoc x es0) as [c|] eqn:E; [|discriminate].
    cbn [node_at]. rewrite assoc_bind_same.
    apply IH. right. now exists es.
Qed.

(** Putting a regular file where there was no directory keeps every
    directory a directory. *)
Lemma dir_at_put c names : forall n q es,
  not_dir (node_at n names) ->
  node_at n q = Some (Dir es) ->
  exists es', node_at (put n names (File c)) q = Some (Dir es').
Proof.
  induction names as [|x names IH]; intros n q es Hnd Hq.
  - simpl in Hnd. destruct n as [c0|es0]; [|contradiction].
    destruct q; discriminate.
  - destruct n as [c0|es0]; [now exists es|].
    cbn [put]. cbn [node_at] in Hnd.
    assert (Hother : forall y q' new,
              x <> y ->
              node_at (Dir es0) (y :: q') = Some (Dir es) ->
              node_at (Dir (bind x new es0)) (y :: q') = Some (Dir es)).
    { intros y q' new Hne. cbn [node_at]. now rewrite assoc_bind_other. }
    destruct names as [|y names].
    + destruct q as [|z q]; [eexists; reflexivity|].
      destruct (String.eqb_spec x z) as [<-|Hne].
      * cbn [node_at] in Hq.
        destruct (assoc x es0) as [[c1|es1]|]; try contradiction;
          try discriminate.
        destruct q; discriminate.
      * exists es. now apply Hother.
    + destruct (assoc x es0) as [cx|] eqn:E; [|now exists es].
      destruct q as [|z q]; [eexists; reflexivity|].
      destruct (String.eqb_spec x z) as [<-|Hne].
      * cbn [node_at] in *. rewrite E in Hq. rewrite assoc_bind_same.
        now apply (IH cx q es).
      * exists es. now apply Hother.
Qed.

(** A successful resolution stays the same after such a write. *)
Lemma canon_put c names fs comps : forall cur r,
  not_dir (node_at fs names) ->
  canon fs cur comps = inr r ->
  canon (put fs names (File c)) cur comps = inr r.
Proof.
  induction comps as [|x comps IH]; intros cur r Hnd; simpl; [auto|].
  destruct (node_at fs cur) as [[?|es]|] eqn:Hcur; try discriminate.
  destruct (dir_at_put c names fs cur es Hnd Hcur) as [es' ->].
  destruct (_ || _); [now apply IH|].
  destruct (String.eqb x ".."); now apply IH.
Qed.

(** After a successful text write the path is a regular file holding the
    new text, after the old one when appending. *)
Lemma write_text_stat fs file_path append content fs' :
  write_text fs file_path append content = inr fs' ->
  exists text,
    stat fs' file_path = inr (File text)
    /\ (append = false -> text = content)
    /\ (forall old, stat fs file_path = inr (File old) ->
        append = true -> text = old ++ content)
    /\ (isfile fs file_path = false -> text = content).
Proof.
  unfold write_text, stat, isfile, stat.
  destruct (resolve fs file_path) as [e|names] eqn:Hr; [discriminate|].
  unfold resolve in *.
  destruct (String.eqb file_path ""); [discriminate|].
  assert (Hput : forall text,
            not_dir (node_at fs names) ->
            match canon (put fs names (File text)) [] (split sep file_path) with
            | inl e => inl e
            | inr names0 =>
                match node_at (put fs names (File text)) names0 with
                | Some n => inr n
                | None => inl FileNotFoundError
                end
            end = inr (File text)).
  { intros text Hnd. rewrite (canon_put _ _ _ _ _ _ Hnd Hr).
    rewrite node_at_put_same; [reflexivity|].
    destruct (canon_result _ _ _ _ (split_not_nil _ _) Hr) as [[es H]|[_ H]].
    - rewrite H in Hnd. contradiction.
    - now right. }
  destruct (node_at fs names) as [[old|es]|] eqn:Hn; try discriminate.
  - intros H. injection H as <-.
    exists (if append then old ++ content else content). split; [|split; [|split]].
    + apply Hput. exact I.
    + now intros ->.
    + intros old' H ->. now injection H as ->.
    + discriminate.
  - intros H. injection H as <-.
    exists content. split; [|split; [|split]].
    + apply Hput. exact I.
    + reflexivity.
    + discriminate.
    + reflexivity.
Qed.

(** ** Write and read *)

Lemma universal_newlines_no_cr s :
  no_cr s = true -> universal_newlines s = s.
Proof.
  induction s as [|c s IH]; simpl; [reflexivity|].
  rewrite andb_true_iff, negb_true_iff. intros [Hc Hs].
  now rewrite Hc, IH.
Qed.

Lemma no_cr_app s t :
  no_cr s = true -> no_cr t = true -> no_cr (s ++ t) = true.
Proof.
  intros Hs Ht. induction s as [|c s IH]; simpl in *; [assumption|].
  rewrite andb_true_iff in *. destruct Hs as [Hc Hs]. auto.
Qed.

Lemma read_text_file_whole guess_type dir_size fs file_path c :
  stat fs file_path = inr (File c) ->
  mem (get_file_type guess_type file_path) textual_types = true ->
  read_text_file guess_type dir_size fs file_path None
  = inr (mkRead file_path (basename file_path) (universal_newlines c)
           (len c)).
Proof.
  intros Hs Ht. unfold read_text_file, isfile, read_text, getsize.
  now rewrite Hs, Ht.
Qed.

Lemma write_text_file_stat dir_size fs file_path content append fs' text :
  write_text fs file_path append content = inr fs' ->
  stat fs' file_path = inr (File text) ->
  write_text_file dir_size fs file_path content append
  = (inr (mkWrite file_path (basename file_path) (len text)
            (if append then "append" else "write")), fs').
Proof.
  intros Hw Hs. unfold write_text_file, getsize. now rewrite Hw, Hs.
Qed.

Lemma write_text_resolved fs file_path append content names :
  resolve fs file_path = inr names ->
  not_dir (node_at fs names) ->
  exists fs', write_text fs file_path append content = inr fs'.
Proof.
  intros Hr Hn. unfold write_text. rewrite Hr.
  destruct (node_at fs names) as [[old|es]|]; [eexists; reflexivity|
    contradiction | eexists; reflexivity].
Qed.

Lemma stat_file_resolved fs file_path c :
  stat fs file_path = inr (File c) ->
  exists names, resolve fs file_path = inr names
                /\ not_dir (node_at fs names).
Proof.
  unfold stat. destruct (resolve fs file_path) as [e|names]; [discriminate|].
  destruct (node_at fs names) as [n|] eqn:Hn; [|discriminate].
  intros H. injection H as ->. exists names. split; [reflexivity|].
  now rewrite Hn.
Qed.

(** C5, as the code has it: on a path of a textual category that can be
    written (it resolves to a place in an existing directory and is not a
    directory itself), writing a text without carriage returns and reading
    it back returns that text, and appending a second such text and
    reading again returns the two in sequence. *)
Theorem write_read_round_trip
    (guess_type : string -> option string) (dir_size : Z) (fs : node)
    (file_path X Y : string) (names : list string) :
  mem (get_file_type guess_type file_path) textual_types = true ->
  resolve fs file_path = inr names ->
  not_dir (node_at fs names) ->
  no_cr X = true ->
  no_cr Y = true ->
  exists r1 fs1 r2 fs2,
    write_text_file dir_size fs file_path X false = (inr r1, fs1)
    /\ read_text_file guess_type dir_size fs1 file_path None
       = inr (mkRead file_path (basename file_path) X (len X))
    /\ write_text_file dir_size fs1 file_path Y true = (inr r2, fs2)
    /\ read_text_file guess_type dir_size fs2 file_path None
       = inr (mkRead file_path (basename file_path) (X ++ Y) (len (X ++ Y))).
Proof.
  intros Ht Hr Hn HX HY.
  destruct (write_text_resolved fs file_path false X names Hr Hn)
    as [fs1 Hw1].
  destruct (write_text_stat _ _ _ _ _ Hw1) as [t1 [Hs1 [Ht1 _]]].
  rewrite (Ht1 eq_refl) in Hs1. clear Ht1 t1.
  destruct (stat_file_resolved _ _ _ Hs1) as [names1 [Hr1 Hn1]].
  destruct (write_text_resolved fs1 file_path true Y names1 Hr1 Hn1)
    as [fs2 Hw2].
  destruct (write_text_stat _ _ _ _ _ Hw2) as [t2 [Hs2 [_ [Ht2 _]]]].
  rewrite (Ht2 X Hs1 eq_refl) in Hs2. clear Ht2 t2.
  eexists _, fs1, _, fs2. split; [|split; [|split]].
  - eapply write_text_file_stat; eassumption.
  - rewrite (read_text_file_whole _ _ _ _ _ Hs1 Ht).
    now rewrite universal_newlines_no_cr.
  - eapply write_text_file_stat; eassumption.
  - rewrite (read_text_file_whole _ _ _ _ _ Hs2 Ht).
    now rewrite universal_newlines_no_cr by now apply no_cr_app.
Qed.

Lemma write_read_round_trip_witness :
  exists r1 fs1 r2 fs2,
    write_text_file 4096 sample_fs "/sub/notes.txt" "X" false = (inr r1, fs1)
    /\ read_text_file mimetypes_excerpt 4096 fs1 "/sub/notes.txt" None
       = inr (mkRead "/sub/notes.txt" (basename "/sub/notes.txt") "X"
                (len "X"))
    /\ write_text_file 4096 fs1 "/sub/notes.txt" "Y" true = (inr r2, fs2)
    /\ read_text_file mimetypes_excerpt 4096 fs2 "/sub/notes.txt" None
       = inr (mkRead "/sub/notes.txt" (basename "/sub/notes.txt") ("X" ++ "Y")
                (len ("X" ++ "Y"))).
Proof.
  apply (write_read_round_trip mimetypes_excerpt 4096 sample_fs
           "/sub/notes.txt" "X" "Y" ["sub"; "notes.txt"]).
  - reflexivity.
  - reflexivity.
  - exact I.
  - reflexivity.
  - reflexivity.
Defined.

(** C5, as stated, fails: a text-mode read returns a written carriage
    return as a line feed, and on a path of a textual category below a
    missing directory the write fails and the read finds no file. *)
Lemma write_read_not_round_trip :
  (read_text_file mimetypes_excerpt 4096
     (snd (write_text_file 4096 sample_fs "/a.txt"
             ("a" ++ String CR "b") false))
     "/a.txt" None
   = inr (mkRead "/a.txt" "a.txt" ("a" ++ String LF "b") 3)
   /\ "a" ++ String LF "b" <> "a" ++ String CR "b")
  /\ (mem (get_file_type mimetypes_excerpt "/missing/notes.txt")
        textual_types = true
      /\ write_text_file 4096 sample_fs "/missing/notes.txt" "X" false
         = (inl (Raised FileNotFoundError), sample_fs)
      /\ read_text_file mimetypes_excerpt 4096 sample_fs
           "/missing/notes.txt" None
         = inl (Message "File not found: /missing/notes.txt")).
Proof.
  repeat split. discriminate.
Qed.

(** ** Copying *)

Lemma makedirs_dir_at comps : forall n n' q es,
  makedirs n comps = inr n' ->
  node_at n q = Some (Dir es) ->
  exists es', node_at n' q = Some (Dir es').
Proof.
  induction comps as [|c comps IH]; intros n n' q es; simpl.
  - destruct n; [discriminate|]. intros H. injection H as <-. eauto.
  - destruct n as [t|es0]; [discriminate|].
    destruct (makedirs _ comps) as [e|child'] eqn:Hm; [discriminate|].
    intros H. injection H as <-.
    destruct q as [|y q]; [eexists; reflexivity|].
    cbn [node_at]. destruct (String.eqb_spec c y) as [<-|Hne].
    + rewrite assoc_bind_same.
      destruct (assoc c es0) as [child|]; [|discriminate].
      now apply (IH child).
    + rewrite assoc_bind_other by assumption. eauto.
Qed.

Lemma makedirs_file_at comps : forall n n' q t,
  makedirs n comps = inr n' ->
  node_at n q = Some (File t) ->
  node_at n' q = Some (File t).
Proof.
  induction comps as [|c comps IH]; intros n n' q t; simpl.
  - destruct n; [discriminate|]. intros H. now injection H as <-.
  - destruct n as [t0|es0]; [discriminate|].
    destruct (makedirs _ comps) as [e|child'] eqn:Hm; [discriminate|].
    intros H. injection H as <-.
    destruct q as [|y q]; [discriminate|].
    cbn [node_at]. destruct (String.eqb_spec c y) as [<-|Hne].
    + rewrite assoc_bind_same.
      destruct (assoc c es0) as [child|]; [|discriminate].
      now apply (IH child).
    + now rewrite assoc_bind_other by assumption.
Qed.

(** After [makedirs] the directory is there. *)
Lemma makedirs_creates comps : forall n n',
  makedirs n comps = inr n' ->
  exists es, node_at n' comps = Some (Dir es).
Proof.
  induction comps as [|c comps IH]; intros n n'; simpl.
  - destruct n as [t|es]; [discriminate|].
    intros H. injection H as <-. eauto.
  - destruct n as [t0|es0]; [discriminate|].
    destruct (makedirs _ comps) as [e|child'] eqn:Hm; [discriminate|].
    intros H. injection H as <-.
    cbn [node_at]. rewrite assoc_bind_same. now apply IH in Hm.
Qed.

Lemma canon_makedirs dirs fs fs' comps : forall cur r,
  makedirs fs dirs = inr fs' ->
  canon fs cur comps = inr r ->
  canon fs' cur comps = inr r.
Proof.
  induction comps as [|x comps IH]; intros cur r Hm; simpl; [auto|].
  destruct (node_at fs cur) as [[?|es]|] eqn:Hcur; try discriminate.
  destruct (makedirs_dir_at _ _ _ _ _ Hm Hcur) as [es' ->].
  destruct (_ || _); [now apply IH|].
  destruct (String.eqb x ".."); now apply IH.
Qed.

Lemma stat_makedirs_file dirs fs fs' file_path c :
  makedirs fs dirs = inr fs' ->
  stat fs file_path = inr (File c) ->
  stat fs' file_path = inr (File c).
Proof.
  intros Hm. unfold stat, resolve.
  destruct (String.eqb file_path ""); [discriminate|].
  destruct (canon fs [] (split sep file_path)) as [e|names] eqn:Hc;
    [discriminate|].
  rewrite (canon_makedirs _ _ _ _ _ _ Hm Hc).
  destruct (node_at fs names) as [n|] eqn:Hn; [|discriminate].
  intros H. injection H as ->.
  now rewrite (makedirs_file_at _ _ _ _ _ Hm Hn).
Qed.

Lemma write_text_dir_at fs file_path append content fs' q es :
  write_text fs file_path append content = inr fs' ->
  node_at fs q = Some (Dir es) ->
  exists es', node_at fs' q = Some (Dir es').
Proof.
  unfold write_text.
  destruct (resolve fs file_path) as [e|names]; [discriminate|].
  destruct (node_at fs names) as [[old|es0]|] eqn:Hn; try discriminate;
    intros H Hq; injection H as <-;
    apply (dir_at_put _ _ _ _ es); try assumption; now rewrite Hn.
Qed.

(** C6, as the code has it: [copy_file] answers "Source file not found"
    when the source is not a regular file and "Destination file already
    exists" when the destination exists and [overwrite] is false;
    otherwise it creates the parent directories of the destination and
    copies; an exception raised by either step is returned as an error
    payload, and when both steps succeed the parent directories exist and
    a destination that was not a directory is a regular file with the
    text of the source, whose size is returned. *)
Theorem copy_file_cases (dir_size : Z) (fs : node)
    (source_path destination_path : string) (overwrite : bool) :
  (isfile fs source_path = false ->
   copy_file dir_size fs source_path destination_path overwrite
   = (inl (Message ("Source file not found: " ++ source_path)), fs))
  /\ (isfile fs source_path = true ->
      exists_ fs destination_path = true -> overwrite = false ->
      copy_file dir_size fs source_path destination_path overwrite
      = (inl (Message ("Destination file already exists: "
                       ++ destination_path)), fs))
  /\ (isfile fs source_path = true ->
      exists_ fs destination_path && negb overwrite = false ->
      (forall e,
          makedirs fs (dirname (abspath destination_path)) = inl e ->
          copy_file dir_size fs source_path destination_path overwrite
          = (inl (Raised e), fs))
      /\ (forall fs1 e,
             makedirs fs (dirname (abspath destination_path)) = inr fs1 ->
             copy2 fs1 source_path destination_path = inl e ->
             copy_file dir_size fs source_path destination_path overwrite
             = (inl (Raised e), fs1))
      /\ (forall fs1 fs2,
             makedirs fs (dirname (abspath destination_path)) = inr fs1 ->
             copy2 fs1 source_path destination_path = inr fs2 ->
             (exists es,
                 node_at fs2 (dirname (abspath destination_path))
                 = Some (Dir es))
             /\ (isdir fs1 destination_path = false ->
                 exists c,
                   stat fs source_path = inr (File c)
                   /\ stat fs2 destination_path = inr (File c)
                   /\ copy_file dir_size fs source_path destination_path
                        overwrite
                      = (inr (mkCopy source_path destination_path (len c)),
                         fs2)))).
Proof.
  split; [|split].
  - intros H. unfold copy_file. now rewrite H.
  - intros Hs Hd ->. unfold copy_file. now rewrite Hs, Hd.
  - intros Hs Hd. unfold copy_file. rewrite Hs, Hd. simpl.
    split; [|split].
    + intros e ->. reflexivity.
    + intros fs1 e -> ->. reflexivity.
    + intros fs1 fs2 Hm Hc. rewrite Hm, Hc.
      destruct (makedirs_creates _ _ _ Hm) as [es Hes].
      destruct (isfile_stat _ _ Hs) as [c Hsrc].
      pose proof (stat_makedirs_file _ _ _ _ _ Hm Hsrc) as Hsrc1.
      unfold copy2 in Hc. rewrite Hsrc1 in Hc.
      destruct (samefile fs1 source_path _); [discriminate|].
      split.
      * now apply (write_text_dir_at _ _ _ _ _ _ _ Hc Hes).
      * intros Hnd. rewrite Hnd in Hc.
        destruct (write_text_stat _ _ _ _ _ Hc) as [t [Ht [Heq _]]].
        rewrite (Heq eq_refl) in Ht.
        exists c. repeat split; try assumption.
        unfold getsize. now rewrite Ht.
Qed.

Lemma copy_file_cases_witness :
  copy_file 4096 sample_fs "/missing.txt" "/b.txt" false
  = (inl (Message "Source file not found: /missing.txt"), sample_fs)
  /\ copy_file 4096 sample_fs "/a.txt" "/b.py" false
     = (inl (Message "Destination file already exists: /b.py"), sample_fs)
  /\ exists c,
       stat sample_fs "/a.txt" = inr (File c)
       /\ stat
            (Dir [("a.txt", File "hello world");
                  ("b.py",
                   File ("import os" ++ newline ++ "print('world')"
                         ++ newline));
                  ("sub",
                   Dir [("empty.txt", File "");
                        ("report.pdf", File "%PDF-1.4")]);
                  ("e.bin", File "world");
                  ("new", Dir [("dir", Dir [("copy.txt", File "hello world")])])])
            "/new/dir/copy.txt" = inr (File c)
       /\ copy_file 4096 sample_fs "/a.txt" "/new/dir/copy.txt" false
          = (inr (mkCopy "/a.txt" "/new/dir/copy.txt" (len c)),
             Dir [("a.txt", File "hello world");
                  ("b.py",
                   File ("import os" ++ newline ++ "print('world')"
                         ++ newline));
                  ("sub",
                   Dir [("empty.txt", File "");
                        ("report.pdf", File "%PDF-1.4")]);
                  ("e.bin", File "world");
                  ("new", Dir [("dir", Dir [("copy.txt", File "hello world")])])]).
Proof.
  split; [|split].
  - apply (copy_file_cases 4096 sample_fs "/missing.txt" "/b.txt" false).
    reflexivity.
  - apply (copy_file_cases 4096 sample_fs "/a.txt" "/b.py" false);
      reflexivity.
  - apply (proj2 (proj2 (proj2 (proj2
             (copy_file_cases 4096 sample_fs "/a.txt" "/new/dir/copy.txt"
                false)) eq_refl eq_refl))
             (Dir [("a.txt", File "hello world");
                   ("b.py",
                    File ("import os" ++ newline ++ "print('world')"
                          ++ newline));
                   ("sub",
                    Dir [("empty.txt", File "");
                         ("report.pdf", File "%PDF-1.4")]);
                   ("e.bin", File "world");
                   ("new", Dir [("dir", Dir [])])])
             _ eq_refl eq_refl).
    reflexivity.
Defined.

(** C6, as stated, fails: with an existing source and [overwrite] set the
    copy of a file onto itself is refused by the copy primitive and the
    tool returns an error payload. *)
Lemma copy_file_onto_itself :
  isfile sample_fs "/a.txt" = true
  /\ exists_ sample_fs "/a.txt" && negb true = false
  /\ copy_file 4096 sample_fs "/a.txt" "/a.txt" true
     = (inl (Raised SameFileError), sample_fs).
Proof.
  repeat split.
Qed.

(** ** Metadata of one file *)

Lemma substring_whole s : String.substring 0 (String.length s) s = s.
Proof.
  induction s as [|c s IH]; simpl; [reflexivity | now rewrite IH].
Qed.

Lemma slice_to_short s b :
  len s <= b -> slice_to s b = s.
Proof.
  intros H. unfold slice_to, slice, clip, len in *.
  destruct (Z.ltb_spec 0 0); [lia|].
  destruct (Z.ltb_spec b 0); [lia|].
  replace (Z.to_nat (Z.max 0 (Z.min (Z.of_nat (String.length s)) 0)))
    with 0%nat by lia.
  replace (Z.to_nat
             (Z.max 0 (Z.min (Z.of_nat (String.length s)) b)
              - Z.max 0 (Z.min (Z.of_nat (String.length s)) 0)))
    with (String.length s) by lia.
  apply substring_whole.
Qed.

Lemma slice_to_long s (b : nat) :
  Z.of_nat b <= len s ->
  slice_to s (Z.of_nat b) = String.substring 0 b s
  /\ len (slice_to s (Z.of_nat b)) = Z.of_nat b.
Proof.
  intros H. unfold len in H.
  assert (E : slice_to s (Z.of_nat b) = String.substring 0 b s).
  { unfold slice_to. change 0 with (Z.of_nat 0).
    rewrite slice_substring by lia. now rewrite Nat.sub_0_r. }
  split; [exact E|].
  rewrite E. unfold len. rewrite substring_length. lia.
Qed.

(** The metadata tool on a regular file whose category and extension
    allow a preview: the record is never an error, its size is the stored
    length, and the preview is the whole text when that is shorter than
    1000 characters and otherwise its first 1000 characters followed by
    the truncation marker, also when the text has exactly 1000. *)
Theorem get_file_metadata_tool_preview
    (guess_type : string -> option string) (dir_size : Z) (fs : node)
    (file_path c : string) :
  stat fs file_path = inr (File c) ->
  mem (get_file_type guess_type file_path) textual_types
  && mem (lower (snd (splitext file_path))) preview_extensions = true ->
  get_file_metadata_tool guess_type dir_size fs file_path
  = mkMetadata
      (inr (mkInfo file_path (basename file_path) (len c)
              (get_file_type guess_type file_path)
              (Some (if len (universal_newlines c) <? 1000
                     then universal_newlines c
                     else String.substring 0 1000 (universal_newlines c)
                          ++ "... (truncated)"))
              (Some (Z.of_nat
                       (List.length (readlines (universal_newlines c)))))
              None))
      None.
Proof.
  intros Hs Hp.
  unfold get_file_metadata_tool, isfile, get_file_metadata, read_text.
  rewrite Hs, Hp. cbn [negb st_size].
  set (text := universal_newlines c).
  destruct (Z.ltb_spec (len text) 1000) as [Hlt|Hge].
  - rewrite slice_to_short by lia.
    destruct (Z.eqb_spec (len text) 1000); [lia | reflexivity].
  - destruct (slice_to_long text 1000 Hge) as [E1 E2].
    change (Z.of_nat 1000) with 1000 in E1, E2.
    rewrite E2, E1. reflexivity.
Qed.

Lemma get_file_metadata_tool_preview_witness :
  get_file_metadata_tool mimetypes_excerpt 4096 sample_fs "/a.txt"
  = mkMetadata
      (inr (mkInfo "/a.txt" "a.txt" 11 "text" (Some "hello world") (Some 1)
              None))
      None.
Proof.
  apply (get_file_metadata_tool_preview mimetypes_excerpt 4096 sample_fs
           "/a.txt" "hello world"); reflexivity.
Defined.

(** The metadata tool answers "File not found" exactly for the paths that
    are not regular files, directories included; for a regular file it
    never returns an error payload. *)
Theorem get_file_metadata_tool_error
    (guess_type : string -> option string) (dir_size : Z) (fs : node)
    (file_path : string) :
  (isfile fs file_path = false ->
   get_file_metadata_tool guess_type dir_size fs file_path
   = mkMetadata (inl (Message ("File not found: " ++ file_path))) None)
  /\ (isfile fs file_path = true ->
      exists i,
        info (get_file_metadata_tool guess_type dir_size fs file_path)
        = inr i
        /\ path i = file_path /\ name i = basename file_path
        /\ type i = get_file_type guess_type file_path
        /\ getsize dir_size fs file_path = inr (size i)
        /\ preview_error i = None).
Proof.
  split; intros H; unfold get_file_metadata_tool; rewrite H;
    [reflexivity|].
  destruct (isfile_stat _ _ H) as [c Hs].
  unfold get_file_metadata, read_text, getsize. rewrite Hs. cbn [negb].
  destruct (_ && _); eexists; repeat split.
Qed.

Lemma get_file_metadata_tool_error_witness :
  get_file_metadata_tool mimetypes_excerpt 4096 sample_fs "/sub"
  = mkMetadata (inl (Message "File not found: /sub")) None
  /\ exists i,
       info (get_file_metadata_tool mimetypes_excerpt 4096 sample_fs
               "/e.bin") = inr i
       /\ path i = "/e.bin" /\ name i = basename "/e.bin"
       /\ type i = get_file_type mimetypes_excerpt "/e.bin"
       /\ getsize 4096 sample_fs "/e.bin" = inr (size i)
       /\ preview_error i = None.
Proof.
  split.
  - apply (get_file_metadata_tool_error mimetypes_excerpt 4096 sample_fs
             "/sub").
    reflexivity.
  - apply (get_file_metadata_tool_error mimetypes_excerpt 4096 sample_fs
             "/e.bin").
    reflexivity.
Defined.

(** ** Reading a limited number of lines *)

Lemma readlines_nil t : readlines t = [] -> t = "".
Proof.
  destruct t as [|c t]; [reflexivity|]. simpl.
  destruct (Ascii.eqb c LF); [discriminate|].
  destruct (readlines t); discriminate.
Qed.

Lemma append_nil_r (s : string) : s ++ "" = s.
Proof.
  induction s as [|c s IH]; simpl; [reflexivity | now rewrite IH].
Qed.

Lemma concat_cons (x : string) (l : list string) :
  String.concat "" (x :: l) = x ++ String.concat "" l.
Proof.
  destruct l; simpl; [now rewrite append_nil_r | reflexivity].
Qed.

(** The lines of a text, put together, are the text. *)
Lemma concat_readlines t : String.concat "" (readlines t) = t.
Proof.
  induction t as [|c t IH]; [reflexivity|].
  cbn [readlines].
  destruct (Ascii.eqb c LF).
  - rewrite concat_cons, IH. reflexivity.
  - destruct (readlines t) as [|l ls] eqn:E.
    + apply readlines_nil in E. now subst.
    + rewrite concat_cons in *. simpl. now rewrite IH.
Qed.

Lemma universal_newlines_nil c : universal_newlines c = "" -> c = "".
Proof.
  destruct c as [|a c]; [reflexivity|]. simpl.
  destruct (Ascii.eqb a CR); discriminate.
Qed.

(** The loop stops at the first line it may not take. *)
Lemma read_loop_spec max_lines f : forall next i lines,
  next <= max_lines ->
  read_loop max_lines f next i lines
  = if next + Z.of_nat (List.length f) <=? max_lines
    then (match f with
          | [] => i
          | _ :: _ => Some (next + Z.of_nat (List.length f) - 1)
          end, (lines ++ f)%list)
    else (Some max_lines,
          (lines ++ firstn (Z.to_nat (max_lines - next)) f)%list).
Proof.
  induction f as [|l f IH]; intros next i lines Hle.
  - cbn [read_loop List.length]. rewrite app_nil_r.
    destruct (Z.leb_spec (next + Z.of_nat 0) max_lines); [reflexivity|lia].
  - cbn [read_loop].
    destruct (Z.geb_spec next max_lines) as [Hge|Hlt].
    + assert (next = max_lines) by lia. subst next.
      destruct (Z.leb_spec (max_lines + Z.of_nat (List.length (l :: f)))
                  max_lines) as [H|H];
        [cbn [List.length] in H; lia|].
      rewrite Z.sub_diag. cbn [Z.to_nat firstn]. now rewrite app_nil_r.
    + rewrite IH by lia. cbn [List.length].
      replace (next + 1 + Z.of_nat (List.length f))
        with (next + Z.of_nat (S (List.length f))) by lia.
      destruct (Z.leb_spec (next + Z.of_nat (S (List.length f))) max_lines).
      * rewrite <- app_assoc. cbn [app]. f_equal.
        destruct f; f_equal; cbn [List.length]; lia.
      * replace (Z.to_nat (max_lines - next))
          with (S (Z.to_nat (max_lines - (next + 1)))) by lia.
        cbn [firstn]. rewrite <- app_assoc. reflexivity.
Qed.

(** With a positive [max_lines], a file that is not empty is returned
    whole when it has at most [max_lines] lines; otherwise the content is
    its first [max_lines] lines followed by a marker that names
    [max_lines] and [max_lines + 1].  The size is that of the whole
    file in both cases. *)
Theorem read_text_file_max_lines
    (guess_type : string -> option string) (dir_size : Z) (fs : node)
    (file_path c : string) (max_lines : Z) :
  stat fs file_path = inr (File c) ->
  mem (get_file_type guess_type file_path) textual_types = true ->
  c <> "" ->
  0 < max_lines ->
  read_text_file guess_type dir_size fs file_path (Some max_lines)
  = inr (mkRead file_path (basename file_path)
           (if Z.of_nat (List.length (readlines (universal_newlines c)))
               <=? max_lines
            then universal_newlines c
            else String.concat ""
                   (firstn (Z.to_nat max_lines)
                      (readlines (universal_newlines c)))
                 ++ String LF "... (truncated, showing "
                 ++ of_int max_lines ++ " of " ++ of_int (max_lines + 1)
                 ++ "+ lines)")
           (len c)).
Proof.
  intros Hs Ht Hc Hm.
  unfold read_text_file, isfile, read_text, getsize. rewrite Hs, Ht.
  cbn [negb truthy st_size].
  destruct (Z.eqb_spec max_lines 0) as [|_]; [lia|].
  set (ls := readlines (universal_newlines c)).
  assert (Hls : ls <> []).
  { intros E. apply readlines_nil in E.
    now apply universal_newlines_nil in E. }
  rewrite (read_loop_spec max_lines ls 0 None [] ltac:(lia)).
  cbn [app]. rewrite Z.add_0_l, Z.sub_0_r.
  destruct (Z.leb_spec (Z.of_nat (List.length ls)) max_lines) as [Hle|Hgt].
  - destruct ls as [|l ls'] eqn:E; [now elim Hls|].
    rewrite <- E in *.
    destruct (Z.geb_spec (Z.of_nat (List.length ls) - 1) max_lines)
      as [H|H]; [lia|].
    unfold ls. now rewrite concat_readlines.
  - destruct (Z.geb_spec max_lines max_lines) as [_|H]; [|lia].
    reflexivity.
Qed.

Lemma read_text_file_max_lines_witness :
  read_text_file mimetypes_excerpt 4096 sample_fs "/b.py" (Some 1)
  = inr (mkRead "/b.py" "b.py"
           ("import os" ++ newline ++ newline
            ++ "... (truncated, showing 1 of 2+ lines)")
           25).
Proof.
  apply (read_text_file_max_lines mimetypes_excerpt 4096 sample_fs "/b.py"
           ("import os" ++ newline ++ "print('world')" ++ newline) 1).
  - reflexivity.
  - reflexivity.
  - discriminate.
  - lia.
Defined.

(** Degenerate limits: [max_lines = 0] is no limit at all, and with a
    negative [max_lines] a file that is not empty yields no line, only
    the marker, which then names [max_lines] and 1. *)
Theorem read_text_file_degenerate_max_lines
    (guess_type : string -> option string) (dir_size : Z) (fs : node)
    (file_path c : string) (max_lines : Z) :
  read_text_file guess_type dir_size fs file_path (Some 0)
  = read_text_file guess_type dir_size fs file_path None
  /\ (stat fs file_path = inr (File c) ->
      mem (get_file_type guess_type file_path) textual_types = true ->
      c <> "" ->
      max_lines < 0 ->
      read_text_file guess_type dir_size fs file_path (Some max_lines)
      = inr (mkRead file_path (basename file_path)
               (String LF "... (truncated, showing "
                ++ of_int max_lines ++ " of " ++ of_int 1 ++ "+ lines)")
               (len c))).
Proof.
  split; [reflexivity|].
  intros Hs Ht Hc Hm.
  unfold read_text_file, isfile, read_text, getsize. rewrite Hs, Ht.
  cbn [negb truthy st_size].
  destruct (Z.eqb_spec max_lines 0) as [|_]; [lia|].
  destruct (readlines (universal_newlines c)) as [|l ls] eqn:E.
  - apply readlines_nil in E. now apply universal_newlines_nil in E.
  - cbn [read_loop].
    assert (Hge : (0 >=? max_lines) = true) by (apply Z.geb_le; lia).
    rewrite Hge. cbv iota. rewrite Hge. reflexivity.
Qed.

Lemma read_text_file_degenerate_max_lines_witness :
  read_text_file mimetypes_excerpt 4096 sample_fs "/a.txt" (Some (-2))
  = inr (mkRead "/a.txt" "a.txt"
           (newline ++ "... (truncated, showing -2 of 1+ lines)") 11).
Proof.
  apply (read_text_file_degenerate_max_lines mimetypes_excerpt 4096
           sample_fs "/a.txt" "hello world" (-2)).
  - reflexivity.
  - reflexivity.
  - discriminate.
  - lia.
Defined.

(** ** The result of a write *)

Lemma len_app s t : len (s ++ t) = len s + len t.
Proof.
  unfold len. induction s as [|c s IH]; simpl String.length.
  - simpl. lia.
  - simpl String.append. simpl String.length. lia.
Qed.

(** On a path that can be written, [write_text_file] succeeds and returns
    the size of the resulting file: when appending to an existing regular
    file the old text followed by the new one, and the new text alone when
    overwriting or when the file did not exist. *)
Theorem write_text_file_result (dir_size : Z) (fs : node)
    (file_path content : string) (append : bool) (names : list string) :
  resolve fs file_path = inr names ->
  not_dir (node_at fs names) ->
  exists fs',
    let text :=
      match append, node_at fs names with
      | true, Some (File old) => old ++ content
      | _, _ => content
      end in
    write_text_file dir_size fs file_path content append
    = (inr (mkWrite file_path (basename file_path) (len text)
              (if append then "append" else "write")), fs')
    /\ stat fs' file_path = inr (File text).
Proof.
  intros Hr Hn.
  destruct (write_text_resolved fs file_path append content names Hr Hn)
    as [fs' Hw].
  exists fs'. cbv zeta.
  destruct (write_text_stat _ _ _ _ _ Hw) as [t [Hs [Ht1 [Ht2 Ht3]]]].
  assert (Et : t = match append, node_at fs names with
                   | true, Some (File old) => old ++ content
                   | _, _ => content
                   end).
  { destruct append; [|now apply Ht1].
    destruct (node_at fs names) as [[old|es]|] eqn:E.
    - apply Ht2; [|reflexivity]. unfold stat. now rewrite Hr, E.
    - contradiction.
    - apply Ht3. unfold isfile, stat. now rewrite Hr, E. }
  rewrite <- Et. split; [|exact Hs].
  now apply write_text_file_stat.
Qed.

Lemma write_text_file_result_witness :
  exists fs',
    write_text_file 4096 sample_fs "/a.txt" "!" true
    = (inr (mkWrite "/a.txt" (basename "/a.txt") (len ("hello world" ++ "!"))
              "append"), fs')
    /\ stat fs' "/a.txt" = inr (File ("hello world" ++ "!")).
Proof.
  apply (write_text_file_result 4096 sample_fs "/a.txt" "!" true ["a.txt"]).
  - reflexivity.
  - exact I.
Defined.

(** ** Name search and scan *)

Lemma contains_empty s : contains "" s = true.
Proof.
  unfold contains. destruct s; reflexivity.
Qed.

(** Over a directory, every record name search returns is also returned
    by the scan with the same filter, and the empty query returns exactly
    what the scan returns. *)
Theorem search_files_within_scan
    (guess_type : string -> option string) (dir_size : Z) (fs : node)
    (directory_path query : string) (recursive : bool)
    (file_types : option (list string)) :
  isdir fs directory_path = true ->
  exists found scanned,
    search_files guess_type dir_size fs directory_path query recursive
      file_types = inr found
    /\ scan_directory guess_type dir_size fs directory_path recursive
         file_types = inr scanned
    /\ (forall m, In m found -> In m scanned)
    /\ (query = "" -> found = scanned).
Proof.
  intros Hd.
  rewrite (search_files_walked _ _ _ _ _ _ _ Hd).
  rewrite (scan_directory_walked _ _ _ _ _ _ Hd).
  eexists _, _. split; [reflexivity|]. split; [reflexivity|]. split.
  - intros m Hm. apply in_map_iff in Hm. destruct Hm as [e [<- He]].
    apply filter_In in He. destruct He as [He Hp].
    apply andb_true_iff in Hp. apply in_map. apply filter_In. tauto.
  - intros ->. f_equal. apply filter_ext. intros e.
    unfold name_matches. simpl lower. now rewrite contains_empty.
Qed.

Lemma search_files_within_scan_witness :
  exists found scanned,
    search_files mimetypes_excerpt 4096 sample_fs "/sub" "" true None
    = inr found
    /\ scan_directory mimetypes_excerpt 4096 sample_fs "/sub" true None
       = inr scanned
    /\ (forall m, In m found -> In m scanned)
    /\ ("" = "" -> found = scanned).
Proof.
  apply (search_files_within_scan mimetypes_excerpt 4096 sample_fs "/sub"
           "" true None).
  reflexivity.
Defined.

(** ** Content search: what is opened *)

(** Content search opens only paths whose category passes the filter and
    which are textual by category or by extension, and every record it
    returns belongs to a path it opened. *)
Theorem search_file_contents_opens_candidates
    (guess_type : string -> option string) (dir_size : Z) (fs : node)
    (directory_path query : string) (recursive : bool)
    (file_types : option (list string)) (max_results : Z)
    (st : search_state) :
  search_file_contents_run guess_type dir_size fs directory_path query
    recursive file_types max_results = inr st ->
  (forall p, In p (opened st) ->
     passes file_types (get_file_type guess_type p) = true
     /\ (mem (get_file_type guess_type p) textual_types
         || mem (lower (snd (splitext p))) searchable_extensions = true))
  /\ (forall m, In m (results st) ->
        exists p, recorded_path m = Some p /\ In p (opened st)).
Proof.
  intros Hrun. pattern st.
  eapply search_run_keeps; [| |exact Hrun].
  - clear. intros st file_path _ [IH1 IH2]. unfold search_step.
    destruct (passes _ _ && _) eqn:Hc; [|now split].
    apply andb_true_iff in Hc.
    assert (Hop : forall p, In p (opened st ++ [file_path])%list ->
              passes file_types (get_file_type guess_type p) = true
              /\ (mem (get_file_type guess_type p) textual_types
                  || mem (lower (snd (splitext p))) searchable_extensions
                  = true)).
    { intros p Hp. apply in_app_iff in Hp.
      destruct Hp as [Hp|[<-|[]]]; [now apply IH1 | exact Hc]. }
    assert (Hres : forall m, In m (results st) ->
              exists p, recorded_path m = Some p
                        /\ In p (opened st ++ [file_path])%list).
    { intros m Hm. destruct (IH2 m Hm) as [p [H1 H2]].
      exists p. split; [assumption|]. apply in_app_iff. now left. }
    destruct (read_text fs file_path) as [e|content] eqn:Hr;
      [now split|].
    destruct (contains (lower query) (lower content)); [|now split].
    split; [exact Hop|].
    cbn [results opened]. intros m Hm. apply in_app_iff in Hm.
    destruct Hm as [Hm|[<-|[]]]; [now apply Hres|].
    exists file_path. split.
    + now apply (recorded_path_read _ _ _ _ content).
    + apply in_app_iff. right. now left.
  - split; [intros p [] | intros m []].
Qed.

Lemma search_file_contents_opens_candidates_witness :
  (forall p, In p ["/a.txt"; "/b.py"; "/sub/empty.txt"] ->
     passes None (get_file_type mimetypes_excerpt p) = true
     /\ (mem (get_file_type mimetypes_excerpt p) textual_types
         || mem (lower (snd (splitext p))) searchable_extensions = true))
  /\ (forall m,
        In m (results
                (search_visits mimetypes_excerpt 4096 sample_fs
                   (lower "world") None 5 (walked sample_fs "/" true)
                   initial)) ->
        exists p, recorded_path m = Some p
                  /\ In p ["/a.txt"; "/b.py"; "/sub/empty.txt"]).
Proof.
  apply (search_file_contents_opens_candidates mimetypes_excerpt 4096
           sample_fs "/" "world" true None 5
           (search_visits mimetypes_excerpt 4096 sample_fs (lower "world")
              None 5 (walked sample_fs "/" true) initial)).
  reflexivity.
Defined.

(** The content-search tool answers "Directory not found" when the root
    is not a directory; on a directory it never fails, echoes the query as
    given, and its match count is the length of the list of matches, at
    most [max_results] and zero when that is negative. *)
Theorem search_file_contents_tool_payload
    (guess_type : string -> option string) (dir_size : Z) (fs : node)
    (directory_path query : string) (recursive : bool)
    (file_types : option (list string)) (max_results : Z) :
  (isdir fs directory_path = false ->
   search_file_contents_tool guess_type dir_size fs directory_path query
     recursive file_types max_results
   = inl (Message ("Directory not found: " ++ directory_path)))
  /\ (isdir fs directory_path = true ->
      exists l,
        search_file_contents_tool guess_type dir_size fs directory_path
          query recursive file_types max_results
        = inr (mkSearch directory_path query (Z.of_nat (List.length l))
                 (inr l))
        /\ Z.of_nat (List.length l) <= Z.max 0 max_results).
Proof.
  split; intros Hd; unfold search_file_contents_tool; rewrite Hd;
    [reflexivity|].
  cbn [negb].
  destruct (search_file_contents_run guess_type dir_size fs directory_path
              query recursive file_types max_results) as [e|st] eqn:Hrun.
  - exfalso. unfold search_file_contents_run in Hrun.
    destruct recursive; [discriminate|].
    destruct (isdir_listdir _ _ Hd) as [items Hl]. now rewrite Hl in Hrun.
  - assert (H : count st = Z.of_nat (List.length (results st))
                /\ count st <= Z.max 0 max_results
                /\ (max_results <= count st ->
                    last_opt (opened st) = last_recorded (results st))).
    { apply (search_run_keeps _ _ _ _ _ _ _ _ _ _
               (fun st file_path Hlt Hq =>
                  search_step_cap guess_type dir_size fs (lower query)
                    file_types max_results st file_path Hlt Hq)
               ltac:(simpl; repeat split; lia) Hrun). }
    destruct H as [Hc [Hb _]].
    exists (results st). unfold search_file_contents. rewrite Hrun.
    split; [reflexivity | now rewrite <- Hc].
Qed.

Lemma search_file_contents_tool_payload_witness :
  search_file_contents_tool mimetypes_excerpt 4096 sample_fs "/a.txt"
    "world" true None 5
  = inl (Message "Directory not found: /a.txt")
  /\ exists l,
       search_file_contents_tool mimetypes_excerpt 4096 sample_fs "/"
         "World" true None 1
       = inr (mkSearch "/" "World" (Z.of_nat (List.length l)) (inr l))
       /\ Z.of_nat (List.length l) <= Z.max 0 1.
Proof.
  split.
  - apply (search_file_contents_tool_payload mimetypes_excerpt 4096
             sample_fs "/a.txt" "world" true None 5).
    reflexivity.
  - apply (search_file_contents_tool_payload mimetypes_excerpt 4096
             sample_fs "/" "World" true None 1).
    reflexivity.
Defined.

(** ** Content search: bounds on the match record *)



Lemma substring_prefix q rest :
  String.substring 0 (String.length q) (q ++ rest) = q.
Proof.
  induction q as [|c q IH]; simpl.
  - now destruct rest.
  - now rewrite IH.
Qed.

Lemma substring_skip front : forall n s,
  String.substring (String.length front) n (front ++ s)
  = String.substring 0 n s.
Proof.
  induction front as [|c front IH]; intros n s; simpl;
    [reflexivity | apply IH].
Qed.



Lemma length_append (s t : string) :
  String.length (s ++ t) = (String.length s + String.length t)%nat.
Proof.
  induction s as [|c s IH]; simpl; [reflexivity | now rewrite IH].
Qed.




(** ** Listing a directory *)

(** In a well-formed tree an entry of a directory is found under the
    directory's path joined with the entry's name. *)
Lemma stat_child fs directory_path es x c :
  wf fs = true ->
  stat fs directory_path = inr (Dir es) ->
  In (x, c) es ->
  stat fs (join directory_path x) = inr c.
Proof.
  intros Hw Hs Hin. unfold stat in Hs.
  destruct (resolve fs directory_path) as [e|names] eqn:Hr; [discriminate|].
  destruct (node_at fs names) as [n|] eqn:Hn; [|discriminate].
  injection Hs as ->.
  destruct (wf_Dir _ (wf_node_at _ _ _ Hw Hn)) as [Hv [Hd _]].
  unfold stat.
  rewrite (resolve_join _ _ _ es x Hr Hn).
  - rewrite node_at_app, Hn. cbn [node_at].
    now rewrite (assoc_distinct _ _ _ Hd Hin).
  - rewrite forallb_forall in Hv. apply Hv.
    apply in_map_iff. now exists (x, c).
Qed.

Lemma list_loop_entries guess_type dir_size fs directory_path es :
  wf fs = true ->
  stat fs directory_path = inr (Dir es) ->
  forall l files directories,
    (forall e, In e l -> In e es) ->
    list_loop guess_type dir_size fs directory_path (map fst l) files
      directories
    = inr ((files
            ++ map (file_entry_of guess_type dir_size directory_path)
                 (filter (fun e => negb (is_dir_node (snd e))) l))%list,
           (directories
            ++ map (dir_entry_of directory_path)
                 (filter (fun e => is_dir_node (snd e)) l))%list).
Proof.
  intros Hw Hs.
  induction l as [|[x c] l IH]; intros files directories Hl.
  - simpl. now rewrite !app_nil_r.
  - cbn [map fst list_loop].
    assert (Hc : stat fs (join directory_path x) = inr c).
    { apply (stat_child _ _ es); try assumption. apply Hl. now left. }
    unfold isfile, isdir, getsize. rewrite Hc.
    assert (Hl' : forall e, In e l -> In e es)
      by (intros e He; apply Hl; now right).
    destruct c as [t|es']; cbn [filter snd is_dir_node negb map].
    + rewrite (IH _ _ Hl'). rewrite <- app_assoc. reflexivity.
    + rewrite (IH _ _ Hl'). rewrite <- app_assoc. reflexivity.
Qed.

(** [list_directory] answers "Directory not found" for a path that is not
    a directory.  On a directory of a well-formed tree it reports every
    entry exactly once, in directory order: the regular files with their
    size and category, the sub-directories by name and path, and the two
    counts add up to the number of entries. *)
Theorem list_directory_entries
    (guess_type : string -> option string) (dir_size : Z) (fs : node)
    (directory_path : string) (es : entries) :
  (isdir fs directory_path = false ->
   list_directory guess_type dir_size fs directory_path
   = inl (Message ("Directory not found: " ++ directory_path)))
  /\ (wf fs = true ->
      stat fs directory_path = inr (Dir es) ->
      exists r,
        list_directory guess_type dir_size fs directory_path = inr r
        /\ listing_path r = directory_path
        /\ listing_files r
           = map (file_entry_of guess_type dir_size directory_path)
               (filter (fun e => negb (is_dir_node (snd e))) es)
        /\ listing_directories r
           = map (dir_entry_of directory_path)
               (filter (fun e => is_dir_node (snd e)) es)
        /\ listing_file_count r = Z.of_nat (List.length (listing_files r))
        /\ listing_file_count r + listing_directory_count r
           = Z.of_nat (List.length es)).
Proof.
  split.
  - intros H. unfold list_directory. now rewrite H.
  - intros Hw Hs. unfold list_directory, isdir, listdir. rewrite Hs.
    cbn [negb].
    rewrite (list_loop_entries _ _ _ _ es Hw Hs es [] []) by auto.
    cbn [app]. eexists. split; [reflexivity|].
    cbn [listing_path listing_files listing_directories listing_file_count
         listing_directory_count].
    repeat split.
    rewrite !length_map.
    clear. induction es as [|[x [t|es']] es IH];
      cbn [filter snd is_dir_node negb List.length]; lia.
Qed.

Lemma list_directory_entries_witness :
  list_directory mimetypes_excerpt 4096 sample_fs "/a.txt"
  = inl (Message "Directory not found: /a.txt")
  /\ exists r,
       list_directory mimetypes_excerpt 4096 sample_fs "/sub" = inr r
       /\ listing_path r = "/sub"
       /\ listing_files r
          = map (file_entry_of mimetypes_excerpt 4096 "/sub")
              (filter (fun e => negb (is_dir_node (snd e)))
                 [("empty.txt", File ""); ("report.pdf", File "%PDF-1.4")])
       /\ listing_directories r
          = map (dir_entry_of "/sub")
              (filter (fun e => is_dir_node (snd e))
                 [("empty.txt", File ""); ("report.pdf", File "%PDF-1.4")])
       /\ listing_file_count r = Z.of_nat (List.length (listing_files r))
       /\ listing_file_count r + listing_directory_count r
          = Z.of_nat
              (List.length
                 [("empty.txt", File ""); ("report.pdf", File "%PDF-1.4")]).
Proof.
  split.
  - apply (list_directory_entries mimetypes_excerpt 4096 sample_fs "/a.txt"
             []).
    reflexivity.
  - apply (list_directory_entries mimetypes_excerpt 4096 sample_fs "/sub"
             [("empty.txt", File ""); ("report.pdf", File "%PDF-1.4")]);
      reflexivity.
Defined.

(** ** Recursive and non-recursive walks *)

Lemma walked_flat fs directory_path es :
  wf fs = true ->
  stat fs directory_path = inr (Dir es) ->
  walked fs directory_path false
  = map (pair directory_path) (filenames es).
Proof.
  intros Hw Hs. unfold walked, listdir, filenames. rewrite Hs.
  assert (H : forall l, (forall e, In e l -> In e es) ->
            filter (fun e => isfile fs (join (fst e) (snd e)))
              (map (pair directory_path) (map fst l))
            = map (pair directory_path)
                (map fst (filter (fun e => negb (is_dir_node (snd e))) l))).
  { induction l as [|[x c] l IH]; intros Hl; [reflexivity|].
    cbn [map fst filter snd].
    assert (Hc : stat fs (join directory_path x) = inr c).
    { apply (stat_child _ _ es); try assumption. apply Hl. now left. }
    unfold isfile at 1. rewrite Hc.
    rewrite IH by (intros e He; apply Hl; now right).
    now destruct c. }
  apply H. auto.
Qed.

Lemma walked_deep fs directory_path es :
  stat fs directory_path = inr (Dir es) ->
  exists rest,
    walked fs directory_path true
    = (map (pair directory_path) (filenames es) ++ rest)%list.
Proof.
  intros Hs. unfold walked, walk. rewrite Hs. cbn [walk_node flat_map].
  eexists. reflexivity.
Qed.

(** In a well-formed tree the non-recursive scan of a directory returns
    an initial part of what the recursive scan returns, and so does the
    non-recursive name search with respect to the recursive one. *)
Theorem flat_results_prefix_of_recursive
    (guess_type : string -> option string) (dir_size : Z) (fs : node)
    (directory_path query : string) (file_types : option (list string)) :
  wf fs = true ->
  isdir fs directory_path = true ->
  (exists l more,
      scan_directory guess_type dir_size fs directory_path false file_types
      = inr l
      /\ scan_directory guess_type dir_size fs directory_path true
           file_types = inr (l ++ more)%list)
  /\ (exists l more,
         search_files guess_type dir_size fs directory_path query false
           file_types = inr l
         /\ search_files guess_type dir_size fs directory_path query true
              file_types = inr (l ++ more)%list).
Proof.
  intros Hw Hd. destruct (isdir_stat _ _ Hd) as [es Hs].
  destruct (walked_deep _ _ _ Hs) as [rest Hdeep].
  pose proof (walked_flat _ _ _ Hw Hs) as Hflat.
  split.
  - rewrite !(scan_directory_walked _ _ _ _ _ _ Hd), Hdeep, Hflat.
    rewrite filter_app, map_app. eexists _, _. split; reflexivity.
  - rewrite !(search_files_walked _ _ _ _ _ _ _ Hd), Hdeep, Hflat.
    rewrite filter_app, map_app. eexists _, _. split; reflexivity.
Qed.

Lemma flat_results_prefix_of_recursive_witness :
  (exists l more,
      scan_directory mimetypes_excerpt 4096 sample_fs "/" false None = inr l
      /\ scan_directory mimetypes_excerpt 4096 sample_fs "/" true None
         = inr (l ++ more)%list)
  /\ (exists l more,
         search_files mimetypes_excerpt 4096 sample_fs "/" "t" false None
         = inr l
         /\ search_files mimetypes_excerpt 4096 sample_fs "/" "t" true None
            = inr (l ++ more)%list).
Proof.
  apply (flat_results_prefix_of_recursive mimetypes_excerpt 4096 sample_fs
           "/" "t" None); reflexivity.
Defined.

(** ** What a change of the tree leaves alone *)

Lemma same_kind_refl o : same_kind o o.
Proof. destruct o as [[t|es]|]; simpl; auto. Qed.

Lemma same_kind_dir a b es :
  same_kind a b -> b = Some (Dir es) -> exists es', a = Some (Dir es').
Proof.
  intros H ->. destruct a as [[t|es']|]; simpl in H; try contradiction.
  now exists es'.
Qed.

Lemma same_kind_file a b t :
  same_kind a b -> b = Some (File t) -> a = Some (File t).
Proof.
  intros H ->. destruct a as [[t'|es']|]; simpl in H; try contradiction.
  now subst.
Qed.

Lemma same_kind_none a b :
  same_kind a b -> b = None -> a = None.
Proof.
  intros H ->. destruct a as [[t'|es']|]; simpl in H; try contradiction.
  reflexivity.
Qed.

Lemma assoc_unbind_other x y es :
  x <> y -> assoc y (unbind x es) = assoc y es.
Proof.
  intros Hne. induction es as [|[z n] es IH]; simpl; [reflexivity|].
  destruct (String.eqb_spec x z) as [->|Hxz]; simpl.
  - destruct (String.eqb_spec y z); [now subst | reflexivity].
  - now rewrite IH.
Qed.

Lemma assoc_absent x es : mem x (map fst es) = false -> assoc x es = None.
Proof.
  induction es as [|[z n] es IH]; simpl; [reflexivity|].
  destruct (String.eqb x z); [discriminate | exact IH].
Qed.

Lemma assoc_unbind_same x es :
  distinct (map fst es) = true -> assoc x (unbind x es) = None.
Proof.
  induction es as [|[z n] es IH]; simpl; [reflexivity|].
  rewrite andb_true_iff, negb_true_iff. intros [Hz Hd].
  destruct (String.eqb_spec x z) as [->|Hxz]; simpl.
  - now apply assoc_absent.
  - destruct (String.eqb_spec x z); [contradiction | now apply IH].
Qed.

Lemma node_at_file_below t q : q <> [] -> node_at (File t) q = None.
Proof. destruct q; [now intros [] | reflexivity]. Qed.

(** A regular file put where there was no directory changes no other
    lookup. *)
Lemma put_kind c nd : forall n q,
  not_dir (node_at n nd) -> q <> nd ->
  same_kind (node_at (put n nd (File c)) q) (node_at n q).
Proof.
  induction nd as [|x rest IH]; intros n q Hnd Hq.
  - simpl in Hnd. destruct n as [t|es]; [|contradiction].
    cbn [put]. rewrite !node_at_file_below by assumption. exact I.
  - destruct n as [t|es0]; [apply same_kind_refl|].
    cbn [put]. cbn [node_at] in Hnd.
    destruct q as [|y q'].
    + destruct rest; [exact I|]. destruct (assoc x es0); exact I.
    + destruct (String.eqb_spec x y) as [<-|Hne].
      * destruct rest as [|r rs].
        -- cbn [node_at]. rewrite assoc_bind_same.
           assert (Hq' : q' <> []) by (intros ->; now elim Hq).
           rewrite node_at_file_below by assumption.
           destruct (assoc x es0) as [[t|es1]|]; try contradiction.
           ++ now rewrite node_at_file_below.
           ++ exact I.
        -- destruct (assoc x es0) as [cx|] eqn:E; [|apply same_kind_refl].
           cbn [node_at]. rewrite assoc_bind_same, E.
           apply IH; [assumption|]. intros ->. now elim Hq.
      * assert (Ho : forall new,
                  node_at (Dir (bind x new es0)) (y :: q')
                  = node_at (Dir es0) (y :: q')).
        { intros new. cbn [node_at]. now rewrite assoc_bind_other. }
        destruct rest as [|r rs].
        -- rewrite Ho. apply same_kind_refl.
        -- destruct (assoc x es0); [rewrite Ho|]; apply same_kind_refl.
Qed.

(** Dropping a regular file of a well-formed tree removes it and changes
    no other lookup. *)
Lemma drop_kind c ns : forall n q,
  wf n = true ->
  node_at n ns = Some (File c) ->
  (q = ns -> ns <> [] -> node_at (drop n ns) q = None)
  /\ (q <> ns -> same_kind (node_at (drop n ns) q) (node_at n q)).
Proof.
  induction ns as [|x rest IH]; intros n q Hw Hn.
  - split; [now intros _ [] | intros _; apply same_kind_refl].
  - destruct n as [t|es0]; [discriminate|].
    destruct (wf_Dir _ Hw) as [_ [Hd Hc]].
    cbn [node_at] in Hn. cbn [drop].
    destruct (assoc x es0) as [cx|] eqn:E; [|discriminate].
    assert (Ho : forall y q' es1,
              x <> y -> (forall z, x <> z -> assoc z es1 = assoc z es0) ->
              node_at (Dir es1) (y :: q') = node_at (Dir es0) (y :: q')).
    { intros y q' es1 Hne H. cbn [node_at]. now rewrite H. }
    destruct rest as [|r rs].
    + injection Hn as ->. split.
      * intros -> _. cbn [node_at]. now rewrite assoc_unbind_same.
      * intros Hq. destruct q as [|y q']; [exact I|].
        destruct (String.eqb_spec x y) as [<-|Hne].
        -- cbn [node_at]. rewrite assoc_unbind_same, E by assumption.
           assert (Hq' : q' <> []) by (intros ->; now elim Hq).
           now rewrite node_at_file_below.
        -- rewrite (Ho y q' (unbind x es0) Hne
                      (fun z Hz => assoc_unbind_other x z es0 Hz)).
           apply same_kind_refl.
    + assert (Hwc : wf cx = true) by (apply (Hc x); now apply assoc_In).
      split.
      * intros -> _. cbn [node_at]. rewrite assoc_bind_same.
        apply (IH cx (r :: rs) Hwc Hn); [reflexivity | discriminate].
      * intros Hq. destruct q as [|y q']; [exact I|].
        destruct (String.eqb_spec x y) as [<-|Hne].
        -- cbn [node_at]. rewrite assoc_bind_same, E.
           apply (IH cx q' Hwc Hn). intros ->. now elim Hq.
        -- rewrite (Ho y q' (bind x (drop cx (r :: rs)) es0) Hne
                      (fun z Hz => assoc_bind_other x z _ es0 Hz)).
           apply same_kind_refl.
Qed.

(** Resolution only looks at which paths are directories. *)
Lemma canon_dirs fs fs' :
  (forall q es, node_at fs q = Some (Dir es) ->
                exists es', node_at fs' q = Some (Dir es')) ->
  forall comps cur r,
    canon fs cur comps = inr r -> canon fs' cur comps = inr r.
Proof.
  intros Hd. induction comps as [|x comps IH]; intros cur r; simpl; [auto|].
  destruct (node_at fs cur) as [[?|es]|] eqn:Hcur; try discriminate.
  destruct (Hd _ _ Hcur) as [es' ->].
  destruct (_ || _); [now apply IH|].
  destruct (String.eqb x ".."); now apply IH.
Qed.

Lemma resolve_dirs fs fs' file_path names :
  (forall q es, node_at fs q = Some (Dir es) ->
                exists es', node_at fs' q = Some (Dir es')) ->
  resolve fs file_path = inr names -> resolve fs' file_path = inr names.
Proof.
  intros Hd. unfold resolve.
  destruct (String.eqb file_path ""); [discriminate|].
  now apply canon_dirs.
Qed.

Lemma resolve_root fs file_path names :
  resolve fs file_path = inr names -> exists es, fs = Dir es.
Proof.
  unfold resolve. destruct (String.eqb file_path ""); [discriminate|].
  destruct (split sep file_path) as [|x comps] eqn:E;
    [now apply split_not_nil in E|].
  simpl. destruct fs as [t|es]; [discriminate|]. now exists es.
Qed.

Lemma stat_inv fs file_path n :
  stat fs file_path = inr n ->
  exists names, resolve fs file_path = inr names
                /\ node_at fs names = Some n.
Proof.
  unfold stat. destruct (resolve fs file_path) as [e|names]; [discriminate|].
  destruct (node_at fs names) as [m|] eqn:E; [|discriminate].
  intros H. injection H as ->. now exists names.
Qed.

Lemma samefile_false fs a b na nb n :
  samefile fs a b = false ->
  resolve fs a = inr na -> node_at fs na = Some n ->
  resolve fs b = inr nb -> na <> nb.
Proof.
  unfold samefile. intros H Ha Hn Hb. rewrite Ha, Hb, Hn in H.
  destruct (list_eq_dec string_dec na nb); [discriminate | assumption].
Qed.

(** ** Deleting a file *)

(** In a well-formed tree [delete_file] on a regular file succeeds and
    reports the name and the size the file had; afterwards the path no
    longer exists, a second [delete_file] answers "File not found", every
    other regular file keeps its text and every directory stays. *)
Theorem delete_file_removes (dir_size : Z) (fs : node)
    (file_path c : string) :
  wf fs = true ->
  stat fs file_path = inr (File c) ->
  exists fs',
    delete_file dir_size fs file_path
    = (inr (mkDeleted file_path (basename file_path) (len c)), fs')
    /\ exists_ fs' file_path = false
    /\ delete_file dir_size fs' file_path
       = (inl (Message ("File not found: " ++ file_path)), fs')
    /\ (forall q t,
          stat fs q = inr (File t) -> samefile fs q file_path = false ->
          stat fs' q = inr (File t))
    /\ (forall q, isdir fs q = true -> isdir fs' q = true).
Proof.
  intros Hw Hs.
  destruct (stat_inv _ _ _ Hs) as [ns [Hr Hn]].
  assert (Hne : ns <> []).
  { destruct (resolve_root _ _ _ Hr) as [es ->].
    intros ->. discriminate. }
  exists (drop fs ns).
  assert (Hdirs : forall q es, node_at fs q = Some (Dir es) ->
            exists es', node_at (drop fs ns) q = Some (Dir es')).
  { intros q es Hq.
    assert (Hqn : q <> ns) by (intros ->; congruence).
    apply (same_kind_dir _ _ es
             (proj2 (drop_kind c ns fs q Hw Hn) Hqn) Hq). }
  assert (Hgone : stat (drop fs ns) file_path = inl FileNotFoundError).
  { unfold stat. rewrite (resolve_dirs _ _ _ _ Hdirs Hr).
    now rewrite (proj1 (drop_kind c ns fs ns Hw Hn) eq_refl Hne). }
  split; [|split; [|split; [|split]]].
  - unfold delete_file, isfile, getsize, remove. now rewrite Hs, Hr, Hn.
  - unfold exists_. now rewrite Hgone.
  - unfold delete_file, isfile. now rewrite Hgone.
  - intros q t Hq Hsame.
    destruct (stat_inv _ _ _ Hq) as [nq [Hrq Hnq]].
    pose proof (samefile_false _ _ _ _ _ _ Hsame Hrq Hnq Hr) as Hdiff.
    unfold stat. rewrite (resolve_dirs _ _ _ _ Hdirs Hrq).
    now rewrite (same_kind_file _ _ t
                   (proj2 (drop_kind c ns fs nq Hw Hn) Hdiff) Hnq).
  - intros q Hq. destruct (isdir_stat _ _ Hq) as [es Hsq].
    destruct (stat_inv _ _ _ Hsq) as [nq [Hrq Hnq]].
    destruct (Hdirs _ _ Hnq) as [es' Hes'].
    unfold isdir, stat. now rewrite (resolve_dirs _ _ _ _ Hdirs Hrq), Hes'.
Qed.

Lemma delete_file_removes_witness :
  exists fs',
    delete_file 4096 sample_fs "/sub/report.pdf"
    = (inr (mkDeleted "/sub/report.pdf" (basename "/sub/report.pdf")
              (len "%PDF-1.4")), fs')
    /\ exists_ fs' "/sub/report.pdf" = false
    /\ delete_file 4096 fs' "/sub/report.pdf"
       = (inl (Message ("File not found: " ++ "/sub/report.pdf")), fs')
    /\ (forall q t,
          stat sample_fs q = inr (File t) ->
          samefile sample_fs q "/sub/report.pdf" = false ->
          stat fs' q = inr (File t))
    /\ (forall q, isdir sample_fs q = true -> isdir fs' q = true).
Proof.
  apply (delete_file_removes 4096 sample_fs "/sub/report.pdf" "%PDF-1.4");
    reflexivity.
Defined.

(** ** What a copy leaves alone *)

Lemma write_text_inv fs file_path append content fs' :
  write_text fs file_path append content = inr fs' ->
  exists nd text,
    resolve fs file_path = inr nd
    /\ not_dir (node_at fs nd)
    /\ fs' = put fs nd (File text)
    /\ (append = false -> text = content).
Proof.
  unfold write_text.
  destruct (resolve fs file_path) as [e|nd]; [discriminate|].
  destruct (node_at fs nd) as [[old|es]|] eqn:E; try discriminate;
    intros H; injection H as <-; eexists nd, _;
    (split; [reflexivity|]); rewrite E;
    (split; [exact I|]); (split; [reflexivity|]).
  - now intros ->.
  - reflexivity.
Qed.

(** After a regular file is put where there was no directory, a path
    that was a regular file still is one, with its old text or, if it is
    the place written, the new text; and directories stay. *)
Lemma put_file_stat fs nd text :
  not_dir (node_at fs nd) ->
  (forall q t, stat fs q = inr (File t) ->
     stat (put fs nd (File text)) q = inr (File t)
     \/ stat (put fs nd (File text)) q = inr (File text))
  /\ (forall q, isdir fs q = true -> isdir (put fs nd (File text)) q = true).
Proof.
  intros Hnd.
  assert (Hdirs : forall q es, node_at fs q = Some (Dir es) ->
            exists es', node_at (put fs nd (File text)) q = Some (Dir es')).
  { intros q es. now apply dir_at_put. }
  split.
  - intros q t Hq. destruct (stat_inv _ _ _ Hq) as [nq [Hrq Hnq]].
    unfold stat. rewrite (resolve_dirs _ _ _ _ Hdirs Hrq).
    destruct (list_eq_dec string_dec nq nd) as [->|Hne].
    + right. rewrite node_at_put_same; [reflexivity|].
      destruct nd as [|x nd']; [now left | right].
      apply (node_at_parent _ _ _ Hnq). discriminate.
    + left. now rewrite (same_kind_file _ _ t
                           (put_kind text nd fs nq Hnd Hne) Hnq).
  - intros q Hq. destruct (isdir_stat _ _ Hq) as [es Hsq].
    destruct (stat_inv _ _ _ Hsq) as [nq [Hrq Hnq]].
    destruct (Hdirs _ _ Hnq) as [es' Hes'].
    unfold isdir, stat. now rewrite (resolve_dirs _ _ _ _ Hdirs Hrq), Hes'.
Qed.

Lemma isdir_makedirs dirs fs fs' q :
  makedirs fs dirs = inr fs' -> isdir fs q = true -> isdir fs' q = true.
Proof.
  intros Hm Hq. destruct (isdir_stat _ _ Hq) as [es Hsq].
  destruct (stat_inv _ _ _ Hsq) as [nq [Hrq Hnq]].
  destruct (makedirs_dir_at _ _ _ _ _ Hm Hnq) as [es' Hes'].
  unfold isdir, stat.
  rewrite (resolve_dirs fs fs' q nq
             (fun q0 es0 H => makedirs_dir_at _ _ _ _ _ Hm H) Hrq).
  now rewrite Hes'.
Qed.

(** A successful [copy_file] leaves the source as it was, removes
    nothing, and changes no regular file other than the one it writes:
    every path that was a regular file still is one, with its old text or
    with the text of the source; every directory stays a directory. *)
Theorem copy_file_keeps_files (dir_size : Z) (fs : node)
    (source_path destination_path : string) (overwrite : bool)
    (r : copy_result) (fs2 : node) :
  copy_file dir_size fs source_path destination_path overwrite
  = (inr r, fs2) ->
  exists c,
    stat fs source_path = inr (File c)
    /\ stat fs2 source_path = inr (File c)
    /\ (forall q t, stat fs q = inr (File t) ->
          stat fs2 q = inr (File t) \/ stat fs2 q = inr (File c))
    /\ (forall q, isdir fs q = true -> isdir fs2 q = true).
Proof.
  unfold copy_file.
  destruct (isfile fs source_path) eqn:Hs; [|discriminate]. cbn [negb].
  destruct (exists_ fs destination_path && negb overwrite); [discriminate|].
  destruct (makedirs fs _) as [e|fs1] eqn:Hm; [discriminate|].
  destruct (copy2 fs1 source_path destination_path) as [e|fs2'] eqn:Hc;
    [discriminate|].
  destruct (getsize dir_size fs2' destination_path); [discriminate|].
  intros H. injection H as _ <-.
  destruct (isfile_stat _ _ Hs) as [c Hsrc]. exists c.
  pose proof (stat_makedirs_file _ _ _ _ _ Hm Hsrc) as Hsrc1.
  unfold copy2 in Hc. rewrite Hsrc1 in Hc.
  destruct (samefile fs1 source_path _); [discriminate|].
  destruct (write_text_inv _ _ _ _ _ Hc) as [nd [text [Hr [Hnd [-> Ht]]]]].
  rewrite (Ht eq_refl) in *. clear Ht text.
  destruct (put_file_stat fs1 nd c Hnd) as [Hfiles Hdirs].
  split; [exact Hsrc|]. split; [|split].
  - destruct (Hfiles _ _ Hsrc1); assumption.
  - intros q t Hq. apply Hfiles.
    now apply (stat_makedirs_file _ _ _ _ _ Hm).
  - intros q Hq. apply Hdirs. now apply (isdir_makedirs _ _ _ _ Hm).
Qed.

Lemma copy_file_keeps_files_witness :
  exists c,
    stat sample_fs "/a.txt" = inr (File c)
    /\ stat (put sample_fs ["e.bin"] (File "hello world")) "/a.txt"
       = inr (File c)
    /\ (forall q t, stat sample_fs q = inr (File t) ->
          stat (put sample_fs ["e.bin"] (File "hello world")) q
          = inr (File t)
          \/ stat (put sample_fs ["e.bin"] (File "hello world")) q
             = inr (File c))
    /\ (forall q, isdir sample_fs q = true ->
          isdir (put sample_fs ["e.bin"] (File "hello world")) q = true).
Proof.
  apply (copy_file_keeps_files 4096 sample_fs "/a.txt" "/e.bin" true
           (mkCopy "/a.txt" "/e.bin" 11)
           (put sample_fs ["e.bin"] (File "hello world"))).
  reflexivity.
Defined.

(** ** Well-formed trees and [makedirs] *)

Lemma wf_Dir_intro es :
  forallb valid_name (map fst es) = true ->
  distinct (map fst es) = true ->
  (forall x c, In (x, c) es -> wf c = true) ->
  wf (Dir es) = true.
Proof.
  intros Hv Hd Hc. cbn [wf]. rewrite Hv, Hd. cbn [andb].
  induction es as [|[y n] es IH]; [reflexivity|].
  simpl in Hv, Hd. rewrite andb_true_iff in Hv, Hd.
  rewrite (Hc y n) by now left. cbn [andb].
  apply IH; try tauto. intros x c H. apply (Hc x c). now right.
Qed.

Lemma bind_names x new es :
  map fst (bind x new es)
  = if mem x (map fst es) then map fst es else (map fst es ++ [x])%list.
Proof.
  induction es as [|[y n] es IH]; [reflexivity|].
  cbn [bind map fst mem existsb].
  destruct (String.eqb x y) eqn:E; cbn [orb map fst].
  - reflexivity.
  - rewrite IH. fold (mem x (map fst es)).
    now destruct (mem x (map fst es)).
Qed.

Lemma In_bind x new es y c :
  In (y, c) (bind x new es) -> (y = x /\ c = new) \/ In (y, c) es.
Proof.
  induction es as [|[z n] es IH]; simpl.
  - intros [H|[]]. injection H as <- <-. now left.
  - destruct (String.eqb_spec x z) as [->|Hne]; simpl.
    + intros [H|H]; [injection H as <- <-; now left | right; now right].
    + intros [H|H]; [right; now left|].
      destruct (IH H) as [?|?]; [now left | right; now right].
Qed.

Lemma distinct_snoc l x :
  distinct l = true -> mem x l = false -> distinct (l ++ [x]) = true.
Proof.
  induction l as [|y l IH]; intros Hd Hm; [reflexivity|].
  cbn [distinct app] in *. rewrite andb_true_iff, negb_true_iff in *.
  cbn [mem existsb] in Hm. apply orb_false_iff in Hm.
  destruct Hm as [Hxy Hm]. destruct Hd as [Hy Hd].
  split; [|now apply IH].
  unfold mem in *. rewrite existsb_app, Hy. cbn [existsb orb].
  rewrite String.eqb_sym, Hxy. reflexivity.
Qed.

Lemma wf_bind x new es :
  wf (Dir es) = true -> valid_name x = true -> wf new = true ->
  wf (Dir (bind x new es)) = true.
Proof.
  intros Hw Hx Hn. destruct (wf_Dir _ Hw) as [Hv [Hd Hc]].
  apply wf_Dir_intro.
  - rewrite bind_names. destruct (mem x (map fst es)); [assumption|].
    rewrite forallb_app, Hv. cbn. now rewrite Hx.
  - rewrite bind_names. destruct (mem x (map fst es)) eqn:E; [assumption|].
    now apply distinct_snoc.
  - intros y c H. destruct (In_bind _ _ _ _ _ H) as [[_ ->]|H'];
      [assumption | now apply (Hc y)].
Qed.

Lemma wf_makedirs comps : forall n n',
  wf n = true -> forallb valid_name comps = true ->
  makedirs n comps = inr n' -> wf n' = true.
Proof.
  induction comps as [|c comps IH]; intros n n' Hw Hv; cbn [makedirs].
  - destruct n; [discriminate|]. intros H. now injection H as <-.
  - destruct n as [t|es]; [discriminate|].
    cbn [forallb] in Hv. apply andb_true_iff in Hv. destruct Hv as [Hc Hv].
    destruct (makedirs _ comps) as [e|child'] eqn:Hm; [discriminate|].
    intros H. injection H as <-.
    apply wf_bind; try assumption.
    refine (IH _ _ _ Hv Hm).
    destruct (assoc c es) as [child|] eqn:E; [|reflexivity].
    destruct (wf_Dir _ Hw) as [_ [_ Hch]].
    apply (Hch c). now apply assoc_In.
Qed.

Lemma rfind_from_absent c s : forall i j,
  0 <= i -> 0 <= j -> rfind_from i c s < 0 -> rfind_from j c s < 0.
Proof.
  induction s as [|a s IH]; intros i j Hi Hj; simpl; [lia|].
  destruct (Z.leb_spec 0 (rfind_from (i + 1) c s)) as [H|H]; [lia|].
  destruct (Ascii.eqb a c); [lia|]. intros _.
  pose proof (IH (i + 1) (j + 1) ltac:(lia) ltac:(lia) H) as H'.
  destruct (Z.leb_spec 0 (rfind_from (j + 1) c s)); lia.
Qed.

(** No component of a split path holds the separator. *)
Lemma split_components c s :
  forall w, In w (split c s) -> rfind w c < 0.
Proof.
  unfold rfind. induction s as [|a s IH]; intros w; cbn [split].
  - intros [<-|[]]. simpl. lia.
  - destruct (Ascii.eqb_spec a c) as [->|Hne].
    + intros [<-|H]; [simpl; lia | now apply IH].
    + destruct (split c s) as [|w0 ws] eqn:E;
        [now apply split_not_nil in E|].
      intros [<-|H]; [|apply IH; now right].
      cbn [rfind_from].
      pose proof (rfind_from_absent c w0 0 (0 + 1) ltac:(lia) ltac:(lia)
                    (IH w0 (or_introl eq_refl))) as H0.
      destruct (Z.leb_spec 0 (rfind_from (0 + 1) c w0)); [lia|].
      destruct (Ascii.eqb_spec a c); [contradiction | lia].
Qed.

Lemma forallb_removelast {A : Type} (f : A -> bool) (l : list A) :
  forallb f l = true -> forallb f (removelast l) = true.
Proof.
  induction l as [|x l IH]; [reflexivity|].
  cbn [forallb]. rewrite andb_true_iff. intros [Hx Hl].
  destruct l as [|y l]; [reflexivity|].
  cbn [removelast forallb]. cbn [removelast] in IH.
  rewrite Hx. now apply IH.
Qed.

Lemma normcomps_valid comps : forall acc,
  forallb valid_name acc = true ->
  (forall w, In w comps -> rfind w sep < 0) ->
  forallb valid_name (normcomps acc comps) = true.
Proof.
  induction comps as [|c comps IH]; intros acc Ha Hc; cbn [normcomps];
    [assumption|].
  assert (Hc' : forall w, In w comps -> rfind w sep < 0)
    by (intros w H; apply Hc; now right).
  destruct (String.eqb c "" || String.eqb c ".") eqn:E1; [now apply IH|].
  destruct (String.eqb c "..") eqn:E2.
  - apply IH; [now apply forallb_removelast | assumption].
  - apply IH; [|assumption].
    rewrite forallb_app, Ha. cbn [forallb andb]. rewrite andb_true_r.
    apply orb_false_iff in E1. destruct E1 as [E0 E1].
    unfold valid_name. rewrite E0, E1, E2. cbn [negb andb].
    apply Z.ltb_lt. apply Hc. now left.
Qed.

Lemma dirname_abspath_valid file_path :
  forallb valid_name (dirname (abspath file_path)) = true.
Proof.
  unfold dirname, abspath. apply forallb_removelast.
  apply normcomps_valid; [reflexivity | apply split_components].
Qed.

(** Where resolution succeeds it agrees with the lexical normal form. *)
Lemma canon_normcomps fs comps : forall cur r,
  canon fs cur comps = inr r -> normcomps cur comps = r.
Proof.
  induction comps as [|c comps IH]; intros cur r; cbn [canon normcomps].
  - intros H. now injection H.
  - destruct (node_at fs cur) as [[?|?]|]; try discriminate.
    destruct (_ || _); [apply IH|].
    destruct (String.eqb c ".."); apply IH.
Qed.

Lemma resolve_abspath fs file_path names :
  resolve fs file_path = inr names -> abspath file_path = names.
Proof.
  unfold resolve, abspath.
  destruct (String.eqb file_path ""); [discriminate|].
  apply canon_normcomps.
Qed.

Lemma bind_assoc_id x c es : assoc x es = Some c -> bind x c es = es.
Proof.
  induction es as [|[y n] es IH]; simpl; [discriminate|].
  destruct (String.eqb_spec x y) as [->|Hne].
  - intros H. now injection H as ->.
  - intros H. now rewrite IH.
Qed.

(** [makedirs] on a directory that is there changes nothing. *)
Lemma makedirs_existing comps : forall n es,
  node_at n comps = Some (Dir es) -> makedirs n comps = inr n.
Proof.
  induction comps as [|c comps IH]; intros n es; cbn [node_at makedirs].
  - intros H. now injection H as ->.
  - destruct n as [t|es0]; [discriminate|].
    destruct (assoc c es0) as [child|] eqn:E; [|discriminate].
    intros H. rewrite (IH _ _ H). now rewrite (bind_assoc_id _ _ _ E).
Qed.

(** The parent directories of a path that resolves are there. *)
Lemma makedirs_resolved fs file_path names :
  resolve fs file_path = inr names ->
  makedirs fs (dirname (abspath file_path)) = inr fs.
Proof.
  intros Hr. rewrite (resolve_abspath _ _ _ Hr). unfold dirname.
  unfold resolve in Hr.
  destruct (String.eqb file_path ""); [discriminate|].
  destruct (canon_result _ _ _ _ (split_not_nil _ _) Hr) as [[es H]|[_ [es H]]].
  - destruct (dir_at_parent _ _ _ H) as [es' H'].
    now apply (makedirs_existing _ _ es').
  - now apply (makedirs_existing _ _ es).
Qed.

(** ** Moving a file *)

Lemma samefile_true fs a b :
  samefile fs a b = true ->
  exists names n,
    resolve fs a = inr names /\ resolve fs b = inr names
    /\ node_at fs names = Some n.
Proof.
  unfold samefile.
  destruct (resolve fs a) as [e|na]; [discriminate|].
  destruct (resolve fs b) as [e|nb]; [discriminate|].
  destruct (node_at fs na) as [n|] eqn:E; [|discriminate].
  destruct (list_eq_dec string_dec na nb) as [<-|]; [|discriminate].
  intros _. now exists na, n.
Qed.

Lemma samefile_same fs a b names n :
  resolve fs a = inr names -> resolve fs b = inr names ->
  node_at fs names = Some n -> samefile fs a b = true.
Proof.
  intros Ha Hb Hn. unfold samefile. rewrite Ha, Hb, Hn.
  now destruct (list_eq_dec string_dec names names).
Qed.

(** What [shutil.move] does with a regular file and a target that is not
    a directory: nothing when both are the same file, and otherwise the
    file leaves its place and takes the target's. *)
Lemma rename_or_copy_inv fs src real c fs2 :
  stat fs src = inr (File c) ->
  isdir fs real = false ->
  rename_or_copy fs src real = inr fs2 ->
  exists ns nd,
    resolve fs src = inr ns /\ node_at fs ns = Some (File c)
    /\ resolve fs real = inr nd /\ not_dir (node_at fs nd)
    /\ ((ns = nd /\ fs2 = fs)
        \/ (ns <> nd /\ fs2 = put (drop fs ns) nd (File c))).
Proof.
  intros Hs Hd. destruct (stat_inv _ _ _ Hs) as [ns [Hr Hn]].
  unfold rename_or_copy, rename. rewrite Hr, Hn.
  destruct (resolve fs real) as [e|nd] eqn:Hrd.
  - unfold copy2. rewrite Hd. cbv zeta. unfold samefile.
    rewrite Hr, Hrd, Hs. unfold write_text. rewrite Hrd. discriminate.
  - assert (Hnd : not_dir (node_at fs nd)).
    { unfold isdir, stat in Hd. rewrite Hrd in Hd.
      destruct (node_at fs nd) as [[t|es]|]; simpl; auto. discriminate. }
    destruct (list_eq_dec string_dec ns nd) as [<-|Hne].
    + intros H. injection H as <-. exists ns, ns. repeat split; auto.
    + destruct (node_at fs nd) as [[t|es]|] eqn:E; try contradiction;
        intros H; injection H as <-; exists ns, nd;
        rewrite ?E; repeat split; auto.
Qed.

(** The tree after a regular file has moved from [ns] to [nd]. *)
Lemma moved_tree fs ns nd c :
  wf fs = true ->
  node_at fs ns = Some (File c) ->
  not_dir (node_at fs nd) ->
  (nd <> [] /\ exists es, node_at fs (removelast nd) = Some (Dir es)) ->
  ns <> nd ->
  let fs2 := put (drop fs ns) nd (File c) in
  (forall q es, node_at fs q = Some (Dir es) ->
                exists es', node_at fs2 q = Some (Dir es'))
  /\ node_at fs2 nd = Some (File c)
  /\ node_at fs2 ns = None
  /\ (forall q t, node_at fs q = Some (File t) -> q <> ns -> q <> nd ->
        node_at fs2 q = Some (File t)).
Proof.
  intros Hw Hn Hnd [Hne [esp Hp]] Hdiff fs2.
  assert (Hns : ns <> []).
  { intros ->. destruct nd as [|x nd']; [now elim Hne|].
    simpl in Hn. injection Hn as ->.
    destruct nd'; simpl in Hp; discriminate. }
  assert (Hk : forall q, q <> ns ->
            same_kind (node_at (drop fs ns) q) (node_at fs q)).
  { intros q Hq. now apply (drop_kind c ns fs q Hw Hn). }
  assert (Hd1 : forall q es, node_at fs q = Some (Dir es) ->
            exists es', node_at (drop fs ns) q = Some (Dir es')).
  { intros q es Hq. apply (same_kind_dir _ _ es (Hk q ltac:(congruence)) Hq). }
  assert (Hnd1 : not_dir (node_at (drop fs ns) nd)).
  { pose proof (Hk nd ltac:(congruence)) as H.
    destruct (node_at (drop fs ns) nd) as [[t|es]|]; simpl; auto.
    destruct (node_at fs nd) as [[t'|es']|]; simpl in *; auto. }
  split; [|split; [|split]].
  - intros q es Hq. destruct (Hd1 _ _ Hq) as [es1 H1].
    now apply (dir_at_put c nd _ q es1).
  - apply node_at_put_same. right.
    destruct (Hd1 _ _ Hp) as [es1 H1]. now exists es1.
  - apply (same_kind_none _ _ (put_kind c nd _ ns Hnd1 Hdiff)).
    now apply (drop_kind c ns fs ns Hw Hn).
  - intros q t Hq Hq1 Hq2.
    apply (same_kind_file _ _ t (put_kind c nd _ q Hnd1 Hq2)).
    apply (same_kind_file _ _ t (Hk q Hq1) Hq).
Qed.

Lemma resolve_parent fs file_path nd :
  resolve fs file_path = inr nd ->
  not_dir (node_at fs nd) ->
  nd <> [] /\ exists es, node_at fs (removelast nd) = Some (Dir es).
Proof.
  unfold resolve. destruct (String.eqb file_path ""); [discriminate|].
  intros Hr Hnd.
  destruct (canon_result _ _ _ _ (split_not_nil _ _) Hr) as [[es H]|H].
  - rewrite H in Hnd. contradiction.
  - exact H.
Qed.

(** A directory found after [makedirs] was there before, or lies on the
    path that was made. *)
Lemma makedirs_dir_new comps : forall n n' q es',
  makedirs n comps = inr n' ->
  node_at n' q = Some (Dir es') ->
  (exists es, node_at n q = Some (Dir es))
  \/ (exists rest, comps = (q ++ rest)%list).
Proof.
  induction comps as [|c rest IH]; intros n n' q es' Hm Hq.
  - simpl in Hm. destruct n; [discriminate|]. injection Hm as <-.
    left. now exists es'.
  - simpl in Hm. destruct n as [t|es]; [discriminate|].
    destruct (makedirs _ rest) as [e|child'] eqn:Hc; [discriminate|].
    injection Hm as <-.
    destruct q as [|x q'].
    + right. now exists (c :: rest).
    + simpl in Hq. destruct (String.eqb_spec c x) as [->|Hne].
      * rewrite assoc_bind_same in Hq.
        destruct (IH _ _ _ _ Hc Hq) as [[es0 H0]|[r ->]].
        -- destruct (assoc x es) as [child|] eqn:Ea.
           ++ left. exists es0. simpl. now rewrite Ea.
           ++ destruct q'; [right; now exists rest | simpl in H0; discriminate].
        -- right. now exists r.
      * rewrite (assoc_bind_other c x) in Hq by assumption.
        left. now exists es'.
Qed.

(** [makedirs] for a destination that is already there changes nothing. *)
Lemma makedirs_kept fs file_path nd fs1 n :
  makedirs fs (dirname (abspath file_path)) = inr fs1 ->
  resolve fs1 file_path = inr nd ->
  node_at fs nd = Some n -> fs1 = fs.
Proof.
  intros Hm Hr Hn. rewrite (resolve_abspath _ _ _ Hr) in Hm.
  unfold dirname in Hm. destruct nd as [|x nd'].
  - simpl in Hm. destruct fs; [discriminate|]. now injection Hm.
  - destruct (node_at_parent _ _ _ Hn ltac:(discriminate)) as [es He].
    rewrite (makedirs_existing _ _ _ He) in Hm. now injection Hm.
Qed.

Lemma isdir_makedirs_back fs file_path fs1 :
  makedirs fs (dirname (abspath file_path)) = inr fs1 ->
  isdir fs1 file_path = true -> isdir fs file_path = true.
Proof.
  intros Hm Hd. destruct (isdir_stat _ _ Hd) as [es Hs].
  destruct (stat_inv _ _ _ Hs) as [nd [Hr Hn]].
  assert (H : exists es0, node_at fs nd = Some (Dir es0)).
  { pose proof Hm as Hm'. rewrite (resolve_abspath _ _ _ Hr) in Hm'.
    unfold dirname in Hm'.
    destruct (makedirs_dir_new _ _ _ _ _ Hm' Hn) as [H|[rest Hrest]];
      [exact H|].
    destruct nd as [|x nd'].
    - simpl in Hm'. destruct fs as [t|es0]; [discriminate|]. now exists es0.
    - exfalso.
      assert (Hne : x :: nd' <> []) by discriminate.
      pose proof (app_removelast_last "" Hne) as Hl.
      apply (f_equal (@List.length string)) in Hl, Hrest.
      rewrite !length_app in *. simpl in *. lia. }
  destruct H as [es0 H0]. now rewrite (makedirs_kept _ _ _ _ _ Hm Hr H0) in Hd.
Qed.

Lemma samefile_exists fs a b :
  samefile fs a b = true -> exists_ fs b = true.
Proof.
  intros H. destruct (samefile_true _ _ _ H) as [names [n [_ [Hb Hn]]]].
  unfold exists_, stat. now rewrite Hb, Hn.
Qed.

Lemma samefile_file_dir fs a b c :
  stat fs a = inr (File c) -> isdir fs b = true -> samefile fs a b = false.
Proof.
  intros Ha Hb. destruct (samefile fs a b) eqn:E; [|reflexivity].
  destruct (samefile_true _ _ _ E) as [names [n [Hra [Hrb Hn]]]].
  unfold stat in Ha. unfold isdir, stat in Hb.
  rewrite Hra, Hn in Ha. rewrite Hrb, Hn in Hb.
  injection Ha as ->. discriminate.
Qed.

(** The regular-file branch of [shutil.move] towards a target that is no
    directory and not the source itself. *)
Lemma rename_or_copy_effect fs src target c fs2 :
  wf fs = true ->
  stat fs src = inr (File c) ->
  isdir fs target = false ->
  samefile fs src target = false ->
  rename_or_copy fs src target = inr fs2 ->
  stat fs2 target = inr (File c)
  /\ exists_ fs2 src = false
  /\ (forall q t, stat fs q = inr (File t) ->
        samefile fs q src = true
        \/ stat fs2 q = inr (File t) \/ stat fs2 q = inr (File c))
  /\ (forall q, isdir fs q = true -> isdir fs2 q = true).
Proof.
  intros Hw Hs Hd Hsame Hmv.
  destruct (rename_or_copy_inv _ _ _ _ _ Hs Hd Hmv)
    as [ns [nd [Hr [Hn [Hrd [Hnd [[-> _]|[Hne ->]]]]]]]].
  { now rewrite (samefile_same _ _ _ _ _ Hr Hrd Hn) in Hsame. }
  pose proof (moved_tree fs ns nd c Hw Hn Hnd
                (resolve_parent _ _ _ Hrd Hnd) Hne) as H.
  cbv zeta in H. destruct H as [Hdirs [Hat [Hgone Hrest]]].
  split; [|split; [|split]].
  - unfold stat. now rewrite (resolve_dirs _ _ _ _ Hdirs Hrd), Hat.
  - unfold exists_, stat. now rewrite (resolve_dirs _ _ _ _ Hdirs Hr), Hgone.
  - intros q t Hq. destruct (stat_inv _ _ _ Hq) as [nq [Hrq Hnq]].
    destruct (list_eq_dec string_dec nq ns) as [->|Hq1].
    { left. exact (samefile_same _ _ _ _ _ Hrq Hr Hnq). }
    right. unfold stat. rewrite (resolve_dirs _ _ _ _ Hdirs Hrq).
    destruct (list_eq_dec string_dec nq nd) as [->|Hq2].
    + right. now rewrite Hat.
    + left. now rewrite (Hrest _ _ Hnq Hq1 Hq2).
  - intros q Hq. destruct (isdir_stat _ _ Hq) as [es Hsq].
    destruct (stat_inv _ _ _ Hsq) as [nq [Hrq Hnq]].
    destruct (Hdirs _ _ Hnq) as [es' Hes'].
    unfold isdir, stat. now rewrite (resolve_dirs _ _ _ _ Hdirs Hrq), Hes'.
Qed.

(** [samefile] before and after [makedirs], for a first path that was a
    regular file. *)
Lemma samefile_makedirs dirs fs fs1 q src t c :
  makedirs fs dirs = inr fs1 ->
  stat fs q = inr (File t) -> stat fs src = inr (File c) ->
  samefile fs1 q src = true -> samefile fs q src = true.
Proof.
  intros Hm Hq Hs H.
  destruct (stat_inv _ _ _ Hq) as [nq [Hrq Hnq]].
  destruct (stat_inv _ _ _ Hs) as [ns [Hrs Hns]].
  destruct (samefile_true _ _ _ H) as [names [n [Ha [Hb _]]]].
  pose proof (fun q0 es0 H0 => makedirs_dir_at _ _ _ q0 es0 Hm H0) as Hdirs.
  rewrite (resolve_dirs _ _ _ _ Hdirs Hrq) in Ha.
  rewrite (resolve_dirs _ _ _ _ Hdirs Hrs) in Hb.
  injection Ha as <-. injection Hb as ->.
  exact (samefile_same _ _ _ _ _ Hrq Hrs Hnq).
Qed.

(** A successful [move_file] whose source and destination are not the same
    file: the text of the source is at the destination (under the base
    name of the source when the destination was a directory), the source
    is gone, every other regular file still is one, with its old text or,
    for the one written over, the text of the source, and every directory
    stays a directory.  The reported size is the size of the destination
    path, which is that of the directory when the file moved into one. *)
Theorem move_file_effect (dir_size : Z) (fs : node)
    (source_path destination_path : string) (overwrite : bool)
    (r : copy_result) (fs2 : node) :
  wf fs = true ->
  samefile fs source_path destination_path = false ->
  move_file dir_size fs source_path destination_path overwrite
  = (inr r, fs2) ->
  exists c,
    stat fs source_path = inr (File c)
    /\ stat fs2 (if isdir fs destination_path
                 then join destination_path
                        (basename (rstrip sep source_path))
                 else destination_path) = inr (File c)
    /\ r = mkCopy source_path destination_path
             (if isdir fs destination_path then dir_size else len c)
    /\ exists_ fs2 source_path = false
    /\ (forall q t, stat fs q = inr (File t) ->
          samefile fs q source_path = false ->
          stat fs2 q = inr (File t) \/ stat fs2 q = inr (File c))
    /\ (forall q, isdir fs q = true -> isdir fs2 q = true).
Proof.
  intros Hw Hsame. unfold move_file.
  destruct (isfile fs source_path) eqn:Hs; [|discriminate]. cbn [negb].
  destruct (exists_ fs destination_path && negb overwrite); [discriminate|].
  destruct (makedirs fs _) as [e|fs1] eqn:Hm; [discriminate|].
  destruct (move fs1 source_path destination_path) as [e|fs2'] eqn:Hmv;
    [discriminate|].
  destruct (getsize dir_size fs2' destination_path) as [e|sz] eqn:Hg;
    [discriminate|].
  intros H. injection H as <- <-.
  destruct (isfile_stat _ _ Hs) as [c Hsrc]. exists c.
  pose proof (stat_makedirs_file _ _ _ _ _ Hm Hsrc) as Hsrc1.
  pose proof (wf_makedirs _ _ _ Hw (dirname_abspath_valid _) Hm) as Hw1.
  assert (Hfin : forall target,
            isdir fs1 target = false ->
            samefile fs1 source_path target = false ->
            rename_or_copy fs1 source_path target = inr fs2' ->
            stat fs2' target = inr (File c)
            /\ exists_ fs2' source_path = false
            /\ (forall q t, stat fs q = inr (File t) ->
                  samefile fs q source_path = false ->
                  stat fs2' q = inr (File t) \/ stat fs2' q = inr (File c))
            /\ (forall q, isdir fs q = true -> isdir fs2' q = true)).
  { intros target Hd Hsf Hrc.
    destruct (rename_or_copy_effect _ _ _ _ _ Hw1 Hsrc1 Hd Hsf Hrc)
      as [H1 [H2 [H3 H4]]].
    split; [exact H1|]. split; [exact H2|]. split.
    - intros q t Hq Hqs.
      destruct (H3 q t (stat_makedirs_file _ _ _ _ _ Hm Hq)) as [H|H];
        [|exact H].
      now rewrite (samefile_makedirs _ _ _ _ _ _ _ Hm Hq Hsrc H) in Hqs.
    - intros q Hq. apply H4. now apply (isdir_makedirs _ _ _ _ Hm). }
  split; [exact Hsrc|].
  unfold move in Hmv.
  destruct (isdir fs1 destination_path) eqn:Hd1.
  - rewrite (isdir_makedirs_back _ _ _ Hm Hd1).
    rewrite (samefile_file_dir _ _ _ _ Hsrc1 Hd1) in Hmv. cbv zeta in Hmv.
    destruct (exists_ fs1 _) eqn:He; [discriminate|].
    assert (Hd : isdir fs1 (join destination_path
                              (basename (rstrip sep source_path))) = false).
    { unfold isdir. unfold exists_ in He.
      now destruct (stat fs1 _) as [?|[?|?]]. }
    assert (Hsf : samefile fs1 source_path
                    (join destination_path
                       (basename (rstrip sep source_path))) = false).
    { destruct (samefile fs1 source_path _) eqn:E; [|reflexivity].
      now rewrite (samefile_exists _ _ _ E) in He. }
    destruct (Hfin _ Hd Hsf Hmv) as [H1 [H2 [H3 H4]]].
    split; [exact H1|]. split; [|now repeat split].
    pose proof (H4 _ (isdir_makedirs_back _ _ _ Hm Hd1)) as Hd2.
    destruct (isdir_stat _ _ Hd2) as [es Hes].
    unfold getsize in Hg. rewrite Hes in Hg. now injection Hg as <-.
  - assert (Hd0 : isdir fs destination_path = false).
    { destruct (isdir fs destination_path) eqn:E; [|reflexivity].
      now rewrite (isdir_makedirs _ _ _ _ Hm E) in Hd1. }
    rewrite Hd0.
    assert (Hsf : samefile fs1 source_path destination_path = false).
    { destruct (samefile fs1 source_path destination_path) eqn:E;
        [|reflexivity].
      destruct (samefile_true _ _ _ E) as [names [n [Ha [Hb _]]]].
      destruct (stat_inv _ _ _ Hsrc) as [ns [Hrs Hns]].
      pose proof (fun q0 es0 H0 => makedirs_dir_at _ _ _ q0 es0 Hm H0)
        as Hdirs.
      rewrite (resolve_dirs _ _ _ _ Hdirs Hrs) in Ha. injection Ha as <-.
      rewrite (makedirs_kept _ _ _ _ _ Hm Hb Hns) in E.
      now rewrite E in Hsame. }
    destruct (Hfin _ Hd1 Hsf Hmv) as [H1 [H2 [H3 H4]]].
    split; [exact H1|]. split; [|now repeat split].
    unfold getsize in Hg. rewrite H1 in Hg. now injection Hg as <-.
Qed.

Lemma move_file_effect_witness :
  exists c,
    stat sample_fs "/a.txt" = inr (File c)
    /\ stat (put (drop sample_fs ["a.txt"]) ["e.bin"] (File "hello world"))
         "/e.bin" = inr (File c)
    /\ mkCopy "/a.txt" "/e.bin" 11 = mkCopy "/a.txt" "/e.bin" (len c)
    /\ exists_ (put (drop sample_fs ["a.txt"]) ["e.bin"] (File "hello world"))
         "/a.txt" = false
    /\ (forall q t, stat sample_fs q = inr (File t) ->
          samefile sample_fs q "/a.txt" = false ->
          stat (put (drop sample_fs ["a.txt"]) ["e.bin"]
                  (File "hello world")) q = inr (File t)
          \/ stat (put (drop sample_fs ["a.txt"]) ["e.bin"]
                     (File "hello world")) q = inr (File c))
    /\ (forall q, isdir sample_fs q = true ->
          isdir (put (drop sample_fs ["a.txt"]) ["e.bin"]
                   (File "hello world")) q = true).
Proof.
  apply (move_file_effect 4096 sample_fs "/a.txt" "/e.bin" true
           (mkCopy "/a.txt" "/e.bin" 11)
           (put (drop sample_fs ["a.txt"]) ["e.bin"] (File "hello world")));
    reflexivity.
Defined.

(** Moving a regular file onto itself (the destination is another path to
    the same file) with [overwrite] set succeeds and changes nothing,
    where [copy_file] answers with the error of [shutil.copy2]. *)
Theorem move_file_same_file (dir_size : Z) (fs : node)
    (source_path destination_path c : string) :
  stat fs source_path = inr (File c) ->
  samefile fs source_path destination_path = true ->
  move_file dir_size fs source_path destination_path true
  = (inr (mkCopy source_path destination_path (len c)), fs)
  /\ copy_file dir_size fs source_path destination_path true
     = (inl (Raised SameFileError), fs).
Proof.
  intros Hs Hsame.
  destruct (samefile_true _ _ _ Hsame) as [names [n [Hra [Hrb Hn]]]].
  assert (Hd : stat fs destination_path = inr (File c)).
  { unfold stat in *. rewrite Hra, Hn in Hs. now rewrite Hrb, Hn. }
  assert (Hdir : isdir fs destination_path = false).
  { unfold isdir. now rewrite Hd. }
  assert (Hn' : node_at fs names = Some (File c)).
  { unfold stat in Hs. rewrite Hra, Hn in Hs. now injection Hs as ->. }
  split.
  - unfold move_file, isfile. rewrite Hs. cbn [negb]. rewrite andb_false_r.
    rewrite (makedirs_resolved _ _ _ Hrb).
    unfold move. rewrite Hdir. unfold rename_or_copy, rename.
    rewrite Hra, Hn', Hrb.
    destruct (list_eq_dec string_dec names names) as [_|H]; [|now elim H].
    unfold getsize. now rewrite Hd.
  - unfold copy_file, isfile. rewrite Hs. cbn [negb]. rewrite andb_false_r.
    rewrite (makedirs_resolved _ _ _ Hrb).
    unfold copy2. rewrite Hdir. cbv zeta. now rewrite Hsame.
Qed.

Lemma move_file_same_file_witness :
  move_file 4096 sample_fs "/a.txt" "/sub/../a.txt" true
  = (inr (mkCopy "/a.txt" "/sub/../a.txt" 11), sample_fs)
  /\ copy_file 4096 sample_fs "/a.txt" "/sub/../a.txt" true
     = (inl (Raised SameFileError), sample_fs).
Proof.
  apply (move_file_same_file 4096 sample_fs "/a.txt" "/sub/../a.txt"
           "hello world"); reflexivity.
Defined.

(** Moving a regular file into a directory that already has an entry of
    the source's base name fails, also with [overwrite] set, with the
    message of [shutil.move], and the tree stays as it was. *)
Theorem move_file_into_directory_conflict (dir_size : Z) (fs : node)
    (source_path destination_path : string) :
  isfile fs source_path = true ->
  isdir fs destination_path = true ->
  exists_ fs (join destination_path (basename (rstrip sep source_path)))
  = true ->
  move_file dir_size fs source_path destination_path true
  = (inl (Message ("Destination path '"
                   ++ join destination_path
                        (basename (rstrip sep source_path))
                   ++ "' already exists")), fs).
Proof.
  intros Hs Hd He. destruct (isfile_stat _ _ Hs) as [c Hsrc].
  destruct (isdir_stat _ _ Hd) as [es Hes].
  destruct (stat_inv _ _ _ Hes) as [nd [Hrd _]].
  unfold move_file. rewrite Hs. cbn [negb]. rewrite andb_false_r.
  rewrite (makedirs_resolved _ _ _ Hrd).
  unfold move. rewrite Hd, (samefile_file_dir _ _ _ _ Hsrc Hd).
  cbv zeta. now rewrite He.
Qed.

Lemma move_file_into_directory_conflict_witness :
  move_file 4096 (put sample_fs ["empty.txt"] (File "x")) "/sub/empty.txt"
    "/sub/.." true
  = (inl (Message "Destination path '/sub/../empty.txt' already exists"),
     put sample_fs ["empty.txt"] (File "x")).
Proof.
  apply (move_file_into_directory_conflict 4096
           (put sample_fs ["empty.txt"] (File "x")) "/sub/empty.txt"
           "/sub/.."); reflexivity.
Defined.

(** ** Making directories *)

Lemma grows_refl fs : grows fs fs.
Proof. split; eauto. Qed.

Lemma grows_trans fs1 fs2 fs3 : grows fs1 fs2 -> grows fs2 fs3 -> grows fs1 fs3.
Proof.
  intros [F1 D1] [F2 D2]. split.
  - intros q t H. apply F2, F1, H.
  - intros q es H. destruct (D1 _ _ H) as [es' H']. apply (D2 _ _ H').
Qed.

Lemma grows_stat fs fs' :
  grows fs fs' ->
  (forall q t, stat fs q = inr (File t) -> stat fs' q = inr (File t))
  /\ (forall q, isdir fs q = true -> isdir fs' q = true).
Proof.
  intros [F D]. split.
  - intros q t Hq. destruct (stat_inv _ _ _ Hq) as [nq [Hr Hn]].
    unfold stat. now rewrite (resolve_dirs _ _ _ _ D Hr), (F _ _ Hn).
  - intros q Hq. destruct (isdir_stat _ _ Hq) as [es Hs].
    destruct (stat_inv _ _ _ Hs) as [nq [Hr Hn]].
    destruct (D _ _ Hn) as [es' Hes'].
    unfold isdir, stat. now rewrite (resolve_dirs _ _ _ _ D Hr), Hes'.
Qed.

(** An empty directory put where there was nothing changes no other
    lookup. *)
Lemma put_new_kind nd : forall n q,
  node_at n nd = None -> q <> nd ->
  same_kind (node_at (put n nd (Dir [])) q) (node_at n q).
Proof.
  induction nd as [|x rest IH]; intros n q Hnd Hq; [discriminate|].
  destruct n as [t|es0]; [apply same_kind_refl|].
  cbn [put]. cbn [node_at] in Hnd.
  destruct q as [|y q'].
  - destruct rest; [exact I|]. destruct (assoc x es0); exact I.
  - destruct (String.eqb_spec x y) as [<-|Hne].
    + destruct rest as [|r rs].
      * cbn [node_at]. rewrite assoc_bind_same.
        destruct (assoc x es0) as [cx|]; [discriminate|].
        destruct q' as [|z q'']; [now elim Hq | exact I].
      * destruct (assoc x es0) as [cx|] eqn:E; [|apply same_kind_refl].
        cbn [node_at]. rewrite assoc_bind_same, E.
        apply IH; [assumption|]. intros ->. now elim Hq.
    + assert (Ho : forall new,
                node_at (Dir (bind x new es0)) (y :: q')
                = node_at (Dir es0) (y :: q')).
      { intros new. cbn [node_at]. now rewrite assoc_bind_other. }
      destruct rest as [|r rs].
      * rewrite Ho. apply same_kind_refl.
      * destruct (assoc x es0); [rewrite Ho|]; apply same_kind_refl.
Qed.

Lemma put_new_grows fs names :
  node_at fs names = None -> grows fs (put fs names (Dir [])).
Proof.
  intros Hn.
  assert (H : forall q n, node_at fs q = Some n ->
            same_kind (node_at (put fs names (Dir [])) q) (node_at fs q)).
  { intros q n Hq. apply put_new_kind; [exact Hn|]. intros ->. congruence. }
  split.
  - intros q t Hq. exact (same_kind_file _ _ t (H _ _ Hq) Hq).
  - intros q es Hq. exact (same_kind_dir _ _ es (H _ _ Hq) Hq).
Qed.

Lemma mkdir_inv fs path fs' :
  mkdir fs path = inr fs' ->
  exists names,
    resolve fs (if String.eqb (rstrip sep path) "" then path
                else rstrip sep path) = inr names
    /\ node_at fs names = None /\ fs' = put fs names (Dir []).
Proof.
  unfold mkdir. cbv zeta.
  destruct (resolve fs _) as [e|names]; [discriminate|].
  destruct (node_at fs names) eqn:E; [discriminate|].
  intros H. injection H as <-. now exists names.
Qed.

Lemma mkdir_exist_ok_grows fs name :
  grows fs (snd (mkdir_exist_ok fs name)).
Proof.
  unfold mkdir_exist_ok. destruct (mkdir fs name) as [e|fs'] eqn:E.
  - destruct (isdir fs name); apply grows_refl.
  - destruct (mkdir_inv _ _ _ E) as [names [_ [Hn ->]]].
    now apply put_new_grows.
Qed.

Lemma makedirs_body_grows rec fs name :
  (forall fs0 h, grows fs0 (snd (rec fs0 h))) ->
  grows fs (snd (makedirs_body rec fs name)).
Proof.
  intros Hrec. unfold makedirs_body.
  destruct (makedirs_split name) as [head tail].
  destruct (_ && _); [|apply mkdir_exist_ok_grows].
  pose proof (Hrec fs head) as H.
  destruct (rec fs head) as [r fs1]. cbn [snd] in H.
  assert (H1 : grows fs (snd (if String.eqb tail "." then (inr tt, fs1)
                              else mkdir_exist_ok fs1 name))).
  { destruct (String.eqb tail "."); [exact H|].
    exact (grows_trans _ _ _ H (mkdir_exist_ok_grows fs1 name)). }
  destruct r as [[]|[]]; assumption.
Qed.

Lemma makedirs_depth_grows depth : forall fs name,
  grows fs (snd (makedirs_depth depth fs name)).
Proof.
  induction depth as [|d IH]; intros fs name; cbn [makedirs_depth];
    apply makedirs_body_grows.
  - intros fs0 _. apply grows_refl.
  - exact IH.
Qed.

(** *** [rstrip] and [os.path.split] *)

Lemma times_length c n : String.length (times c n) = n.
Proof. induction n; simpl; congruence. Qed.

Lemma rstrip_times c n : rstrip c (times c n) = "".
Proof.
  induction n as [|n IH]; [reflexivity|].
  simpl. rewrite IH. now rewrite Ascii.eqb_refl.
Qed.

(** What [rstrip] takes off is a run of the character. *)
Lemma rstrip_spec c s : exists k, s = rstrip c s ++ times c k.
Proof.
  induction s as [|a s [k IH]]; [now exists O|].
  cbn [rstrip]. destruct (rstrip c s) as [|b r] eqn:E.
  - destruct (Ascii.eqb_spec a c) as [->|Hne].
    + exists (S k). simpl in *. now rewrite <- IH.
    + exists k. simpl in *. now rewrite <- IH.
  - exists k. simpl in *. now rewrite <- IH.
Qed.

Lemma rstrip_length c s : (String.length (rstrip c s) <= String.length s)%nat.
Proof.
  destruct (rstrip_spec c s) as [k H].
  apply (f_equal String.length) in H. rewrite length_append in H. lia.
Qed.

Lemma rstrip_snoc c s : rstrip c (s ++ String c "") = rstrip c s.
Proof.
  induction s as [|a s IH]; simpl.
  - now rewrite Ascii.eqb_refl.
  - now rewrite IH.
Qed.

Lemma rstrip_empty c s : rstrip c s = "" -> s = times c (String.length s).
Proof.
  intros H. destruct (rstrip_spec c s) as [k Hk]. rewrite H in Hk.
  simpl in Hk. rewrite Hk at 2. rewrite times_length. exact Hk.
Qed.

Lemma split_times c k : split c (times c k) = repeat "" (S k).
Proof.
  induction k as [|k IH]; [reflexivity|].
  cbn [times split]. rewrite Ascii.eqb_refl, IH. reflexivity.
Qed.

Lemma split_app_times c s k :
  exists j, split c (s ++ times c k) = (split c s ++ repeat "" j)%list.
Proof.
  destruct k as [|k].
  - exists O. simpl. now rewrite append_nil_r, app_nil_r.
  - exists (S k). cbn [times]. now rewrite split_app_sep, split_times.
Qed.

Lemma split_rstrip c s :
  exists j, split c s = (split c (rstrip c s) ++ repeat "" j)%list.
Proof.
  destruct (rstrip_spec c s) as [k Hk].
  destruct (split_app_times c (rstrip c s) k) as [j Hj].
  exists j. now rewrite Hk at 1.
Qed.

Lemma rfind_from_app c h : forall i t,
  0 <= i -> rfind_from 0 c t < 0 ->
  rfind_from i c (h ++ String c t) = i + len h.
Proof.
  unfold len. induction h as [|a h IH]; intros i t Hi Ht.
  - cbn [append rfind_from String.length].
    pose proof (rfind_from_absent c t 0 (i + 1) ltac:(lia) ltac:(lia) Ht).
    destruct (Z.leb_spec 0 (rfind_from (i + 1) c t)); [lia|].
    rewrite Ascii.eqb_refl. simpl. lia.
  - cbn [append rfind_from String.length].
    rewrite (IH (i + 1) t ltac:(lia) Ht).
    destruct (Z.leb_spec 0 (i + 1 + Z.of_nat (String.length h))); lia.
Qed.

Lemma rfind_from_split c s : forall i,
  0 <= i -> 0 <= rfind_from i c s ->
  exists h t, s = h ++ String c t /\ rfind_from 0 c t < 0.
Proof.
  induction s as [|a s IH]; intros i Hi; cbn [rfind_from]; [lia|].
  destruct (Z.leb_spec 0 (rfind_from (i + 1) c s)) as [H|H].
  - intros _. destruct (IH (i + 1) ltac:(lia) H) as [h [t [-> Ht]]].
    now exists (String a h), t.
  - destruct (Ascii.eqb_spec a c) as [->|Hne]; [|lia].
    intros _. exists "", s. split; [reflexivity|].
    exact (rfind_from_absent c s (i + 1) 0 ltac:(lia) ltac:(lia) H).
Qed.

Lemma slice_to_prefix h t : slice_to (h ++ t) (len h) = h.
Proof.
  unfold slice_to, len.
  change 0 with (Z.of_nat 0).
  rewrite slice_substring; [|lia|rewrite length_append; lia].
  rewrite Nat.sub_0_r. apply substring_prefix.
Qed.

Lemma slice_from_prefix h t : slice_from (h ++ t) (len h) = t.
Proof.
  unfold slice_from, len.
  rewrite slice_substring; [|rewrite length_append; lia|lia].
  rewrite length_append.
  replace (String.length h + String.length t - String.length h)%nat
    with (String.length t) by lia.
  rewrite substring_skip. apply substring_whole.
Qed.

(** [os.path.split] of a path without a slash, and of one with a last
    slash. *)
Lemma path_split_none s : rfind s sep < 0 -> path_split s = ("", s).
Proof.
  intros H. unfold path_split, rfind in *.
  destruct (rfind_from_range sep s 0 ltac:(lia)) as [E|E]; [|lia].
  rewrite E. change (-1 + 1) with (len "").
  pose proof (slice_to_prefix "" s) as A.
  pose proof (slice_from_prefix "" s) as B.
  cbn [append] in A, B. now rewrite A, B.
Qed.

Lemma path_split_some h t :
  rfind t sep < 0 ->
  path_split (h ++ String sep t)
  = (if String.eqb (rstrip sep h) "" then h ++ "/" else rstrip sep h, t).
Proof.
  intros Ht. unfold path_split, rfind in *.
  rewrite (rfind_from_app sep h 0 t ltac:(lia) Ht).
  replace (0 + len h + 1) with (len (h ++ "/"))
    by (rewrite len_app; reflexivity).
  change (h ++ String sep t) with (h ++ "/" ++ t).
  rewrite <- append_assoc.
  rewrite slice_to_prefix, slice_from_prefix.
  f_equal.
  assert (Hne : String.eqb (h ++ "/") "" = false).
  { destruct h; reflexivity. }
  rewrite Hne. cbn [negb andb].
  change (h ++ "/") with (h ++ String sep "") at 3.
  rewrite rstrip_snoc.
  destruct (String.eqb_spec (rstrip sep h) "") as [E|E].
  - pose proof (rstrip_snoc sep h) as E'. rewrite E in E'.
    apply rstrip_empty in E'.
    change (h ++ String sep "") with (h ++ "/") in E'.
    rewrite <- E'. now rewrite String.eqb_refl.
  - destruct (String.eqb_spec (h ++ "/")
                (times sep (String.length (h ++ "/")))) as [E'|_];
      [|reflexivity].
    exfalso. apply E. rewrite <- (rstrip_snoc sep h).
    change (h ++ String sep "") with (h ++ "/").
    rewrite E'. apply rstrip_times.
Qed.

Lemma path_split_cases s :
  path_split s = ("", s) /\ rfind s sep < 0
  \/ exists h t,
       s = h ++ String sep t /\ rfind t sep < 0
       /\ path_split s
          = (if String.eqb (rstrip sep h) "" then h ++ "/"
             else rstrip sep h, t).
Proof.
  destruct (Z.ltb_spec (rfind s sep) 0) as [H|H].
  - left. split; [now apply path_split_none | exact H].
  - right. destruct (rfind_from_split sep s 0 ltac:(lia) H)
      as [h [t [-> Ht]]].
    exists h, t. repeat split; [exact Ht | now apply path_split_some].
Qed.

Lemma path_split_length s :
  (String.length (fst (path_split s)) + String.length (snd (path_split s))
   <= String.length s)%nat.
Proof.
  destruct (path_split_cases s) as [[-> _]|[h [t [-> [_ ->]]]]].
  - simpl. lia.
  - cbn [fst snd]. rewrite length_append. cbn [String.length].
    pose proof (rstrip_length sep h).
    destruct (String.eqb (rstrip sep h) "").
    + rewrite length_append. simpl. lia.
    + lia.
Qed.

(** The head [os.makedirs] calls itself on is shorter than the name. *)
Lemma makedirs_split_length name :
  snd (makedirs_split name) <> "" ->
  (String.length (fst (makedirs_split name)) < String.length name)%nat.
Proof.
  unfold makedirs_split.
  pose proof (path_split_length name) as H1.
  destruct (path_split name) as [h1 t1]. cbn [fst snd] in H1.
  destruct (String.eqb_spec t1 "") as [->|Hne].
  - pose proof (path_split_length h1) as H2.
    destruct (path_split h1) as [h2 t2]. cbn [fst snd] in *.
    intros Ht. destruct t2; [now elim Ht|]. simpl in *. lia.
  - cbn [fst snd]. intros _. destruct t1; [now elim Hne|]. simpl in *. lia.
Qed.

(** *** The depth of [os.makedirs] *)

Lemma makedirs_body_ext rec1 rec2 fs name :
  (snd (makedirs_split name) <> "" ->
   forall fs0, rec1 fs0 (fst (makedirs_split name))
               = rec2 fs0 (fst (makedirs_split name))) ->
  makedirs_body rec1 fs name = makedirs_body rec2 fs name.
Proof.
  unfold makedirs_body. destruct (makedirs_split name) as [head tail].
  cbn [fst snd]. intros H.
  destruct (String.eqb_spec tail "") as [->|Hne].
  - now rewrite andb_false_r.
  - now rewrite (H Hne).
Qed.

Lemma makedirs_depth_enough d1 : forall d2 fs name,
  (String.length name <= d1)%nat -> (String.length name <= d2)%nat ->
  makedirs_depth d1 fs name = makedirs_depth d2 fs name.
Proof.
  induction d1 as [|d1 IH]; intros d2 fs name H1 H2;
    destruct d2 as [|d2]; cbn [makedirs_depth];
    apply makedirs_body_ext; intros Ht fs0;
    pose proof (makedirs_split_length name Ht); try lia.
  apply IH; lia.
Qed.

(** The length of the name is depth enough: [makedirs_str] is the function
    that [os.makedirs] defines by calling itself. *)
Lemma makedirs_str_unfold fs name :
  makedirs_str fs name = makedirs_body makedirs_str fs name.
Proof.
  unfold makedirs_str at 1.
  destruct (String.length name) as [|d] eqn:E; cbn [makedirs_depth];
    apply makedirs_body_ext; intros Ht fs0;
    pose proof (makedirs_split_length name Ht); try lia.
  unfold makedirs_str. apply makedirs_depth_enough; lia.
Qed.

(** *** Resolution of a path and of its head *)

Lemma canon_empties fs k : forall cur r,
  canon fs cur (repeat "" k) = inr r -> r = cur.
Proof.
  induction k as [|k IH]; intros cur r; simpl.
  - now intros [= <-].
  - destruct (node_at fs cur) as [[?|?]|]; try discriminate. apply IH.
Qed.

Lemma canon_empties_dir fs cur es k :
  node_at fs cur = Some (Dir es) -> canon fs cur (repeat "" k) = inr cur.
Proof.
  intros H. induction k as [|k IH]; simpl; [reflexivity|]. now rewrite H.
Qed.

Lemma canon_last_dir fs cur c r :
  canon fs cur [c] = inr r -> exists es, node_at fs cur = Some (Dir es).
Proof.
  simpl. destruct (node_at fs cur) as [[?|es]|]; try discriminate.
  intros _. now exists es.
Qed.

Lemma resolve_rstrip fs s names :
  resolve fs s = inr names -> rstrip sep s <> "" ->
  resolve fs (rstrip sep s) = inr names.
Proof.
  unfold resolve. destruct (String.eqb s ""); [discriminate|].
  intros H Hne. destruct (String.eqb_spec (rstrip sep s) ""); [contradiction|].
  destruct (split_rstrip sep s) as [j Hj]. rewrite Hj, canon_app in H.
  destruct (canon fs [] (split sep (rstrip sep s))) as [e|cur];
    [discriminate|].
  now rewrite (canon_empties _ _ _ _ H).
Qed.

Lemma resolve_all_sep fs s names :
  resolve fs s = inr names -> rstrip sep s = "" -> names = [].
Proof.
  unfold resolve. destruct (String.eqb s ""); [discriminate|].
  intros H E. rewrite (rstrip_empty _ _ E), split_times in H.
  exact (canon_empties _ _ _ _ H).
Qed.

(** The head of a path that resolves is empty or a directory. *)
Lemma path_split_isdir fs s names :
  resolve fs s = inr names ->
  fst (path_split s) = "" \/ isdir fs (fst (path_split s)) = true.
Proof.
  intros Hr.
  destruct (path_split_cases s) as [[-> _]|[h [t [-> [Ht ->]]]]];
    [now left|right].
  cbn [fst]. unfold resolve in Hr.
  destruct (String.eqb _ "") in Hr; [discriminate|].
  rewrite split_app_sep, (split_without_sep sep t 0 ltac:(lia) Ht),
    canon_app in Hr.
  destruct (canon fs [] (split sep h)) as [e|cur] eqn:Hh; [discriminate|].
  destruct (canon_last_dir _ _ _ _ Hr) as [es Hes].
  unfold isdir, stat, resolve.
  destruct (String.eqb_spec (rstrip sep h) "") as [E|E].
  - assert (Hne : String.eqb (h ++ "/") "" = false) by (destruct h; reflexivity).
    rewrite Hne. change (h ++ "/") with (h ++ String sep "").
    rewrite split_app_sep, canon_app, Hh.
    change (split sep "") with (repeat "" 1).
    now rewrite (canon_empties_dir _ _ es), Hes.
  - destruct (String.eqb_spec (rstrip sep h) ""); [contradiction|].
    destruct (split_rstrip sep h) as [j Hj]. rewrite Hj, canon_app in Hh.
    destruct (canon fs [] (split sep (rstrip sep h))) as [e|cur'];
      [discriminate|].
    rewrite (canon_empties _ _ _ _ Hh) in Hes. now rewrite Hes.
Qed.

Lemma isdir_resolve fs p :
  isdir fs p = true -> exists names, resolve fs p = inr names.
Proof.
  intros H. destruct (isdir_stat _ _ H) as [es Hs].
  destruct (stat_inv _ _ _ Hs) as [names [Hr _]]. now exists names.
Qed.

(** For a name that resolves, [os.makedirs] has nothing to make first. *)
Lemma makedirs_body_resolved rec fs name names :
  resolve fs name = inr names ->
  makedirs_body rec fs name = mkdir_exist_ok fs name.
Proof.
  intros Hr. unfold makedirs_body.
  assert (H : fst (makedirs_split name) = ""
              \/ isdir fs (fst (makedirs_split name)) = true).
  { unfold makedirs_split.
    pose proof (path_split_isdir _ _ _ Hr) as H1.
    destruct (path_split name) as [h1 t1]. cbn [fst] in H1.
    destruct (String.eqb t1 ""); [|exact H1].
    destruct H1 as [->|H1]; [now left|].
    destruct (isdir_resolve _ _ H1) as [n1 Hr1].
    exact (path_split_isdir _ _ _ Hr1). }
  destruct (makedirs_split name) as [head tail]. cbn [fst] in H.
  destruct H as [->|H]; [reflexivity|].
  assert (He : exists_ fs head = true).
  { unfold exists_. destruct (isdir_stat _ _ H) as [es ->]. reflexivity. }
  rewrite He. cbn [negb]. now rewrite andb_false_r.
Qed.

Lemma mkdir_exists fs p :
  exists_ fs p = true -> mkdir fs p = inl FileExistsError.
Proof.
  unfold exists_. destruct (stat fs p) as [e|n] eqn:Hs; [discriminate|].
  intros _. destruct (stat_inv _ _ _ Hs) as [names [Hr Hn]].
  unfold mkdir. cbv zeta.
  destruct (String.eqb_spec (rstrip sep p) "") as [E|E].
  - now rewrite Hr, Hn.
  - now rewrite (resolve_rstrip _ _ _ Hr E), Hn.
Qed.

(** [create_directory] on a path that exists changes nothing: it succeeds
    when the path is a directory and answers with the [FileExistsError]
    of [os.mkdir] when it is a regular file. *)
Theorem create_directory_existing (fs : node) (directory_path : string) :
  exists_ fs directory_path = true ->
  create_directory fs directory_path
  = (if isdir fs directory_path then inr directory_path
     else inl (Raised FileExistsError), fs).
Proof.
  intros He. unfold create_directory. rewrite makedirs_str_unfold.
  assert (Hr : exists names, resolve fs directory_path = inr names).
  { unfold exists_ in He.
    destruct (stat fs directory_path) as [e|n] eqn:Hs; [discriminate|].
    destruct (stat_inv _ _ _ Hs) as [names [Hr _]]. now exists names. }
  destruct Hr as [names Hr].
  rewrite (makedirs_body_resolved _ _ _ _ Hr).
  unfold mkdir_exist_ok. rewrite (mkdir_exists _ _ He).
  now destruct (isdir fs directory_path).
Qed.

Lemma create_directory_existing_witness :
  create_directory sample_fs "/sub/" = (inr "/sub/", sample_fs)
  /\ create_directory sample_fs "sub/../a.txt"
     = (inl (Raised FileExistsError), sample_fs).
Proof.
  split.
  - apply (create_directory_existing sample_fs "/sub/"). reflexivity.
  - apply (create_directory_existing sample_fs "sub/../a.txt"). reflexivity.
Defined.

(** A path just made by [os.mkdir] is an empty directory. *)
Lemma mkdir_stat fs p fs' :
  mkdir fs p = inr fs' -> stat fs' p = inr (Dir []).
Proof.
  intros H. destruct (mkdir_inv _ _ _ H) as [names [Hr [Hn ->]]].
  destruct (String.eqb_spec (rstrip sep p) "") as [E|E].
  { rewrite (resolve_all_sep _ _ _ Hr E) in Hn. discriminate. }
  pose proof (put_new_grows _ _ Hn) as [_ Hdirs].
  assert (Hat : node_at (put fs names (Dir [])) names = Some (Dir [])).
  { apply node_at_put_same. right.
    unfold resolve in Hr. destruct (String.eqb _ "") in Hr; [discriminate|].
    destruct (canon_result _ _ _ _ (split_not_nil _ _) Hr)
      as [[es H1]|[_ H1]]; [congruence | exact H1]. }
  pose proof (resolve_dirs _ _ _ _ Hdirs Hr) as Hr'.
  unfold stat, resolve. unfold resolve in Hr'.
  destruct (String.eqb_spec p "") as [->|_]; [now elim E|].
  destruct (String.eqb (rstrip sep p) "") in Hr'; [discriminate|].
  destruct (split_rstrip sep p) as [j Hj].
  now rewrite Hj, canon_app, Hr', (canon_empties_dir _ _ [] j Hat), Hat.
Qed.

Lemma mkdir_isdir fs p fs' : mkdir fs p = inr fs' -> isdir fs' p = true.
Proof. intros H. unfold isdir. now rewrite (mkdir_stat _ _ _ H). Qed.

Lemma mkdir_new fs p names :
  resolve fs p = inr names -> node_at fs names = None ->
  mkdir fs p = inr (put fs names (Dir [])).
Proof.
  intros Hr Hn. unfold mkdir. cbv zeta.
  destruct (String.eqb_spec (rstrip sep p) "") as [E|E].
  - now rewrite Hr, Hn.
  - now rewrite (resolve_rstrip _ _ _ Hr E), Hn.
Qed.

Lemma mkdir_exist_ok_isdir fs p fs' :
  mkdir_exist_ok fs p = (inr tt, fs') -> isdir fs' p = true.
Proof.
  unfold mkdir_exist_ok. destruct (mkdir fs p) as [e|fs1] eqn:E.
  - destruct (isdir fs p) eqn:Hd; [|discriminate].
    now intros [= <-].
  - intros [= <-]. exact (mkdir_isdir _ _ _ E).
Qed.

(** A [create_directory] that succeeds has made the path a directory,
    unless the last component that [os.makedirs] splits off is a dot. *)
Theorem create_directory_makes (fs : node) (directory_path path : string)
    (fs2 : node) :
  snd (makedirs_split directory_path) <> "." ->
  create_directory fs directory_path = (inr path, fs2) ->
  path = directory_path /\ isdir fs2 directory_path = true.
Proof.
  intros Ht. unfold create_directory. rewrite makedirs_str_unfold.
  unfold makedirs_body.
  destruct (makedirs_split directory_path) as [head tail]. cbn [snd] in Ht.
  assert (Hlast : forall fs1,
            (let (r, fs') := mkdir_exist_ok fs1 directory_path in
             match r with
             | inl e => (inl (Raised e), fs')
             | inr _ => (inr directory_path, fs')
             end) = (inr path, fs2) ->
            path = directory_path /\ isdir fs2 directory_path = true).
  { intros fs1.
    destruct (mkdir_exist_ok fs1 directory_path) as [[e|[]] fs'] eqn:E;
      [discriminate|].
    intros [= <- <-]. split; [reflexivity|].
    exact (mkdir_exist_ok_isdir _ _ _ E). }
  destruct (_ && _); [|apply Hlast].
  destruct (makedirs_str fs head) as [r fs1].
  destruct (String.eqb_spec tail ".") as [->|_]; [now elim Ht|].
  destruct r as [[]|[]]; try discriminate; apply Hlast.
Qed.

Lemma create_directory_makes_witness :
  "/sub/x/y/" = "/sub/x/y/"
  /\ isdir (put (put sample_fs ["sub"; "x"] (Dir [])) ["sub"; "x"; "y"]
              (Dir [])) "/sub/x/y/" = true.
Proof.
  apply (create_directory_makes sample_fs "/sub/x/y/" "/sub/x/y/"
           (put (put sample_fs ["sub"; "x"] (Dir [])) ["sub"; "x"; "y"]
              (Dir []))).
  - discriminate.
  - reflexivity.
Defined.

(** Whatever [create_directory] answers, it removes and overwrites
    nothing: every regular file keeps its text and every directory stays
    one, also when directories were made before an error. *)
Theorem create_directory_keeps (fs : node) (directory_path : string)
    (q : string) :
  let fs2 := snd (create_directory fs directory_path) in
  (forall t, stat fs q = inr (File t) -> stat fs2 q = inr (File t))
  /\ (isdir fs q = true -> isdir fs2 q = true).
Proof.
  cbv zeta.
  assert (H : grows fs (snd (create_directory fs directory_path))).
  { unfold create_directory, makedirs_str.
    pose proof (makedirs_depth_grows (String.length directory_path) fs
                  directory_path) as H.
    destruct (makedirs_depth _ fs directory_path) as [[e|u] fs']; exact H. }
  destruct (grows_stat _ _ H) as [H1 H2]. split; [intros t; apply H1 | apply H2].
Qed.

Lemma create_directory_keeps_witness :
  (forall t, stat sample_fs "/a.txt" = inr (File t) ->
             stat (snd (create_directory sample_fs "new/../a.txt")) "/a.txt"
             = inr (File t))
  /\ (isdir sample_fs "/a.txt" = true ->
      isdir (snd (create_directory sample_fs "new/../a.txt")) "/a.txt"
      = true).
Proof.
  apply (create_directory_keeps sample_fs "new/../a.txt" "/a.txt").
Defined.

(** A new name inside a directory: [create_directory] succeeds and the
    path is an empty directory afterwards. *)
Theorem create_directory_new (fs : node) (parent x : string) :
  isdir fs parent = true ->
  valid_name x = true ->
  exists_ fs (join parent x) = false ->
  exists fs2,
    create_directory fs (join parent x) = (inr (join parent x), fs2)
    /\ stat fs2 (join parent x) = inr (Dir []).
Proof.
  intros Hd Hx He. destruct (isdir_stat _ _ Hd) as [es Hs].
  destruct (stat_inv _ _ _ Hs) as [names [Hr Hn]].
  pose proof (resolve_join _ _ _ es x Hr Hn Hx) as Hj.
  assert (Hnone : node_at fs (names ++ [x])%list = None).
  { unfold exists_, stat in He. rewrite Hj in He.
    now destruct (node_at fs (names ++ [x])%list). }
  pose proof (mkdir_new _ _ _ Hj Hnone) as Hm.
  exists (put fs (names ++ [x])%list (Dir [])). split.
  - unfold create_directory. rewrite makedirs_str_unfold.
    rewrite (makedirs_body_resolved _ _ _ _ Hj).
    unfold mkdir_exist_ok. now rewrite Hm.
  - exact (mkdir_stat _ _ _ Hm).
Qed.

Lemma create_directory_new_witness :
  exists fs2,
    create_directory sample_fs "/sub/new" = (inr "/sub/new", fs2)
    /\ stat fs2 "/sub/new" = inr (Dir []).
Proof.
  apply (create_directory_new sample_fs "/sub" "new"); reflexivity.
Defined.
